(** * Claudian: path containment, security hooks, SDK message transformer
      and the instruction-refine conversation service

    A shallow embedding of the TypeScript sources

    - [src/utils.ts]                    ([isPathWithinVault], [findClaudeCLIPath],
                                         [parseEnvironmentVariables],
                                         [getModelsFromEnvironment],
                                         [getCurrentModelFromEnvironment]),
    - [src/hooks/SecurityHooks.ts]      ([createVaultRestrictionHook]),
    - [src/sdk/MessageTransformer.ts]   ([transformSDKMessage]),
    - [src/InstructionRefineService.ts] ([parseResponse], [cancel], [refineInstruction],
                                         [continueConversation], [sendMessage],
                                         the two hooks),
    - [src/ui/InputToolbar.ts]          (the model selector and the context paths),

    followed by the properties proved about them.

    Conventions.  A JavaScript string is a [string]; one [ascii] stands for one
    UTF-16 code unit below 256.  Values that come from the agent runtime (SDK
    messages, tool inputs) are untyped and are modelled by [JsValue]; a
    property read on [null] or [undefined] raises a [TypeError], which the
    model makes explicit with [Completion].  Node's [path] module is modelled
    in its POSIX flavour ([path.sep = "/"]); the file system, the home
    directory, the working directory, the clock and the random source are
    explicit parameters. *)

From Stdlib Require Import String Ascii List ZArith Bool Arith Lia DecimalString.
Import ListNotations.
Local Open Scope list_scope.
Local Open Scope string_scope.
Set Warnings "-register-all".

(* ================================================================== *)
(** * JavaScript strings *)
(* ================================================================== *)

Module Text.

(** The double quote, for the messages that quote a path. *)
Definition dquote : string := String "034"%char "".

(** [s.startsWith(p)]. *)
Definition startsWith (s p : string) : bool := String.prefix p s.

(** [s.slice(n)] for [0 <= n]: the string without its first [n] code units. *)
Fixpoint slice (n : nat) (s : string) : string :=
  match n, s with
  | O, _ => s
  | S _, "" => ""
  | S n', String _ r => slice n' r
  end.

(** [s.charCodeAt(0) === c]. *)
Definition firstIs (c : ascii) (s : string) : bool :=
  match s with
  | String d _ => Ascii.eqb d c
  | "" => false
  end.

(** [s.charCodeAt(s.length - 1) === c]. *)
Fixpoint lastIs (c : ascii) (s : string) : bool :=
  match s with
  | "" => false
  | String d "" => Ascii.eqb d c
  | String _ r => lastIs c r
  end.

(** [s.split(sep)] for a one-character separator: never empty. *)
Fixpoint split (sep : ascii) (s : string) : list string :=
  match s with
  | "" => [""]
  | String c r =>
      if Ascii.eqb c sep then "" :: split sep r
      else match split sep r with
           | [] => [String c ""]
           | h :: t => String c h :: t
           end
  end.

(** [parts.join(sep)]. *)
Fixpoint join (sep : string) (parts : list string) : string :=
  match parts with
  | [] => ""
  | [p] => p
  | p :: rest => p ++ sep ++ join sep rest
  end.

(** WhiteSpace and LineTerminator code units below 256, the ones
    [String.prototype.trim] strips: TAB, LF, VT, FF, CR, SP and NBSP. *)
Definition isWhiteSpace (c : ascii) : bool :=
  let n := nat_of_ascii c in
  ((9 <=? n)%nat && (n <=? 13)%nat) || (n =? 32)%nat || (n =? 160)%nat.

Fixpoint trimStart (s : string) : string :=
  match s with
  | "" => ""
  | String c r => if isWhiteSpace c then trimStart r else s
  end.

Fixpoint trimEnd (s : string) : string :=
  match s with
  | "" => ""
  | String c r =>
      match trimEnd r with
      | "" => if isWhiteSpace c then "" else String c ""
      | r' => String c r'
      end
  end.

(** [s.trim()]. *)
Definition trim (s : string) : string := trimEnd (trimStart s).

(** Decimal rendering of an integer, as a template literal prints it. *)
Definition ofZ (z : Z) : string := NilZero.string_of_int (Z.to_int z).

End Text.

(* ================================================================== *)
(** * Node's [path] module (POSIX) *)
(* ================================================================== *)

Module NodePath.

Definition sep : string := "/".

(** [path.isAbsolute(p)]: non-empty and starting with a slash. *)
Definition isAbsolute (p : string) : bool := Text.firstIs "/"%char p.

(** One segment of [normalizeString]; [res] holds the segments kept so far,
    the last one first.  Empty segments and [.] are dropped, [..] removes the
    last kept segment, or is kept itself when nothing can be removed and
    [allowAboveRoot] holds. *)
Definition normalizeStep (allowAboveRoot : bool) (res : list string) (seg : string)
  : list string :=
  if seg =? "" then res
  else if seg =? "." then res
  else if seg =? ".." then
    match res with
    | last :: rest =>
        if last =? ".." then (if allowAboveRoot then ".." :: res else res)
        else rest
    | [] => if allowAboveRoot then [".."] else []
    end
  else seg :: res.

(** [normalizeString(path, allowAboveRoot, "/", isPosixPathSeparator)]. *)
Definition normalizeString (path : string) (allowAboveRoot : bool) : string :=
  Text.join "/" (rev (fold_left (normalizeStep allowAboveRoot) (Text.split "/"%char path) [])).

(** [path.normalize(p)]. *)
Definition normalize (path : string) : string :=
  if path =? "" then "."
  else
    let isAbs := isAbsolute path in
    let trailingSeparator := Text.lastIs "/"%char path in
    let p := normalizeString path (negb isAbs) in
    if p =? "" then
      (if isAbs then "/" else if trailingSeparator then "./" else ".")
    else
      let p := if trailingSeparator then p ++ "/" else p in
      if isAbs then "/" ++ p else p.

(** [path.join(...args)]. *)
Definition join (args : list string) : string :=
  match filter (fun a => negb (a =? "")) args with
  | [] => "."
  | parts => normalize (Text.join "/" parts)
  end.

(** The loop of [path.resolve]: [paths] are the arguments from the last to
    the first, then the working directory; it stops at the first absolute
    one. *)
Fixpoint resolveLoop (paths : list string) (resolvedPath : string) : string * bool :=
  match paths with
  | [] => (resolvedPath, false)
  | p :: rest =>
      if p =? "" then resolveLoop rest resolvedPath
      else
        let resolvedPath := p ++ "/" ++ resolvedPath in
        if isAbsolute p then (resolvedPath, true) else resolveLoop rest resolvedPath
  end.

(** [path.resolve(...args)] in a process whose working directory is [cwd]. *)
Definition resolve (cwd : string) (args : list string) : string :=
  let '(resolvedPath, resolvedAbsolute) := resolveLoop (rev args ++ [cwd])%list "" in
  let normalized := normalizeString resolvedPath (negb resolvedAbsolute) in
  if resolvedAbsolute then "/" ++ normalized
  else if normalized =? "" then "." else normalized.

End NodePath.

(* ================================================================== *)
(** * [src/utils.ts] *)
(* ================================================================== *)

Module Utils.

(** What the process sees of its host: [fs.realpathSync.native ??
    fs.realpathSync] ([None] when it throws, as it does for a path that does
    not exist), [fs.existsSync], [os.homedir()] and [process.cwd()]. *)
Record Host := {
  realpathSync : string -> option string;
  existsSync : string -> bool;
  homedir : string;
  cwd : string
}.

(** Returns the vault's absolute file path, or null if unavailable: the
    adapter's [basePath] when it has one. *)
Definition getVaultPath (adapterBasePath : option string) : option string :=
  adapterBasePath.

(** Finds Claude Code CLI executable in common install locations. *)
Definition findClaudeCLIPath (h : Host) : option string :=
  let homeDir := homedir h in
  let commonPaths :=
    [ NodePath.join [homeDir; ".claude"; "local"; "claude"];
      NodePath.join [homeDir; ".local"; "bin"; "claude"];
      "/usr/local/bin/claude";
      "/opt/homebrew/bin/claude";
      NodePath.join [homeDir; "bin"; "claude"] ] in
  find (existsSync h) commonPaths.

(** Best-effort realpath that falls back to path.resolve for non-existent
    targets. *)
Definition resolveRealPath (h : Host) (p : string) : string :=
  match realpathSync h p with
  | Some real => real
  | None => NodePath.resolve (cwd h) [p]
  end.

(** The candidate after the [~/] expansion. *)
Definition expandedPath (h : Host) (candidatePath : string) : string :=
  if Text.startsWith candidatePath "~/"
  then NodePath.join [homedir h; Text.slice 2 candidatePath]
  else candidatePath.

(** The candidate made absolute: relative ones are taken from the vault. *)
Definition absCandidate (h : Host) (candidatePath vaultPath : string) : string :=
  let expanded := expandedPath h candidatePath in
  if NodePath.isAbsolute expanded then expanded
  else NodePath.resolve (cwd h) [vaultPath; expanded].

(** Checks whether a candidate path is within the vault. *)
Definition isPathWithinVault (h : Host) (candidatePath vaultPath : string) : bool :=
  let vaultReal := resolveRealPath h vaultPath in
  let resolvedCandidate := resolveRealPath h (absCandidate h candidatePath vaultPath) in
  (resolvedCandidate =? vaultReal)
  || Text.startsWith resolvedCandidate (vaultReal ++ NodePath.sep).

End Utils.

(* ================================================================== *)
(** * Untyped JavaScript values *)
(* ================================================================== *)

Module Js.

(** A value as [JSON.parse] builds it, plus [undefined].  Numbers are kept to
    the integers; an object is the list of its own properties, the first
    binding of a key being the one that is read. *)
Inductive JsValue : Type :=
| JsUndefined
| JsNull
| JsBool (b : bool)
| JsNumber (n : Z)
| JsString (s : string)
| JsArray (items : list JsValue)
| JsObject (props : list (string * JsValue)).

(** What a [throw] carries: an [Error] object with its name and message, or
    any other value. *)
Inductive Thrown : Type :=
| ErrorObject (name message : string)
| NonError (v : JsValue).

Inductive Completion (A : Type) : Type :=
| Normal (a : A)
| Throw (e : Thrown).

Arguments Normal {A} a.
Arguments Throw {A} e.

(** ToBoolean. *)
Definition truthy (v : JsValue) : bool :=
  match v with
  | JsUndefined | JsNull => false
  | JsBool b => b
  | JsNumber n => negb (n =? 0)%Z
  | JsString s => negb (s =? "")
  | JsArray _ | JsObject _ => true
  end.

Definition isNullish (v : JsValue) : bool :=
  match v with
  | JsUndefined | JsNull => true
  | _ => false
  end.

Fixpoint lookup (k : string) (props : list (string * JsValue)) : JsValue :=
  match props with
  | [] => JsUndefined
  | (k', v) :: rest => if k' =? k then v else lookup k rest
  end.

Definition typeErrorReading (what k : string) : Thrown :=
  ErrorObject "TypeError" ("Cannot read properties of " ++ what ++ " (reading '" ++ k ++ "')").

(** [v.k], for the property names the sources read (none of them is a
    property of a primitive or of [Array.prototype]). *)
Definition get (v : JsValue) (k : string) : Completion JsValue :=
  match v with
  | JsUndefined => Throw (typeErrorReading "undefined" k)
  | JsNull => Throw (typeErrorReading "null" k)
  | JsObject props => Normal (lookup k props)
  | _ => Normal JsUndefined
  end.

(** [v?.k]. *)
Definition getOpt (v : JsValue) (k : string) : JsValue :=
  match v with
  | JsObject props => lookup k props
  | _ => JsUndefined
  end.

(** [v === "s"]. *)
Definition strictEqStr (v : JsValue) (s : string) : bool :=
  match v with
  | JsString t => t =? s
  | _ => false
  end.

(** [a || b] and [a ?? b]. *)
Definition jsOr (a b : JsValue) : JsValue := if truthy a then a else b.
Definition nullishCoalesce (a b : JsValue) : JsValue := if isNullish a then b else a.

(** [v !== undefined]. *)
Definition isDefined (v : JsValue) : bool :=
  match v with
  | JsUndefined => false
  | _ => true
  end.

(** [typeof v === 'string']. *)
Definition isString (v : JsValue) : bool :=
  match v with
  | JsString _ => true
  | _ => false
  end.

(** The elements when [Array.isArray(v)]. *)
Definition arrayItems (v : JsValue) : option (list JsValue) :=
  match v with
  | JsArray items => Some items
  | _ => None
  end.

(** ToString, as [Array.prototype.join] and string concatenation apply it.
    A number is printed with its decimal digits, as JavaScript prints an
    integer below 10^21. *)
Fixpoint toString (v : JsValue) : string :=
  match v with
  | JsUndefined => "undefined"
  | JsNull => "null"
  | JsBool true => "true"
  | JsBool false => "false"
  | JsNumber n => Text.ofZ n
  | JsString s => s
  | JsArray items =>
      Text.join ","
        (map (fun x => if isNullish x then "" else toString x) items)
  | JsObject _ => "[object Object]"
  end.

(** Sequencing of computations that may throw. *)
Definition andThen {A B} (c : Completion A) (k : A -> Completion B) : Completion B :=
  match c with
  | Normal a => k a
  | Throw e => Throw e
  end.

Notation "'let?' x ':=' c 'in' k" := (andThen c (fun x => k))
  (at level 10, x name, c at level 100, k at level 200).

(** [items.filter(p)] and [items.map(f)] with callbacks that may throw. *)
Fixpoint filterC (p : JsValue -> Completion bool) (items : list JsValue)
  : Completion (list JsValue) :=
  match items with
  | [] => Normal []
  | x :: rest =>
      let? keep := p x in
      let? kept := filterC p rest in
      Normal (if keep then x :: kept else kept)
  end.

Fixpoint mapC (f : JsValue -> Completion JsValue) (items : list JsValue)
  : Completion (list JsValue) :=
  match items with
  | [] => Normal []
  | x :: rest =>
      let? y := f x in
      let? ys := mapC f rest in
      Normal (y :: ys)
  end.

(** [items.join(sep)]. *)
Definition arrayJoin (sep : string) (items : list JsValue) : string :=
  Text.join sep (map (fun x => if isNullish x then "" else toString x) items).

End Js.

Import Js.

(* ================================================================== *)
(** * [src/sdk/MessageTransformer.ts] *)
(* ================================================================== *)

Module MessageTransformer.

(** [TransformEvent = StreamChunk | SessionInitEvent]: the object literals the
    generator yields, one constructor per [type] tag, with exactly the
    properties each literal has. *)
Inductive TransformEvent : Type :=
| SessionInit (sessionId : JsValue)
| ThinkingChunk (content parentToolUseId : JsValue)
| TextChunk (content parentToolUseId : JsValue)
| ToolUseChunk (id name input parentToolUseId : JsValue)
| BlockedChunk (content : JsValue)
| ToolResultChunk (id content isError parentToolUseId : JsValue)
| ErrorChunk (content : JsValue).

(** Type guard to check if an event is a session init event. *)
Definition isSessionInitEvent (event : TransformEvent) : bool :=
  match event with
  | SessionInit _ => true
  | _ => false
  end.


(** [event.parentToolUseId]: [undefined] on a literal without the property. *)
Definition parentToolUseIdOf (event : TransformEvent) : JsValue :=
  match event with
  | ThinkingChunk _ p | TextChunk _ p | ToolUseChunk _ _ _ p | ToolResultChunk _ _ _ p => p
  | SessionInit _ | BlockedChunk _ | ErrorChunk _ => JsUndefined
  end.

(** The clock and the random source: the value of the [n]-th call of the run
    to [Date.now()], or to [Math.random().toString(36)]. *)
Record World := {
  Date_now : nat -> Z;
  Math_random_toString36 : nat -> string
}.

(** A running generator: the events yielded so far, in order, and the number
    of calls made to the clock or the random source. *)
Record GenState := {
  yielded : list TransformEvent;
  draws : nat
}.

(** A generator body: it may yield, read the world and throw.  What was
    yielded before a throw stays yielded. *)
Definition Gen (A : Type) : Type := GenState -> Completion A * GenState.

Definition ret {A} (a : A) : Gen A := fun s => (Normal a, s).

Definition bind {A B} (m : Gen A) (k : A -> Gen B) : Gen B :=
  fun s =>
    match m s with
    | (Normal a, s') => k a s'
    | (Throw e, s') => (Throw e, s')
    end.

Notation "'let!' x ':=' m 'in' k" := (bind m (fun x => k))
  (at level 10, x name, m at level 100, k at level 200).
Notation "m ';;' k" := (bind m (fun _ => k))
  (at level 100, k at level 200, right associativity).

Definition yield (e : TransformEvent) : Gen unit :=
  fun s => (Normal tt, {| yielded := (yielded s ++ [e])%list; draws := draws s |}).

(** [v.k] inside a generator. *)
Definition read (v : JsValue) (k : string) : Gen JsValue :=
  fun s => (get v k, s).

Definition propIs (v : JsValue) (k s : string) : Gen bool :=
  let! x := read v k in ret (strictEqStr x s).

Definition propTruthy (v : JsValue) (k : string) : Gen bool :=
  let! x := read v k in ret (truthy x).

(** [a && b] and [if (c) a else b] over conditions that read properties. *)
Definition andM (a b : Gen bool) : Gen bool :=
  let! x := a in if x then b else ret false.

Definition ifM {A} (c : Gen bool) (a b : Gen A) : Gen A :=
  let! x := c in if x then a else b.

(** [for (const x of items) body(x)]. *)
Fixpoint forOf (body : JsValue -> Gen unit) (items : list JsValue) : Gen unit :=
  match items with
  | [] => ret tt
  | x :: rest => body x ;; forOf body rest
  end.

Section Transformer.

(** [JSON.stringify(v, null, 2)]. *)
Variable JSON_stringify : JsValue -> JsValue.
Variable world : World.

Definition dateNow : Gen Z :=
  fun s => (Normal (Date_now world (draws s)),
            {| yielded := yielded s; draws := S (draws s) |}).

Definition mathRandomToString36 : Gen string :=
  fun s => (Normal (Math_random_toString36 world (draws s)),
            {| yielded := yielded s; draws := S (draws s) |}).

(** [`tool-${Date.now()}-${Math.random().toString(36).substring(2, 11)}`]. *)
Definition syntheticBlockId : Gen JsValue :=
  let! now := dateNow in
  let! rnd := mathRandomToString36 in
  ret (JsString ("tool-" ++ Text.ofZ now ++ "-" ++ substring 2 9 rnd)).

(** [`tool-${Date.now()}`]. *)
Definition syntheticStreamId : Gen JsValue :=
  let! now := dateNow in
  ret (JsString ("tool-" ++ Text.ofZ now)).

(** [typeof v === 'string' ? v : JSON.stringify(v, null, 2)]. *)
Definition resultContent (v : JsValue) : JsValue :=
  if isString v then v else JSON_stringify v.

(** The elements of [message.message.content] when
    [message.message?.content && Array.isArray(message.message.content)]. *)
Definition contentBlocks (message : JsValue) : Gen (list JsValue) :=
  let! inner := read message "message" in
  let content := getOpt inner "content" in
  ret (if truthy content
       then match arrayItems content with Some items => items | None => [] end
       else []).

(** One block of an assistant message. *)
Definition assistantBlock (parentToolUseId block : JsValue) : Gen unit :=
  ifM (andM (propIs block "type" "thinking") (propTruthy block "thinking"))
    (let! thinking := read block "thinking" in
     yield (ThinkingChunk thinking parentToolUseId))
  (ifM (andM (propIs block "type" "text") (propTruthy block "text"))
    (let! text := read block "text" in
     yield (TextChunk text parentToolUseId))
  (ifM (propIs block "type" "tool_use")
    (let! id := read block "id" in
     let! id := (if truthy id then ret id else syntheticBlockId) in
     let! name := read block "name" in
     let! input := read block "input" in
     yield (ToolUseChunk id (jsOr name (JsString "unknown")) (jsOr input (JsObject []))
              parentToolUseId))
    (ret tt))).

(** One block of a user message. *)
Definition userBlock (message parentToolUseId block : JsValue) : Gen unit :=
  ifM (propIs block "type" "tool_result")
    (let! toolUseId := read block "tool_use_id" in
     let! messageParent := read message "parent_tool_use_id" in
     let! content := read block "content" in
     let! isError := read block "is_error" in
     yield (ToolResultChunk (jsOr (jsOr toolUseId messageParent) (JsString ""))
              (resultContent content) (jsOr isError (JsBool false)) parentToolUseId))
    (ret tt).

Definition userMessage (message parentToolUseId : JsValue) : Gen unit :=
  ifM (andM (propTruthy message "_blocked") (propTruthy message "_blockReason"))
    (let! reason := read message "_blockReason" in
     yield (BlockedChunk reason))
    (ifM (andM (let! r := read message "tool_use_result" in ret (isDefined r))
               (propTruthy message "parent_tool_use_id"))
       (let! id := read message "parent_tool_use_id" in
        let! result := read message "tool_use_result" in
        yield (ToolResultChunk id (resultContent result) (JsBool false) parentToolUseId))
       (ret tt) ;;
     let! blocks := contentBlocks message in
     forOf (userBlock message parentToolUseId) blocks).

Definition streamEvent (message parentToolUseId : JsValue) : Gen unit :=
  let! event := read message "event" in
  let starts := strictEqStr (getOpt event "type") "content_block_start" in
  let blockIs (kind : string) : Gen bool :=
    andM (ret starts)
         (let! cb := read event "content_block" in ret (strictEqStr (getOpt cb "type") kind)) in
  ifM (blockIs "tool_use")
    (let! cb := read event "content_block" in
     let! id := read cb "id" in
     let! id := (if truthy id then ret id else syntheticStreamId) in
     let! name := read cb "name" in
     let! input := read cb "input" in
     yield (ToolUseChunk id (jsOr name (JsString "unknown")) (jsOr input (JsObject []))
              parentToolUseId))
  (ifM (blockIs "thinking")
    (let! cb := read event "content_block" in
     let! thinking := read cb "thinking" in
     if truthy thinking then yield (ThinkingChunk thinking parentToolUseId) else ret tt)
  (ifM (blockIs "text")
    (let! cb := read event "content_block" in
     let! text := read cb "text" in
     if truthy text then yield (TextChunk text parentToolUseId) else ret tt)
  (if strictEqStr (getOpt event "type") "content_block_delta" then
     let! delta := read event "delta" in
     ifM (andM (ret (strictEqStr (getOpt delta "type") "thinking_delta"))
               (propTruthy delta "thinking"))
       (let! thinking := read delta "thinking" in
        yield (ThinkingChunk thinking parentToolUseId))
     (ifM (andM (ret (strictEqStr (getOpt delta "type") "text_delta"))
                (propTruthy delta "text"))
       (let! text := read delta "text" in
        yield (TextChunk text parentToolUseId))
       (ret tt))
   else ret tt))).

(** Transform SDK message to StreamChunk format. *)
Definition transformSDKMessage (message : JsValue) : Gen unit :=
  let! parent := read message "parent_tool_use_id" in
  let parentToolUseId := nullishCoalesce parent JsNull in
  let! type := read message "type" in
  if strictEqStr type "system" then
    ifM (andM (propIs message "subtype" "init") (propTruthy message "session_id"))
      (let! sessionId := read message "session_id" in yield (SessionInit sessionId))
      (ret tt)
  else if strictEqStr type "assistant" then
    let! blocks := contentBlocks message in
    forOf (assistantBlock parentToolUseId) blocks
  else if strictEqStr type "user" then userMessage message parentToolUseId
  else if strictEqStr type "stream_event" then streamEvent message parentToolUseId
  else if strictEqStr type "result" then ret tt
  else if strictEqStr type "error" then
    ifM (propTruthy message "error")
      (let! error := read message "error" in yield (ErrorChunk error))
      (ret tt)
  else ret tt.

End Transformer.

(** A whole run of the generator, from its first [next()] to its end: the
    events it yielded and how it completed. *)
Definition run (JSON_stringify : JsValue -> JsValue) (world : World) (message : JsValue)
  : list TransformEvent * Completion unit :=
  let '(c, s) := transformSDKMessage JSON_stringify world message
                   {| yielded := []; draws := 0 |} in
  (yielded s, c).

End MessageTransformer.

(* ================================================================== *)
(** * The SDK's hook results *)
(* ================================================================== *)

Module Hook.

Record HookSpecificOutput := {
  hookEventName : string;
  permissionDecision : string;
  permissionDecisionReason : string
}.

(** What a [PreToolUse] hook callback resolves to. *)
Record HookResult := {
  continue : bool;
  hookSpecificOutput : option HookSpecificOutput
}.

(** [{ continue: true }]. *)
Definition allow : HookResult :=
  {| continue := true; hookSpecificOutput := None |}.

(** [{ continue: false, hookSpecificOutput: { hookEventName: 'PreToolUse',
      permissionDecision: 'deny', permissionDecisionReason: reason } }]. *)
Definition deny (reason : string) : HookResult :=
  {| continue := false;
     hookSpecificOutput :=
       Some {| hookEventName := "PreToolUse";
               permissionDecision := "deny";
               permissionDecisionReason := reason |} |}.

End Hook.

Import Hook.

(* ================================================================== *)
(** * [src/hooks/SecurityHooks.ts] *)
(* ================================================================== *)

Module SecurityHooks.

(** Context for vault restriction checking.  [onEditBlocked] updates the
    caller's edit-tracking state, of type [St]. *)
Record VaultRestrictionContext (St : Type) := {
  isPathWithinVault : string -> bool;
  isAllowedExportPath : string -> bool;
  onEditBlocked : option (string -> JsValue -> St -> St)
}.

Arguments isPathWithinVault {St} _ _.
Arguments isAllowedExportPath {St} _ _.
Arguments onEditBlocked {St} _.

(** [PathCheckContext] and [PathViolation] of [security/BashPathValidator]. *)
Record PathCheckContext := {
  pathIsWithinVault : string -> bool;
  pathIsAllowedExport : string -> bool
}.

Inductive ViolationType : Type := outside_vault | export_path_read.

Record PathViolation := {
  type : ViolationType;
  path : string
}.

(** How a command uses a path. *)
Inductive Intent : Type := ReadIntent | WriteIntent.

(** Modelled from the spec: the decision of [CommandPathScanner.scan] on one
    candidate path ([security/BashPathValidator] is not among the sources).
    Under an ExportPath a write is allowed and a read is an
    export-path-read violation; any other path outside Root is an
    outside-root violation. *)
Definition checkCandidate (context : PathCheckContext) (candidate : string * Intent)
  : option PathViolation :=
  let '(p, intent) := candidate in
  if pathIsAllowedExport context p then
    match intent with
    | WriteIntent => None
    | ReadIntent => Some {| type := export_path_read; path := p |}
    end
  else if negb (pathIsWithinVault context p) then
    Some {| type := outside_vault; path := p |}
  else None.

(** Modelled from the spec: the scan itself; the first violation found
    short-circuits it. *)
Fixpoint firstViolation (context : PathCheckContext) (candidates : list (string * Intent))
  : option PathViolation :=
  match candidates with
  | [] => None
  | c :: rest =>
      match checkCandidate context c with
      | Some v => Some v
      | None => firstViolation context rest
      end
  end.

Section Hooks.

(** The imports of [tools/toolNames] and [tools/toolInput], which are not
    among the sources. *)
Variable TOOL_BASH : string.
Variables isEditTool isFileTool : string -> bool.
Variable getPathFromToolInput : string -> JsValue -> option string.

(** Modelled from the spec: the tokens of a shell command that are candidate
    paths, each with its intent.  The spec fixes no grammar for them, so the
    tokenizer is a parameter. *)
Variable candidatePaths : JsValue -> list (string * Intent).

(** Modelled from the spec: [findBashCommandPathViolation] of
    [security/BashPathValidator], as [CommandPathScanner.scan]. *)
Definition findBashCommandPathViolation (command : JsValue) (context : PathCheckContext)
  : option PathViolation :=
  firstViolation context (candidatePaths command).

Variable St : Type.

(** Create a PreToolUse hook to restrict file access to the vault: the hook
    callback on [{ tool_name, tool_input }]. *)
Definition createVaultRestrictionHook (context : VaultRestrictionContext St)
    (toolName : string) (tool_input : JsValue) (st : St) : HookResult * St :=
  if toolName =? TOOL_BASH then
    let command := jsOr (getOpt tool_input "command") (JsString "") in
    let pathCheckContext :=
      {| pathIsWithinVault := fun p => isPathWithinVault context p;
         pathIsAllowedExport := fun p => isAllowedExportPath context p |} in
    match findBashCommandPathViolation command pathCheckContext with
    | Some violation =>
        let reason :=
          match type violation with
          | export_path_read =>
              "Access denied: Command path " ++ Text.dquote ++ path violation ++ Text.dquote
              ++ " is in an allowed export directory, but export paths are write-only."
          | outside_vault =>
              "Access denied: Command path " ++ Text.dquote ++ path violation ++ Text.dquote
              ++ " is outside the vault. Agent is restricted to vault directory only."
          end in
        (deny reason, st)
    | None => (allow, st)
    end
  else if negb (isFileTool toolName) then (allow, st)
  else
    match getPathFromToolInput toolName tool_input with
    | Some filePath =>
        if negb (filePath =? "") && negb (isPathWithinVault context filePath) then
          if isEditTool toolName && isAllowedExportPath context filePath then (allow, st)
          else
            let st' :=
              if isEditTool toolName then
                match onEditBlocked context with
                | Some callback => callback toolName tool_input st
                | None => st
                end
              else st in
            (deny ("Access denied: Path " ++ Text.dquote ++ filePath ++ Text.dquote
                   ++ " is outside the vault. Agent is restricted to vault directory only."),
             st')
        else (allow, st)
    | None => (allow, st)
    end.

End Hooks.

End SecurityHooks.

(* ================================================================== *)
(** * [src/InstructionRefineService.ts] *)
(* ================================================================== *)

Module InstructionRefineService.

(** [InstructionRefineResult] of [types]: [success] and the optional
    [refinedInstruction], [clarification] and [error]. *)
Record InstructionRefineResult := {
  success : bool;
  refinedInstruction : option string;
  clarification : option string;
  error : option string
}.

Definition refined (text : string) : InstructionRefineResult :=
  {| success := true; refinedInstruction := Some text; clarification := None; error := None |}.

Definition clarify (text : string) : InstructionRefineResult :=
  {| success := true; refinedInstruction := None; clarification := Some text; error := None |}.

Definition failure (reason : string) : InstructionRefineResult :=
  {| success := false; refinedInstruction := None; clarification := None; error := Some reason |}.

(** ** The regular expression of [parseResponse] *)

(** What the lazy [[\s\S]*?] takes before the first [close] of [s]; [None]
    when [close] does not occur. *)
Fixpoint lazyUntil (close s : string) {struct s} : option string :=
  if Text.startsWith s close then Some ""
  else
    match s with
    | "" => None
    | String c rest => option_map (String c) (lazyUntil close rest)
    end.

(** Capture group 1 of [s.match(/open([\s\S]*?)close/)] for literal [open]
    and [close]: the match attempts start at each position in turn, from the
    left. *)
Fixpoint matchTagged (open close s : string) {struct s} : option string :=
  match
    (if Text.startsWith s open then lazyUntil close (Text.slice (String.length open) s)
     else None)
  with
  | Some capture => Some capture
  | None =>
      match s with
      | "" => None
      | String _ rest => matchTagged open close rest
      end
  end.

(** Parses response text for <instruction> tag. *)
Definition parseResponse (responseText : string) : InstructionRefineResult :=
  match matchTagged "<instruction>" "</instruction>" responseText with
  | Some inner => refined (Text.trim inner)
  | None =>
      (* No instruction tag - treat as clarification question *)
      let trimmed := Text.trim responseText in
      if negb (trimmed =? "") then clarify trimmed
      else failure "Empty response"
  end.

(** Extracts text content from SDK message. *)
Definition extractTextFromMessage (message : JsValue) : Completion string :=
  let? type := get message "type" in
  let? inner := (if strictEqStr type "assistant" then get message "message"
                 else Normal JsUndefined) in
  if negb (strictEqStr type "assistant") || negb (truthy (getOpt inner "content")) then
    Normal ""
  else
    match getOpt inner "content" with
    | JsArray content =>
        let? kept :=
          filterC (fun block =>
                     let? t := get block "type" in
                     if strictEqStr t "text"
                     then (let? text := get block "text" in Normal (truthy text))
                     else Normal false) content in
        let? texts := mapC (fun block => get block "text") kept in
        Normal (arrayJoin "" texts)
    | _ => Throw (ErrorObject "TypeError" "message.message.content.filter is not a function")
    end.

(** ** The service and what it talks to *)

(** [Options] of the agent SDK, as [sendMessage] fills them.  An
    [AbortController] is held by its address among the machine's
    controllers. *)
Record Options := {
  optCwd : string;
  systemPrompt : string;
  model : string;
  optAbortController : nat;
  pathToClaudeCodeExecutable : string;
  env : list (string * string);
  allowedTools : list string;
  permissionMode : string;
  allowDangerouslySkipPermissions : bool;
  hooksPreToolUse : list (string -> JsValue -> Completion HookResult);
  resume : option JsValue;
  maxThinkingTokens : option Z
}.

(** What happens while [sendMessage] awaits the stream: the runtime delivers
    a message, or the caller calls [cancel()]. *)
Inductive StreamStep : Type :=
| Deliver (message : JsValue)
| CallerCancels.

(** The stream [agentQuery] answers with: its steps, then its end, normal or
    by a throw (a query that throws at once has no step). *)
Record Response := {
  steps : list StreamStep;
  ending : option Thrown
}.

(** The plugin as the service reads it. *)
Record Plugin := {
  adapterBasePath : option string;
  settingsModel : string;
  settingsThinkingBudget : string;
  activeEnvironmentVariables : string
}.

(** The fields of the service object. *)
Record Service := {
  abortController : option nat;
  resolvedClaudePath : option string;
  sessionId : JsValue;
  existingInstructions : string
}.

(** The service together with what its methods act on: the
    [AbortController] objects ever created ([signal.aborted] of each, by
    address), the calls made to [agentQuery], the calls of
    [response.interrupt()] and the updates passed to [onProgress]. *)
Record Machine := {
  this : Service;
  controllers : list bool;
  queries : list (string * Options);
  interrupts : nat;
  progress : list InstructionRefineResult
}.

(** [new InstructionRefineService(plugin)]. *)
Definition newService : Machine :=
  {| this := {| abortController := None; resolvedClaudePath := None;
                sessionId := JsNull; existingInstructions := "" |};
     controllers := []; queries := []; interrupts := 0; progress := [] |}.

Definition withThis (m : Machine) (s : Service) : Machine :=
  {| this := s; controllers := controllers m; queries := queries m;
     interrupts := interrupts m; progress := progress m |}.

Definition setAbortController (m : Machine) (c : option nat) : Machine :=
  withThis m {| abortController := c;
                resolvedClaudePath := resolvedClaudePath (this m);
                sessionId := sessionId (this m);
                existingInstructions := existingInstructions (this m) |}.

Definition setResolvedClaudePath (m : Machine) (p : option string) : Machine :=
  withThis m {| abortController := abortController (this m);
                resolvedClaudePath := p;
                sessionId := sessionId (this m);
                existingInstructions := existingInstructions (this m) |}.

Definition setSessionId (m : Machine) (id : JsValue) : Machine :=
  withThis m {| abortController := abortController (this m);
                resolvedClaudePath := resolvedClaudePath (this m);
                sessionId := id;
                existingInstructions := existingInstructions (this m) |}.

Definition setExistingInstructions (m : Machine) (text : string) : Machine :=
  withThis m {| abortController := abortController (this m);
                resolvedClaudePath := resolvedClaudePath (this m);
                sessionId := sessionId (this m);
                existingInstructions := text |}.

(** [signal.aborted = true] on the controller at [address]. *)
Fixpoint markAborted (address : nat) (cs : list bool) : list bool :=
  match address, cs with
  | _, [] => []
  | O, _ :: rest => true :: rest
  | S a, c :: rest => c :: markAborted a rest
  end.

(** [ref.abort()]: a method call on [null] throws. *)
Definition abort (ref : option nat) (m : Machine) : Completion Machine :=
  match ref with
  | None => Throw (typeErrorReading "null" "abort")
  | Some address =>
      Normal {| this := this m; controllers := markAborted address (controllers m);
                queries := queries m; interrupts := interrupts m; progress := progress m |}
  end.

(** [ref?.signal.aborted]. *)
Definition signalAborted (ref : option nat) (m : Machine) : bool :=
  match ref with
  | None => false
  | Some address => nth address (controllers m) false
  end.

(** Resets conversation state for a new refinement session. *)
Definition resetConversation (m : Machine) : Machine := setSessionId m JsNull.

(** Cancels any ongoing query. *)
Definition cancel (m : Machine) : Completion Machine :=
  match abortController (this m) with
  | Some _ =>
      let? m := abort (abortController (this m)) m in
      Normal (setAbortController m None)
  | None => Normal m
  end.

(** A [string | null] that is neither [null] nor empty. *)
Definition truthyText (o : option string) : bool :=
  match o with
  | Some s => negb (s =? "")
  | None => false
  end.

(** How the [for await] loop of [sendMessage] is left. *)
Inductive LoopExit : Type :=
| Returned (result : InstructionRefineResult)
| Finished (responseText : string)
| Raised (e : Thrown).

Section Service.

Variable host : Utils.Host.
Variable plugin : Plugin.

(** The imports that are not among the sources: the tool names and the
    thinking budgets ([value] and [tokens] of each), the text of the system
    prompt, and the environment ([process.env] and the parser of the custom
    variables). *)
Variables TOOL_READ TOOL_GREP TOOL_GLOB : string.
Variable THINKING_BUDGETS : list (string * Z).
Variable buildRefineSystemPrompt : string -> string.
Variable process_env : list (string * string).
Variable parseEnvironmentVariables : string -> list (string * string).

(** The agent runtime: [query({ prompt, options })]. *)
Variable agentQuery : string -> Options -> Response.

Definition READ_ONLY_TOOLS : list string := [TOOL_READ; TOOL_GREP; TOOL_GLOB].

Definition findClaudeCLI : option string := Utils.findClaudeCLIPath host.

(** Creates PreToolUse hook to enforce read-only mode. *)
Definition createReadOnlyHook (toolName : string) (tool_input : JsValue)
  : Completion HookResult :=
  if existsb (String.eqb toolName) READ_ONLY_TOOLS then Normal allow
  else Normal (deny ("Instruction refine mode: tool " ++ Text.dquote ++ toolName
                     ++ Text.dquote ++ " is not allowed (read-only)")).

(** The [filePath] of the vault restriction hook: the path argument of a
    file path tool, or [''].*)
Definition filePathOf (toolName : string) (toolInput : JsValue) : Completion JsValue :=
  if toolName =? "Read" then
    let? file_path := get toolInput "file_path" in
    Normal (jsOr file_path (JsString ""))
  else
    let? path := get toolInput "path" in
    let? pattern := (if truthy path then Normal JsUndefined else get toolInput "pattern") in
    Normal (jsOr (jsOr path pattern) (JsString "")).

(** [isPathWithinVaultUtil(filePath, vaultPath)] on an argument of any
    type: [candidatePath.startsWith] exists on strings only. *)
Definition isPathWithinVaultUtil (filePath : JsValue) (vaultPath : string)
  : Completion bool :=
  match filePath with
  | JsString p => Normal (Utils.isPathWithinVault host p vaultPath)
  | _ => Throw (ErrorObject "TypeError" "candidatePath.startsWith is not a function")
  end.

(** Creates PreToolUse hook to restrict file access to vault. *)
Definition createVaultRestrictionHook (vaultPath : string)
    (toolName : string) (toolInput : JsValue) : Completion HookResult :=
  (* Check file path tools *)
  if (toolName =? "Read") || (toolName =? "Glob") || (toolName =? "Grep") then
    let? filePath := filePathOf toolName toolInput in
    let? outside :=
      (if truthy filePath
       then (let? within := isPathWithinVaultUtil filePath vaultPath in Normal (negb within))
       else Normal false) in
    if outside then
      Normal (deny ("Access denied: " ++ Text.dquote ++ toString filePath ++ Text.dquote
                    ++ " is outside the vault"))
    else Normal allow
  else Normal allow.

(** One delivered message inside the [try] block: the session id is kept,
    the text is appended and reported. *)
Definition onMessage (onProgress : bool) (message : JsValue) (responseText : string)
    (m : Machine) : Machine * Completion string :=
  match
    (let? type := get message "type" in
     let? subtype := get message "subtype" in
     let? session_id := get message "session_id" in
     Normal (if strictEqStr type "system" && strictEqStr subtype "init" && truthy session_id
             then Some session_id else None))
  with
  | Throw e => (m, Throw e)
  | Normal init =>
      let m := match init with Some id => setSessionId m id | None => m end in
      match extractTextFromMessage message with
      | Throw e => (m, Throw e)
      | Normal text =>
          if negb (text =? "") then
            let responseText := responseText ++ text in
            (* Stream progress updates *)
            let m :=
              if onProgress then
                {| this := this m; controllers := controllers m; queries := queries m;
                   interrupts := interrupts m;
                   progress := (progress m ++ [parseResponse responseText])%list |}
              else m in
            (m, Normal responseText)
          else (m, Normal responseText)
      end
  end.

(** [for await (const message of response) { ... }]. *)
Fixpoint forAwait (onProgress : bool) (todo : list StreamStep) (ending : option Thrown)
    (responseText : string) (m : Machine) : Machine * LoopExit :=
  match todo with
  | [] =>
      match ending with
      | None => (m, Finished responseText)
      | Some e => (m, Raised e)
      end
  | CallerCancels :: rest =>
      let m := match cancel m with Normal m' => m' | Throw _ => m end in
      forAwait onProgress rest ending responseText m
  | Deliver message :: rest =>
      if signalAborted (abortController (this m)) m then
        ({| this := this m; controllers := controllers m; queries := queries m;
            interrupts := S (interrupts m); progress := progress m |},
         Returned (failure "Cancelled"))
      else
        match onMessage onProgress message responseText m with
        | (m, Throw e) => (m, Raised e)
        | (m, Normal responseText) => forAwait onProgress rest ending responseText m
        end
  end.

Definition sendMessage (prompt : string) (onProgress : bool) (m : Machine)
  : Machine * InstructionRefineResult :=
  let vaultPath := Utils.getVaultPath (adapterBasePath plugin) in
  match vaultPath with
  | Some vaultPath =>
    if vaultPath =? "" then (m, failure "Could not determine vault path") else
    let m := if truthyText (resolvedClaudePath (this m)) then m
             else setResolvedClaudePath m findClaudeCLI in
    match resolvedClaudePath (this m) with
    | Some claudePath =>
      if claudePath =? ""
      then (m, failure "Claude CLI not found. Please install Claude Code CLI.") else
      let controller := List.length (controllers m) in
      let m := {| this := this (setAbortController m (Some controller));
                  controllers := (controllers m ++ [false])%list;
                  queries := queries m; interrupts := interrupts m;
                  progress := progress m |} in
      (* Parse custom environment variables *)
      let customEnv := parseEnvironmentVariables (activeEnvironmentVariables plugin) in
      let budgetConfig :=
        find (fun b => fst b =? settingsThinkingBudget plugin) THINKING_BUDGETS in
      let options :=
        {| optCwd := vaultPath;
           systemPrompt := buildRefineSystemPrompt (existingInstructions (this m));
           model := settingsModel plugin;
           optAbortController := controller;
           pathToClaudeCodeExecutable := claudePath;
           env := (customEnv ++ process_env)%list;
           allowedTools := READ_ONLY_TOOLS;
           permissionMode := "bypassPermissions";
           allowDangerouslySkipPermissions := true;
           hooksPreToolUse := [createReadOnlyHook; createVaultRestrictionHook vaultPath];
           resume := if truthy (sessionId (this m)) then Some (sessionId (this m)) else None;
           maxThinkingTokens :=
             match budgetConfig with
             | Some b => if (0 <? snd b)%Z then Some (snd b) else None
             | None => None
             end |} in
      let response := agentQuery prompt options in
      let m := {| this := this m; controllers := controllers m;
                  queries := (queries m ++ [(prompt, options)])%list;
                  interrupts := interrupts m; progress := progress m |} in
      let '(m, exit) := forAwait onProgress (steps response) (ending response) "" m in
      let result :=
        match exit with
        | Returned r => r
        | Finished responseText => parseResponse responseText
        | Raised (ErrorObject _ message) => failure message
        | Raised (NonError _) => failure "Unknown error"
        end in
      (setAbortController m None, result)
    | None => (m, failure "Claude CLI not found. Please install Claude Code CLI.")
    end
  | None => (m, failure "Could not determine vault path")
  end.

(** Refines a raw instruction from user input. *)
Definition refineInstruction (rawInstruction existingInstructions : string)
    (onProgress : bool) (m : Machine) : Machine * InstructionRefineResult :=
  let m := setSessionId m JsNull in
  let m := setExistingInstructions m existingInstructions in
  let prompt := "Please refine this instruction: " ++ Text.dquote ++ rawInstruction
                ++ Text.dquote in
  sendMessage prompt onProgress m.

(** Continues conversation with a follow-up message (for clarifications). *)
Definition continueConversation (message : string) (onProgress : bool) (m : Machine)
  : Machine * InstructionRefineResult :=
  if negb (truthy (sessionId (this m))) then
    (m, failure "No active conversation to continue")
  else sendMessage message onProgress m.

End Service.

End InstructionRefineService.

(* ================================================================== *)
(** * [src/utils.ts]: the environment variables *)
(* ================================================================== *)

Module Environment.

(** The line feed. *)
Definition lineFeed : ascii := "010"%char.

(** [s.indexOf(c)] for a one-character [c]: [None] stands for [-1]. *)
Fixpoint indexOf (c : ascii) (s : string) : option nat :=
  match s with
  | "" => None
  | String d rest => if Ascii.eqb d c then Some 0 else option_map S (indexOf c rest)
  end.

(** A [Record<string, string>] built from [{}]: its own properties.  The
    place of a key in the list is the place of its first assignment. *)
Definition Env : Type := list (string * string).

(** The own property [k], if there is one. *)
Fixpoint own (k : string) (r : Env) : option string :=
  match r with
  | [] => None
  | (k', v) :: rest => if k' =? k then Some v else own k rest
  end.

Fixpoint assign (k v : string) (r : Env) : Env :=
  match r with
  | [] => [(k, v)]
  | (k', v') :: rest => if k' =? k then (k, v) :: rest else (k', v') :: assign k v rest
  end.

(** [r[k] = v] for a string [v]: on the key [__proto__] the assignment goes
    to the setter of [Object.prototype], which ignores a string. *)
Definition setProperty (k v : string) (r : Env) : Env :=
  if k =? "__proto__" then r else assign k v r.

(** [r[k]] read as a condition, for a key that [Object.prototype] does not
    have: the value when it is there and not empty. *)
Definition truthyProperty (k : string) (r : Env) : option string :=
  match own k r with
  | Some v => if v =? "" then None else Some v
  | None => None
  end.

(** The body of the loop of [parseEnvironmentVariables]. *)
Definition parseLine (result : Env) (line : string) : Env :=
  let trimmed := Text.trim line in
  if (trimmed =? "") || Text.startsWith trimmed "#" then result
  else
    match indexOf "="%char trimmed with
    | Some eqIndex =>
        if (0 <? eqIndex)%nat then
          let key := Text.trim (substring 0 eqIndex trimmed) in
          let value := Text.trim (Text.slice (S eqIndex) trimmed) in
          if negb (key =? "") then setProperty key value result else result
        else result
    | None => result
    end.

(** Parses KEY=VALUE environment variables from text. Supports comments (#)
    and empty lines. *)
Definition parseEnvironmentVariables (input : string) : Env :=
  fold_left parseLine (Text.split lineFeed input) [].

(** Returns the highest-priority custom model from environment variables, or
    null. *)
Definition getCurrentModelFromEnvironment (envVars : Env) : option string :=
  match truthyProperty "ANTHROPIC_MODEL" envVars with
  | Some v => Some v
  | None =>
  match truthyProperty "ANTHROPIC_DEFAULT_OPUS_MODEL" envVars with
  | Some v => Some v
  | None =>
  match truthyProperty "ANTHROPIC_DEFAULT_SONNET_MODEL" envVars with
  | Some v => Some v
  | None => truthyProperty "ANTHROPIC_DEFAULT_HAIKU_MODEL" envVars
  end end end.

(** ** [getModelsFromEnvironment] *)

(** An entry of [modelMap] and an element of the result. *)
Record ModelInfo := {
  types : list string;
  label : string
}.

Record ModelOption := {
  value : string;
  optionLabel : string;
  description : string
}.

Definition modelEnvEntries : list (string * string) :=
  [ ("model", "ANTHROPIC_MODEL");
    ("opus", "ANTHROPIC_DEFAULT_OPUS_MODEL");
    ("sonnet", "ANTHROPIC_DEFAULT_SONNET_MODEL");
    ("haiku", "ANTHROPIC_DEFAULT_HAIKU_MODEL") ].

(** [typePriority[t] || 0]. *)
Definition typePriority (t : string) : Z :=
  if t =? "model" then 4
  else if t =? "opus" then 3
  else if t =? "sonnet" then 2
  else if t =? "haiku" then 1
  else 0.

(** [\w] of a regular expression without the unicode flag. *)
Definition isWordChar (c : ascii) : bool :=
  let n := nat_of_ascii c in
  ((48 <=? n)%nat && (n <=? 57)%nat)
  || ((65 <=? n)%nat && (n <=? 90)%nat)
  || (n =? 95)%nat
  || ((97 <=? n)%nat && (n <=? 122)%nat).

(** [l.toUpperCase()] on a word character. *)
Definition toUpperCase (c : ascii) : ascii :=
  let n := nat_of_ascii c in
  if ((97 <=? n)%nat && (n <=? 122)%nat) then ascii_of_nat (n - 32) else c.

(** [s.replace(/-/g, ' ')]. *)
Fixpoint replaceDashes (s : string) : string :=
  match s with
  | "" => ""
  | String c rest => String (if Ascii.eqb c "-" then " "%char else c) (replaceDashes rest)
  end.

(** [s.replace(/\b\w/g, l => l.toUpperCase())]: [afterWord] tells whether
    the character before is a word character. *)
Fixpoint capitalizeWords (afterWord : bool) (s : string) : string :=
  match s with
  | "" => ""
  | String c rest =>
      String (if isWordChar c && negb afterWord then toUpperCase c else c)
             (capitalizeWords (isWordChar c) rest)
  end.

(** [s.includes('/')]. *)
Fixpoint includesSlash (s : string) : bool :=
  match s with
  | "" => false
  | String c rest => Ascii.eqb c "/" || includesSlash rest
  end.

(** The label of a model value. *)
Definition labelOf (modelValue : string) : string :=
  if includesSlash modelValue then
    let popped := last (Text.split "/"%char modelValue) "" in
    if popped =? "" then modelValue else popped
  else capitalizeWords false (replaceDashes modelValue).

(** [modelMap.has(k)], and [modelMap.get(k).types.push(t)]. *)
Definition mapHas (k : string) (m : list (string * ModelInfo)) : bool :=
  existsb (fun e => fst e =? k) m.

Fixpoint pushType (k t : string) (m : list (string * ModelInfo)) : list (string * ModelInfo) :=
  match m with
  | [] => []
  | (k', info) :: rest =>
      if k' =? k
      then (k', {| types := (types info ++ [t])%list; label := label info |}) :: rest
      else (k', info) :: pushType k t rest
  end.

(** The body of the first loop: one environment entry. *)
Definition addEntry (envVars : Env) (modelMap : list (string * ModelInfo))
    (entry : string * string) : list (string * ModelInfo) :=
  let '(type, envKey) := entry in
  match truthyProperty envKey envVars with
  | Some modelValue =>
      if negb (mapHas modelValue modelMap)
      then (modelMap ++ [(modelValue, {| types := [type]; label := labelOf modelValue |})])%list
      else pushType modelValue type modelMap
  | None => modelMap
  end.

(** [Math.max(...xs)] on a list that is not empty ([types] never is). *)
Definition mathMax (xs : list Z) : Z :=
  match xs with
  | [] => 0
  | x :: rest => fold_left Z.max rest x
  end.

(** [xs.sort(compare)]: the sort is stable, and [a] stays before [b] unless
    [compare(a, b) > 0]. *)
Fixpoint insertSorted {A} (compare : A -> A -> Z) (x : A) (sorted : list A) : list A :=
  match sorted with
  | [] => [x]
  | y :: rest =>
      if (compare x y <=? 0)%Z then x :: sorted else y :: insertSorted compare x rest
  end.

Definition sort {A} (compare : A -> A -> Z) (xs : list A) : list A :=
  fold_right (insertSorted compare) [] xs.

Definition entryPriority (e : string * ModelInfo) : Z :=
  mathMax (map typePriority (types (snd e))).

(** Extracts model options from ANTHROPIC_* environment variables,
    deduplicated by value. *)
Definition getModelsFromEnvironment (envVars : Env) : list ModelOption :=
  let modelMap := fold_left (addEntry envVars) modelEnvEntries [] in
  let sortedEntries :=
    sort (fun a b => (entryPriority b - entryPriority a)%Z) modelMap in
  map (fun e =>
         let sortedTypes :=
           sort (fun a b => (typePriority b - typePriority a)%Z) (types (snd e)) in
         {| value := fst e;
            optionLabel := label (snd e);
            description := "Custom model (" ++ Text.join ", " sortedTypes ++ ")" |})
      sortedEntries.

End Environment.

(* ================================================================== *)
(** * [src/ui/InputToolbar.ts]: the selectors *)
(* ================================================================== *)

Module InputToolbar.

Import Environment.

(** Returns available models (custom from env vars, or defaults). *)
Definition getAvailableModels (getEnvironmentVariables : option string)
    (DEFAULT_CLAUDE_MODELS : list ModelOption) : list ModelOption :=
  match getEnvironmentVariables with
  | Some envVarsStr =>
      let envVars := parseEnvironmentVariables envVarsStr in
      let customModels := getModelsFromEnvironment envVars in
      if (0 <? List.length customModels)%nat then customModels
      else DEFAULT_CLAUDE_MODELS
  | None => DEFAULT_CLAUDE_MODELS
  end.

(** The text [updateDisplay] puts on the button:
    [displayModel?.label || 'Unknown'] for
    [displayModel = modelInfo || models[0]]. *)
Definition displayLabel (models : list ModelOption) (currentModel : string) : string :=
  let modelInfo := find (fun m => value m =? currentModel) models in
  let displayModel :=
    match modelInfo with
    | Some m => Some m
    | None => hd_error models
    end in
  match displayModel with
  | Some m => if optionLabel m =? "" then "Unknown" else optionLabel m
  | None => "Unknown"
  end.

(** The list [openFolderPicker] hands to [onContextPathsChange] for the
    folder that was picked; [None] when it does not call it. *)
Definition pickedContextPaths (paths : list string) (selectedPath : string)
  : option (list string) :=
  if negb (existsb (String.eqb selectedPath) paths)
  then Some (paths ++ [selectedPath])%list
  else None.

(** The list the remove button of [pathStr] hands to
    [onContextPathsChange]. *)
Definition removedContextPaths (paths : list string) (pathStr : string) : list string :=
  filter (fun p => negb (p =? pathStr)) paths.

End InputToolbar.

(* ================================================================== *)
(** * The vocabulary of the properties *)
(* ================================================================== *)

Import MessageTransformer.
Import InstructionRefineService.

(** Every code unit of the text is white space. *)
Fixpoint blank (s : string) : bool :=
  match s with
  | "" => true
  | String c rest => Text.isWhiteSpace c && blank rest
  end.

(** The text holds an [<instruction>] block. *)
Definition hasInstructionBlock (text : string) : Prop :=
  exists pre body post,
    text = pre ++ "<instruction>" ++ body ++ "</instruction>" ++ post.

(** The elements of [message.message.content], when it is an array. *)
Definition blocksOf (message : JsValue) : list JsValue :=
  match getOpt (getOpt message "message") "content" with
  | JsArray items => items
  | _ => []
  end.

(** The nested-task identifier of a message:
    [message.parent_tool_use_id ?? null]. *)
Definition nestedTaskOf (message : JsValue) : JsValue :=
  nullishCoalesce (getOpt message "parent_tool_use_id") JsNull.

(** An event that either has no [parentToolUseId] property or has [p] there. *)
Definition routed (p : JsValue) (e : TransformEvent) : Prop :=
  match e with
  | ThinkingChunk _ q | TextChunk _ q | ToolUseChunk _ _ _ q | ToolResultChunk _ _ _ q => q = p
  | SessionInit _ | BlockedChunk _ | ErrorChunk _ => True
  end.



(** The id the transformer makes up for a content block, and for the block
    of a stream event, when [n] draws were made before in the world [w]. *)
Definition madeUpBlockId (w : World) (n : nat) : JsValue :=
  JsString ("tool-" ++ Text.ofZ (Date_now w n) ++ "-"
            ++ substring 2 9 (Math_random_toString36 w (S n))).

Definition madeUpStreamId (w : World) (n : nat) : JsValue :=
  JsString ("tool-" ++ Text.ofZ (Date_now w n)).





(** The message types and the assistant block kinds the transformer knows. *)
Definition knownMessageType (m : JsValue) : bool :=
  existsb (strictEqStr (getOpt m "type"))
    ["system"; "assistant"; "user"; "stream_event"; "result"; "error"].

Definition knownAssistantBlock (block : JsValue) : bool :=
  existsb (strictEqStr (getOpt block "type")) ["thinking"; "text"; "tool_use"].

(** The message [{ ...props, message: { content: blocks } }]. *)
Definition withContent (props : list (string * JsValue)) (blocks : list JsValue) : JsValue :=
  JsObject (("message", JsObject [("content", JsArray blocks)]) :: props).

(** The state of a generator that went on to yield [events] and to make
    draws up to [n]. *)
Definition further (s : GenState) (events : list TransformEvent) (n : nat) : GenState :=
  {| yielded := (yielded s ++ events)%list; draws := n |}.

(** ** The increments of the recognized parts

    What a message is to be transformed into, part by part, as plain lists:
    no generator and no failure.  A part is recognized by its [type]; the
    tool result at the top level of a user message and the tool results in
    its content are all parts of it.  [n] counts the draws made so far from
    the clock and the random source. *)

Module Increments.

Section Parts.

Variable JSON_stringify : JsValue -> JsValue.
Variable world : World.

(** The nested-task identifier the increments carry. *)
Variable parent : JsValue.

(** A result payload: a string as it is, any other value serialized. *)
Definition payload (v : JsValue) : JsValue :=
  if isString v then v else JSON_stringify v.

(** A content block of an assistant message: a thinking block with its
    thinking, a text block with its text, a tool use with its id, or with a
    made-up id when it has none.  Any other block is not recognized. *)
Definition ofAssistantBlock (n : nat) (block : JsValue) : list TransformEvent * nat :=
  let kind := getOpt block "type" in
  let name := jsOr (getOpt block "name") (JsString "unknown") in
  let input := jsOr (getOpt block "input") (JsObject []) in
  if strictEqStr kind "thinking" && truthy (getOpt block "thinking") then
    ([ThinkingChunk (getOpt block "thinking") parent], n)
  else if strictEqStr kind "text" && truthy (getOpt block "text") then
    ([TextChunk (getOpt block "text") parent], n)
  else if strictEqStr kind "tool_use" then
    if truthy (getOpt block "id")
    then ([ToolUseChunk (getOpt block "id") name input parent], n)
    else ([ToolUseChunk (madeUpBlockId world n) name input parent], S (S n))
  else ([], n).

(** The blocks of an assistant message, in their order. *)
Fixpoint ofAssistantBlocks (n : nat) (blocks : list JsValue) : list TransformEvent * nat :=
  match blocks with
  | [] => ([], n)
  | block :: rest =>
      let '(events, n') := ofAssistantBlock n block in
      let '(more, n'') := ofAssistantBlocks n' rest in
      ((events ++ more)%list, n'')
  end.

(** A content block of a user message: a tool result.  Any other block is
    not recognized. *)
Definition ofUserBlock (message block : JsValue) : list TransformEvent :=
  if strictEqStr (getOpt block "type") "tool_result" then
    [ToolResultChunk
       (jsOr (jsOr (getOpt block "tool_use_id") (getOpt message "parent_tool_use_id"))
             (JsString ""))
       (payload (getOpt block "content"))
       (jsOr (getOpt block "is_error") (JsBool false))
       parent]
  else [].

(** A user message: the reason of a denial-flagged message and nothing
    else; otherwise the tool result at the top level, if there is one, and
    then the tool results among the content blocks. *)
Definition ofUserMessage (message : JsValue) : list TransformEvent :=
  if truthy (getOpt message "_blocked") && truthy (getOpt message "_blockReason") then
    [BlockedChunk (getOpt message "_blockReason")]
  else
    ((if isDefined (getOpt message "tool_use_result")
         && truthy (getOpt message "parent_tool_use_id")
      then [ToolResultChunk (getOpt message "parent_tool_use_id")
              (payload (getOpt message "tool_use_result")) (JsBool false) parent]
      else [])
     ++ flat_map (ofUserBlock message) (blocksOf message))%list.

(** A stream event: the start of a tool use, of a thinking or of a text
    block, or a thinking or text delta. *)
Definition ofStreamEvent (event : JsValue) : list TransformEvent :=
  let block := getOpt event "content_block" in
  let delta := getOpt event "delta" in
  if strictEqStr (getOpt event "type") "content_block_start" then
    if strictEqStr (getOpt block "type") "tool_use" then
      [ToolUseChunk
         (if truthy (getOpt block "id") then getOpt block "id" else madeUpStreamId world 0)
         (jsOr (getOpt block "name") (JsString "unknown"))
         (jsOr (getOpt block "input") (JsObject []))
         parent]
    else if strictEqStr (getOpt block "type") "thinking" then
      if truthy (getOpt block "thinking")
      then [ThinkingChunk (getOpt block "thinking") parent] else []
    else if strictEqStr (getOpt block "type") "text" then
      if truthy (getOpt block "text") then [TextChunk (getOpt block "text") parent] else []
    else []
  else if strictEqStr (getOpt event "type") "content_block_delta" then
    if strictEqStr (getOpt delta "type") "thinking_delta" && truthy (getOpt delta "thinking")
    then [ThinkingChunk (getOpt delta "thinking") parent]
    else if strictEqStr (getOpt delta "type") "text_delta" && truthy (getOpt delta "text")
    then [TextChunk (getOpt delta "text") parent]
    else []
  else [].

End Parts.

(** The increments of a message: the session-identity signal of a session
    initialisation, the increments of the parts of an assistant message, of
    a user message and of a stream event, the error of an error message;
    nothing for a result and nothing for a message of any other type. *)
Definition ofMessage (JSON_stringify : JsValue -> JsValue) (world : World) (message : JsValue)
  : list TransformEvent :=
  let parent := nestedTaskOf message in
  let type := getOpt message "type" in
  if strictEqStr type "system" then
    if strictEqStr (getOpt message "subtype") "init" && truthy (getOpt message "session_id")
    then [SessionInit (getOpt message "session_id")] else []
  else if strictEqStr type "assistant" then
    fst (ofAssistantBlocks world parent 0 (blocksOf message))
  else if strictEqStr type "user" then ofUserMessage JSON_stringify parent message
  else if strictEqStr type "stream_event" then
    ofStreamEvent world parent (getOpt message "event")
  else if strictEqStr type "result" then []
  else if strictEqStr type "error" then
    if truthy (getOpt message "error") then [ErrorChunk (getOpt message "error")] else []
  else [].

End Increments.

(** The transformer reads the content blocks of the message: it is an
    assistant message, or a user message that is not denial-flagged. *)
Definition readsContent (m : JsValue) : bool :=
  strictEqStr (getOpt m "type") "assistant"
  || (strictEqStr (getOpt m "type") "user"
      && negb (truthy (getOpt m "_blocked") && truthy (getOpt m "_blockReason"))).

(** A message the transformer can read: it is not [null] or [undefined],
    and no content block that is read is. *)
Definition transformable (m : JsValue) : Prop :=
  isNullish m = false
  /\ (readsContent m = true -> Forall (fun block => isNullish block = false) (blocksOf m)).

(** A block of a kind that is recognized in the message: a thinking, text
    or tool-use block in an assistant message, a tool result in any
    other. *)
Definition recognizedBlock (m block : JsValue) : bool :=
  if strictEqStr (getOpt m "type") "assistant" then knownAssistantBlock block
  else strictEqStr (getOpt block "type") "tool_result".

(** ** The path argument of a tool call *)

(** An argument from which no path can be extracted: it is missing, empty
    or not a string. *)
Definition unextractable (v : JsValue) : bool :=
  match v with
  | JsString s => s =? ""
  | _ => true
  end.

(** The file path tools of the hook of the refine service. *)
Definition isFilePathTool (toolName : string) : bool :=
  (toolName =? "Read") || (toolName =? "Glob") || (toolName =? "Grep").

(** What [candidatePath.startsWith('~/')] throws on a value that is not a
    string. *)
Definition notAFunction : Thrown :=
  ErrorObject "TypeError" "candidatePath.startsWith is not a function".

(** ** Paths *)

(** A path that [resolveRealPath] resolves lexically: it is not on the file
    system, or it is there under its own resolved name (no symbolic link on
    the way). *)
Definition lexical (h : Utils.Host) (p : string) : Prop :=
  Utils.resolveRealPath h p = NodePath.resolve (Utils.cwd h) [p].

(** No slash in the text, and no segment [..] in the path. *)
Definition slashFree (s : string) : bool := negb (Environment.includesSlash s).

Definition noDotDot (path : string) : bool :=
  forallb (fun seg => negb (seg =? "..")) (Text.split "/" path).

(** A segment that names a directory entry: it is not empty, not [.] or
    [..], and has no slash.  Such are the segments [normalizeString] keeps
    below the root. *)
Definition keptSegment (seg : string) : bool :=
  negb (seg =? "") && negb (seg =? ".") && negb (seg =? "..") && slashFree seg.

(** The segments of a resolved path. *)
Definition segmentsOf (path : string) : list string :=
  rev (fold_left (NodePath.normalizeStep false) (Text.split "/" path) []).

(** ** Canonical paths

    The canonical form of a path in the words of the specification:
    [resolve(path)] resolves symbolic links, [..] and [~], and falls back to
    lexical normalization for a path that does not exist; relative paths are
    taken from the root.  A path is read as the place it leads to, segment by
    segment; nothing here uses Node's [path] module. *)

Module PathContainment.

(** One step from a place, which is given by the names that lead to it from
    the root directory: an empty segment and [.] stay, [..] goes to the
    parent (the root directory is its own parent), a name goes down. *)
Definition step (place : list string) (segment : string) : list string :=
  if (segment =? "") || (segment =? ".") then place
  else if segment =? ".." then removelast place
  else (place ++ [segment])%list.

(** The place the segments of a path lead to from a place. *)
Definition walk (from : list string) (path : string) : list string :=
  fold_left step (Text.split "/" path) from.

(** The place of a path for a process at the place [from]: an absolute path
    starts at the root directory. *)
Definition placeOf (from : list string) (path : string) : list string :=
  walk (if Text.firstIs "/" path then [] else from) path.

(** The lexically normalized path of a place. *)
Definition spell (place : list string) : string := "/" ++ Text.join "/" place.




End PathContainment.

(** What is assumed of the host.  The working directory and the home
    directory are absolute paths.  [realpath] answers by place: a path and
    its lexically normalized spelling have the same answer.  (Node's own
    [fs.realpathSync] begins by [path.resolve] and always answers so; the
    native one resolves a symbolic link before a [..] that follows it, and
    answers so where no path is spelled with a [..] after a link.)  What
    [realpath] answers is an absolute path in normal form. *)
Definition posixHost (h : Utils.Host) : Prop :=
  Text.firstIs "/" (Utils.cwd h) = true
  /\ Text.firstIs "/" (Utils.homedir h) = true
  /\ (forall p,
        Utils.realpathSync h p
        = Utils.realpathSync h
            (PathContainment.spell
               (PathContainment.placeOf (PathContainment.placeOf [] (Utils.cwd h)) p)))
  /\ (forall p real,
        Utils.realpathSync h p = Some real ->
        exists place, forallb keptSegment place = true /\ real = PathContainment.spell place).


(* ================================================================== *)
(** * A sample installation *)
(* ================================================================== *)

(** A host on which nothing exists yet but the CLI: every [realpathSync]
    throws, so that paths are compared after lexical resolution. *)
Definition emptyHost : Utils.Host :=
  {| Utils.realpathSync := fun _ => None;
     Utils.existsSync := fun p => p =? "/usr/local/bin/claude";
     Utils.homedir := "/home/user";
     Utils.cwd := "/" |}.


(** A host with the native [realpath], on which [/vault/shared] is a
    symbolic link to [/etc/ssl]: [/vault/shared/../passwd] is [/etc/passwd],
    and there is no [/vault/passwd]. *)
Definition nativeHost : Utils.Host :=
  {| Utils.realpathSync :=
       fun p =>
         if p =? "/vault" then Some "/vault"
         else if p =? "/vault/shared" then Some "/etc/ssl"
         else if p =? "/vault/shared/../passwd" then Some "/etc/passwd"
         else if p =? "/etc/passwd" then Some "/etc/passwd"
         else None;
     Utils.existsSync := fun _ => false;
     Utils.homedir := "/home/user";
     Utils.cwd := "/" |}.

Definition someWorld : World :=
  {| Date_now := fun _ => 1700000000000%Z;
     Math_random_toString36 := fun _ => "0.4fzyo82mvyr" |}.

Definition laterWorld : World :=
  {| Date_now := fun _ => 1700000000001%Z;
     Math_random_toString36 := fun _ => "0.k2j8s0x1qzp" |}.

(** A denial-flagged user message of a sub-task. *)
Definition blockedMessage : JsValue :=
  JsObject [("type", JsString "user"); ("parent_tool_use_id", JsString "toolu_1");
            ("_blocked", JsBool true); ("_blockReason", JsString "Access denied")].

(** An assistant message whose content holds [null] among its blocks. *)
Definition messageWithNullBlock : JsValue :=
  JsObject [("type", JsString "assistant");
            ("message",
             JsObject [("content",
                        JsArray [JsObject [("type", JsString "text"); ("text", JsString "hi")];
                                 JsNull;
                                 JsObject [("type", JsString "text");
                                           ("text", JsString "lost")]])])].

(** An assistant message with a [tool_use] block that has no id. *)
Definition toolUseWithoutId : JsValue :=
  JsObject [("type", JsString "assistant");
            ("message",
             JsObject [("content",
                        JsArray [JsObject [("type", JsString "tool_use");
                                           ("name", JsString "Read")]])])].


(** ** Hooks *)

Definition toolNames_TOOL_BASH : string := "Bash".

Definition toolNames_isEditTool (toolName : string) : bool :=
  existsb (String.eqb toolName) ["Write"; "Edit"; "NotebookEdit"].

Definition toolNames_isFileTool (toolName : string) : bool :=
  existsb (String.eqb toolName)
    ["Read"; "Write"; "Edit"; "Glob"; "Grep"; "LS"; "NotebookEdit"].

(** A path extractor for the tools that take [file_path]. *)
Definition sampleGetPathFromToolInput (toolName : string) (tool_input : JsValue)
  : option string :=
  match getOpt tool_input "file_path" with
  | JsString p => Some p
  | _ => None
  end.

(** A tokenizer that knows two commands. *)
Definition sampleCandidatePaths (command : JsValue)
  : list (string * SecurityHooks.Intent) :=
  if strictEqStr command "cat /exports/report.md"
  then [("/exports/report.md", SecurityHooks.ReadIntent)]
  else if strictEqStr command "echo done > /exports/report.md"
  then [("/exports/report.md", SecurityHooks.WriteIntent)]
  else [].

(** The vault [/vault] with the export directory [/exports]. *)
Definition sampleContext : SecurityHooks.VaultRestrictionContext unit :=
  {| SecurityHooks.isPathWithinVault := fun p => Utils.isPathWithinVault emptyHost p "/vault";
     SecurityHooks.isAllowedExportPath :=
       fun p => Utils.isPathWithinVault emptyHost p "/exports";
     SecurityHooks.onEditBlocked := None |}.

Definition sampleHook : string -> JsValue -> unit -> HookResult * unit :=
  SecurityHooks.createVaultRestrictionHook toolNames_TOOL_BASH toolNames_isEditTool
    toolNames_isFileTool sampleGetPathFromToolInput sampleCandidatePaths unit sampleContext.

(** ** Two turns of a refinement *)

Definition samplePlugin : Plugin :=
  {| adapterBasePath := Some "/vault";
     settingsModel := "claude-sonnet-4-5";
     settingsThinkingBudget := "off";
     activeEnvironmentVariables := "" |}.

Definition assistantText (text : string) : JsValue :=
  JsObject [("type", JsString "assistant");
            ("message",
             JsObject [("content",
                        JsArray [JsObject [("type", JsString "text");
                                           ("text", JsString text)]])])].

(** A runtime that opens a session [s1] and asks back on a new
    conversation, and answers on a resumed one. *)
Definition scriptedQuery (prompt : string) (options : Options) : Response :=
  match resume options with
  | None =>
      {| steps := [Deliver (JsObject [("type", JsString "system"); ("subtype", JsString "init");
                                      ("session_id", JsString "s1")]);
                   Deliver (assistantText "Which language do you mean?");
                   Deliver (JsObject [("type", JsString "result")])];
         ending := None |}
  | Some _ =>
      {| steps := [Deliver (assistantText "<instruction>- Use TypeScript.</instruction>");
                   Deliver (JsObject [("type", JsString "result")])];
         ending := None |}
  end.

Definition sampleRefine : string -> string -> bool -> Machine -> Machine * InstructionRefineResult :=
  refineInstruction emptyHost samplePlugin "Read" "Grep" "Glob" [("off", 0%Z); ("low", 4000%Z)]
    (fun existing => "You are helping refine a custom instruction.") [] (fun _ => [])
    scriptedQuery.

Definition sampleContinue : string -> bool -> Machine -> Machine * InstructionRefineResult :=
  continueConversation emptyHost samplePlugin "Read" "Grep" "Glob"
    [("off", 0%Z); ("low", 4000%Z)]
    (fun existing => "You are helping refine a custom instruction.") [] (fun _ => [])
    scriptedQuery.

(** The service after the first turn. *)
Definition afterFirstTurn : Machine := fst (sampleRefine "typescript" "" false newService).

(* ================================================================== *)
(** * The vocabulary of the further properties *)
(* ================================================================== *)

(** ** The turn of the refine service *)

(** The controller the service holds, if any, has not been aborted. *)
Definition armed (m : Machine) : Prop :=
  match abortController (this m) with
  | Some address => nth address (controllers m) false = false
  | None => True
  end.

(** The loop of [sendMessage] was left by its cancellation exit. *)
Definition isReturned (exit : LoopExit) : bool :=
  match exit with
  | Returned _ => true
  | _ => false
  end.

(** A delivered message that initialises a session. *)
Definition isSessionInit (message : JsValue) : bool :=
  strictEqStr (getOpt message "type") "system"
  && strictEqStr (getOpt message "subtype") "init"
  && truthy (getOpt message "session_id").

(** The vault path is known, and so is the executable: it was found before,
    or it is where [findClaudeCLIPath] looks. *)
Definition configured (host : Utils.Host) (plugin : Plugin) (m : Machine) : bool :=
  truthyText (adapterBasePath plugin)
  && (truthyText (resolvedClaudePath (this m)) || truthyText (Utils.findClaudeCLIPath host)).




(** The result [sendMessage] makes of the way its loop was left. *)
Definition resultOf (exit : LoopExit) : InstructionRefineResult :=
  match exit with
  | Returned r => r
  | Finished responseText => parseResponse responseText
  | Raised (ErrorObject _ message) => failure message
  | Raised (NonError _) => failure "Unknown error"
  end.

(** ** The events of a message *)

(** The [type] tag of an event. *)
Definition kindOf (e : TransformEvent) : string :=
  match e with
  | SessionInit _ => "session_init"
  | ThinkingChunk _ _ => "thinking"
  | TextChunk _ _ => "text"
  | ToolUseChunk _ _ _ _ => "tool_use"
  | BlockedChunk _ => "blocked"
  | ToolResultChunk _ _ _ _ => "tool_result"
  | ErrorChunk _ => "error"
  end.

(** The kinds of event a message of a given [type] gives rise to. *)
Definition kindsFor (messageType : JsValue) : list string :=
  if strictEqStr messageType "system" then ["session_init"]
  else if strictEqStr messageType "assistant" then ["thinking"; "text"; "tool_use"]
  else if strictEqStr messageType "user" then ["blocked"; "tool_result"]
  else if strictEqStr messageType "stream_event" then ["tool_use"; "thinking"; "text"]
  else if strictEqStr messageType "error" then ["error"]
  else [].

(** An event with something in it: a session id, a content, or the id, the
    name and the input of a tool use that are not falsy; the [isError] of a
    tool result that is not [undefined]. *)
Definition substantial (e : TransformEvent) : bool :=
  match e with
  | SessionInit id => truthy id
  | ThinkingChunk content _ | TextChunk content _ => truthy content
  | BlockedChunk content | ErrorChunk content => truthy content
  | ToolUseChunk id name input _ => truthy id && truthy name && truthy input
  | ToolResultChunk _ _ isError _ => negb (isNullish isError)
  end.

(** An event of one of the [kinds] that is substantial. *)
Definition sound (kinds : list string) (e : TransformEvent) : Prop :=
  substantial e = true /\ In (kindOf e) kinds.

(** The [content] of the text chunks among the events, in order. *)
Fixpoint textsOf (events : list TransformEvent) : list JsValue :=
  match events with
  | [] => []
  | TextChunk content _ :: rest => content :: textsOf rest
  | _ :: rest => textsOf rest
  end.

(** [message.message?.content] is an array, or is falsy. *)
Definition contentIsArrayOrFalsy (message : JsValue) : bool :=
  match getOpt (getOpt message "message") "content" with
  | JsArray _ => true
  | content => negb (truthy content)
  end.

(** The callbacks of [filter] and [map] in [extractTextFromMessage], and
    the two applied in a row. *)
Definition isTextBlock (block : JsValue) : Completion bool :=
  let? t := get block "type" in
  if strictEqStr t "text"
  then (let? text := get block "text" in Normal (truthy text))
  else Normal false.

Definition textBlocks (blocks : list JsValue) : Completion (list JsValue) :=
  let? kept := filterC isTextBlock blocks in
  mapC (fun block => get block "text") kept.

(** ** The lines of the environment text *)

(** No line feed in the text. *)
Definition oneLine (s : string) : bool :=
  match Environment.indexOf Environment.lineFeed s with
  | Some _ => false
  | None => true
  end.

(** A key as [parseEnvironmentVariables] stores it: not empty, trimmed,
    without [=], not a comment. *)
Definition storedKey (k : string) : bool :=
  negb (k =? "") && (Text.trim k =? k)
  && match Environment.indexOf "="%char k with Some _ => false | None => true end
  && negb (Text.startsWith k "#").

(** ** More of the sample installation *)

(** A host on which the vault [/vault] exists, under that name. *)
Definition vaultHost : Utils.Host :=
  {| Utils.realpathSync :=
       fun p => if (p =? "/vault") || (p =? "/vault/") then Some "/vault" else None;
     Utils.existsSync := fun p => (p =? "/vault") || (p =? "/vault/");
     Utils.homedir := "/home/user";
     Utils.cwd := "/" |}.

(** A plugin whose vault adapter has no [basePath]. *)
Definition pluginWithoutVault : Plugin :=
  {| adapterBasePath := None;
     settingsModel := "claude-sonnet-4-5";
     settingsThinkingBudget := "off";
     activeEnvironmentVariables := "" |}.

(** A plugin with the thinking budget [low]. *)
Definition thinkingPlugin : Plugin :=
  {| adapterBasePath := Some "/vault";
     settingsModel := "claude-sonnet-4-5";
     settingsThinkingBudget := "low";
     activeEnvironmentVariables := "" |}.

(** A runtime whose stream breaks after a complete answer. *)
Definition brokenQuery (prompt : string) (options : Options) : Response :=
  {| steps := [Deliver (assistantText "<instruction>- Use TypeScript.</instruction>")];
     ending := Some (ErrorObject "Error" "socket hang up") |}.

(** A runtime that goes on delivering while the caller cancels. *)
Definition unstoppableQuery (prompt : string) (options : Options) : Response :=
  {| steps := [Deliver (assistantText "<instruction>- Use ");
               CallerCancels;
               Deliver (assistantText "TypeScript.</instruction>")];
     ending := None |}.

(** A runtime that goes on talking after its answer. *)
Definition chattyQuery (prompt : string) (options : Options) : Response :=
  {| steps := [Deliver (assistantText "<instruction>- Use TypeScript.</instruction>");
               Deliver (assistantText " Anything else? <instruction>- Or not.</instruction>")];
     ending := None |}.

(** An assistant message with text around a tool use. *)
Definition mixedAssistantMessage : JsValue :=
  JsObject [("type", JsString "assistant");
            ("message",
             JsObject [("content",
                        JsArray [JsObject [("type", JsString "text");
                                           ("text", JsString "Reading. ")];
                                 JsObject [("type", JsString "tool_use");
                                           ("id", JsString "toolu_2");
                                           ("name", JsString "Read")];
                                 JsObject [("type", JsString "text"); ("text", JsString "")];
                                 JsObject [("type", JsString "text");
                                           ("text", JsString "Done.")]])])].

(** A context that counts the edits it was told were blocked. *)
Definition countingContext : SecurityHooks.VaultRestrictionContext nat :=
  {| SecurityHooks.isPathWithinVault := fun p => Utils.isPathWithinVault emptyHost p "/vault";
     SecurityHooks.isAllowedExportPath :=
       fun p => Utils.isPathWithinVault emptyHost p "/exports";
     SecurityHooks.onEditBlocked := Some (fun _ _ blocked => S blocked) |}.

Definition countingHook : string -> JsValue -> nat -> HookResult * nat :=
  SecurityHooks.createVaultRestrictionHook toolNames_TOOL_BASH toolNames_isEditTool
    toolNames_isFileTool sampleGetPathFromToolInput sampleCandidatePaths nat countingContext.

(** [sendMessage] on the sample host, for a plugin and a runtime. *)
Definition sampleSend (plugin : Plugin) (query : string -> Options -> Response)
  : string -> bool -> Machine -> Machine * InstructionRefineResult :=
  sendMessage emptyHost plugin "Read" "Grep" "Glob" [("off", 0%Z); ("low", 4000%Z)]
    (fun existing => "You are helping refine a custom instruction.") [] (fun _ => [])
    query.

(* ================================================================== *)
(** * Properties *)
(* ================================================================== *)

(** ** Strings *)

Lemma startsWith_iff (s p : string) :
  Text.startsWith s p = true <-> exists rest, s = p ++ rest.
Proof.
  unfold Text.startsWith. revert s.
  induction p as [|c p IH]; intros s; simpl.
  - split; [intros _; exists s; reflexivity | now destruct s].
  - destruct s as [|d s]; simpl.
    + split; [discriminate | intros [rest H]; discriminate].
    + destruct (ascii_dec c d) as [->|Hne].
      * rewrite IH. split; intros [rest H]; exists rest; congruence.
      * split; [discriminate | intros [rest H]; congruence].
Qed.

Lemma startsWith_append (p rest : string) : Text.startsWith (p ++ rest) p = true.
Proof. apply startsWith_iff. now exists rest. Qed.

Lemma append_assoc (a b c : string) : (a ++ b) ++ c = a ++ b ++ c.
Proof. induction a; simpl; congruence. Qed.

Lemma append_empty_r (a : string) : a ++ "" = a.
Proof. induction a; simpl; congruence. Qed.

Lemma append_cancel_l (a b c : string) : a ++ b = a ++ c -> b = c.
Proof. induction a; simpl; intros H; [assumption | injection H; auto]. Qed.

Lemma append_eq_self (a b : string) : a ++ b = a -> b = "".
Proof. intros H. apply (append_cancel_l a). now rewrite append_empty_r. Qed.

(** ** Path containment *)

Lemma isPathWithinVault_spec (h : Utils.Host) (C R : string) :
  Utils.isPathWithinVault h C R = true <->
  Utils.resolveRealPath h (Utils.absCandidate h C R) = Utils.resolveRealPath h R
  \/ exists rest,
       Utils.resolveRealPath h (Utils.absCandidate h C R)
       = Utils.resolveRealPath h R ++ "/" ++ rest.
Proof.
  unfold Utils.isPathWithinVault, NodePath.sep.
  rewrite orb_true_iff, String.eqb_eq, startsWith_iff.
  split; (intros [H|[rest H]]; [left; exact H | right; exists rest]).
  - now rewrite <- append_assoc.
  - now rewrite append_assoc.
Qed.

(** *** Segments *)

Lemma split_app (sep : ascii) (a b : string) :
  Text.split sep (a ++ String sep b) = (Text.split sep a ++ Text.split sep b)%list.
Proof.
  induction a as [|c a IH]; simpl.
  - now rewrite Ascii.eqb_refl.
  - destruct (Ascii.eqb c sep); [now rewrite IH|].
    rewrite IH. destruct (Text.split sep a) as [|h t] eqn:E; [|reflexivity].
    destruct a; simpl in E; [discriminate|].
    destruct (Ascii.eqb a sep); [discriminate|].
    destruct (Text.split sep a0); discriminate.
Qed.

Lemma split_slashFree (s : string) : forallb slashFree (Text.split "/" s) = true.
Proof.
  unfold slashFree. induction s as [|c s IH]; [reflexivity|]. simpl.
  destruct (Ascii.eqb c "/") eqn:E; [exact IH|].
  destruct (Text.split "/" s) as [|h t]; simpl in *; [now rewrite E|].
  now rewrite E.
Qed.

Lemma split_whole (s : string) : slashFree s = true -> Text.split "/" s = [s].
Proof.
  unfold slashFree. induction s as [|c s IH]; [reflexivity|]. simpl.
  destruct (Ascii.eqb c "/"); [discriminate|]. simpl. intros H. now rewrite (IH H).
Qed.

Lemma split_join (segs : list string) :
  segs <> [] -> forallb slashFree segs = true ->
  Text.split "/" (Text.join "/" segs) = segs.
Proof.
  induction segs as [|p segs IH]; [contradiction|]. intros _ H.
  simpl in H. apply andb_true_iff in H as [Hp Hs].
  destruct segs as [|q segs]; [now apply split_whole|].
  change (Text.join "/" (p :: q :: segs)) with (p ++ String "/" (Text.join "/" (q :: segs))).
  rewrite split_app, (split_whole p Hp), IH; [reflexivity | discriminate | exact Hs].
Qed.

Lemma join_app (a b : list string) :
  a <> [] -> b <> [] ->
  Text.join "/" (a ++ b) = Text.join "/" a ++ "/" ++ Text.join "/" b.
Proof.
  induction a as [|p a IH]; [contradiction|]. intros _ Hb.
  destruct a as [|q a].
  - destruct b; [contradiction | reflexivity].
  - change (Text.join "/" ((p :: q :: a) ++ b))
      with (p ++ "/" ++ Text.join "/" ((q :: a) ++ b)).
    rewrite IH by (discriminate || assumption).
    change (Text.join "/" (p :: q :: a)) with (p ++ "/" ++ Text.join "/" (q :: a)).
    now rewrite !append_assoc.
Qed.

(** Below the root, what is kept is fit to be kept. *)
Lemma normalizeStep_kept (res : list string) (seg : string) :
  forallb keptSegment res = true -> slashFree seg = true ->
  forallb keptSegment (NodePath.normalizeStep false res seg) = true.
Proof.
  intros Hres Hseg. unfold NodePath.normalizeStep.
  destruct (seg =? "") eqn:E1; [exact Hres|].
  destruct (seg =? ".") eqn:E2; [exact Hres|].
  destruct (seg =? "..") eqn:E3.
  - destruct res as [|last rest]; [reflexivity|].
    simpl in Hres. apply andb_true_iff in Hres as [Hl Hr].
    destruct (last =? ".."); [simpl; now rewrite Hl, Hr | exact Hr].
  - simpl. unfold keptSegment at 1. now rewrite E1, E2, E3, Hseg, Hres.
Qed.

Lemma normalizeSteps_kept (segs res : list string) :
  forallb keptSegment res = true -> forallb slashFree segs = true ->
  forallb keptSegment (fold_left (NodePath.normalizeStep false) segs res) = true.
Proof.
  revert res. induction segs as [|seg segs IH]; intros res Hres Hs; simpl; [exact Hres|].
  simpl in Hs. apply andb_true_iff in Hs as [Hseg Hs].
  apply IH; [now apply normalizeStep_kept | exact Hs].
Qed.

Lemma keptSegment_filter (segs : list string) :
  forallb keptSegment segs = true ->
  filter (fun seg => negb (seg =? "") && negb (seg =? ".")) segs = segs
  /\ forallb (fun seg => negb (seg =? "..")) segs = true
  /\ forallb slashFree segs = true.
Proof.
  induction segs as [|seg segs IH]; simpl; [auto|].
  intros H. apply andb_true_iff in H as [Hseg H]. destruct (IH H) as (H1 & H2 & H3).
  unfold keptSegment in Hseg.
  apply andb_true_iff in Hseg as [Hseg Hslash].
  apply andb_true_iff in Hseg as [Hseg Hdd].
  rewrite Hseg, Hdd, Hslash, H1, H2, H3. auto.
Qed.

Lemma forallb_reversed {A} (f : A -> bool) (l : list A) :
  forallb f l = true -> forallb f (rev l) = true.
Proof.
  rewrite !forallb_forall. intros H x Hx. apply H. now apply in_rev.
Qed.

Lemma segmentsOf_kept (path : string) : forallb keptSegment (segmentsOf path) = true.
Proof.
  unfold segmentsOf. apply forallb_reversed.
  apply normalizeSteps_kept; [reflexivity | apply split_slashFree].
Qed.

Lemma normalizeString_segments (path : string) :
  NodePath.normalizeString path false = Text.join "/" (segmentsOf path).
Proof. reflexivity. Qed.

Lemma join_head (segs : list string) :
  forallb keptSegment segs = true -> Text.firstIs "/" (Text.join "/" segs) = false.
Proof.
  destruct segs as [|p segs]; [reflexivity|]. simpl forallb. intros H.
  apply andb_true_iff in H as [Hp _]. unfold keptSegment, slashFree in Hp.
  apply andb_true_iff in Hp as [Hp Hslash].
  apply andb_true_iff in Hp as [Hp _]. apply andb_true_iff in Hp as [Hp _].
  destruct p as [|c p]; [discriminate|].
  simpl in Hslash. apply negb_true_iff, orb_false_iff in Hslash as [Hc _].
  destruct segs; simpl; exact Hc.
Qed.

Lemma join_nonempty (segs : list string) :
  forallb keptSegment segs = true -> segs <> [] -> Text.join "/" segs <> "".
Proof.
  intros H Hne. destruct segs as [|p segs]; [contradiction|].
  simpl in H. apply andb_true_iff in H as [Hp _]. unfold keptSegment in Hp.
  destruct p as [|c p]; [discriminate|]. destruct segs; discriminate.
Qed.

(** Resolved paths are compared segment by segment. *)
Lemma join_prefix (Rs As : list string) :
  forallb keptSegment Rs = true -> forallb keptSegment As = true -> Rs <> [] ->
  (Text.join "/" As = Text.join "/" Rs
   \/ exists rest, Text.join "/" As = Text.join "/" Rs ++ "/" ++ rest)
  <-> exists below, As = (Rs ++ below)%list.
Proof.
  intros HR HA Hne.
  destruct (keptSegment_filter Rs HR) as (_ & _ & HRs).
  destruct (keptSegment_filter As HA) as (_ & _ & HAs).
  split.
  - intros [H|[rest H]].
    + exists []. rewrite app_nil_r.
      destruct As as [|a As].
      * exfalso. apply (join_nonempty Rs HR Hne). now rewrite <- H.
      * rewrite <- (split_join (a :: As)), H, split_join by (discriminate || assumption).
        reflexivity.
    + exists (Text.split "/" rest).
      destruct As as [|a As].
      * exfalso. simpl in H. destruct (Text.join "/" Rs); discriminate.
      * rewrite <- (split_join (a :: As)) by (discriminate || assumption).
        rewrite H. change ("/" ++ rest) with (String "/" rest).
        now rewrite split_app, split_join by assumption.
  - intros [below ->]. destruct below as [|b below].
    + left. now rewrite app_nil_r.
    + right. exists (Text.join "/" (b :: below)).
      apply join_app; [exact Hne | discriminate].
Qed.

(** *** Canonical forms *)

Section CanonicalForms.

Import PathContainment.







Lemma walk_empty (from : list string) : walk from "" = from.
Proof. reflexivity. Qed.




(** *** [path.resolve] *)




(** *** [path.normalize] and [path.join] *)



(** *** The canonical forms *)







Lemma spell_root (place : list string) :
  forallb keptSegment place = true -> (spell place = "/" <-> place = []).
Proof.
  intros H. split; [|now intros ->]. unfold spell. intros E.
  destruct place as [|name place]; [reflexivity|].
  apply (append_cancel_l "/" _ "") in E. now elim (join_nonempty (name :: place) H).
Qed.





End CanonicalForms.

(** *** Relative candidates *)

Lemma isAbsolute_nonempty (p : string) : NodePath.isAbsolute p = true -> (p =? "") = false.
Proof. now destruct p. Qed.

(** [path.resolve] never looks at the working directory once it has met an
    absolute argument. *)
Lemma resolve_absolute_root (cwd R C : string) :
  NodePath.isAbsolute R = true -> NodePath.isAbsolute C = false ->
  NodePath.resolve cwd [R; C]
  = "/" ++ NodePath.normalizeString
             (if C =? "" then R ++ "/" else R ++ "/" ++ C ++ "/") false.
Proof.
  intros HR HC. unfold NodePath.resolve. simpl.
  destruct (C =? "") eqn:E; simpl.
  - now rewrite (isAbsolute_nonempty R HR), HR.
  - now rewrite HC, (isAbsolute_nonempty R HR), HR.
Qed.

Lemma resolve_absolute (cwd p : string) :
  NodePath.isAbsolute p = true ->
  NodePath.resolve cwd [p] = "/" ++ NodePath.normalizeString (p ++ "/") false.
Proof.
  intros Hp. unfold NodePath.resolve. simpl.
  now rewrite (isAbsolute_nonempty p Hp), Hp.
Qed.

Lemma resolveRealPath_cwd (h h' : Utils.Host) (p : string) :
  (forall q, Utils.realpathSync h' q = Utils.realpathSync h q) ->
  NodePath.isAbsolute p = true ->
  Utils.resolveRealPath h' p = Utils.resolveRealPath h p.
Proof.
  intros Hfs Hp. unfold Utils.resolveRealPath. rewrite Hfs.
  destruct (Utils.realpathSync h p); [reflexivity|].
  now rewrite !resolve_absolute.
Qed.

Lemma expandedPath_plain (h : Utils.Host) (C : string) :
  Text.startsWith C "~/" = false -> Utils.expandedPath h C = C.
Proof. unfold Utils.expandedPath. now intros ->. Qed.

(** C3, as stated: every candidate that is not absolute is resolved against
    the root.  It fails on a candidate that starts with [~/]: such a path is
    not absolute, and the code anchors it at the home directory. *)
Lemma tilde_candidate_not_resolved_against_root :
  ~ (forall (h : Utils.Host) (C R : string),
       NodePath.isAbsolute C = false ->
       Utils.absCandidate h C R = NodePath.resolve (Utils.cwd h) [R; C]).
Proof.
  intros H.
  specialize (H {| Utils.realpathSync := fun _ => None;
                   Utils.existsSync := fun _ => false;
                   Utils.homedir := "/home/user";
                   Utils.cwd := "/work" |}
                "~/x" "/vault" eq_refl).
  vm_compute in H. discriminate H.
Qed.

(** C3, amended.  A candidate that is neither absolute nor anchored at the
    home directory by a leading [~/] is resolved against the root: the
    absolute candidate is [path.resolve(root, candidate)].  For an absolute
    root this path is the same in every working directory, and so is the
    verdict of the containment check. *)
Theorem relative_candidate_resolved_against_root :
  forall (h : Utils.Host) (C R : string),
    NodePath.isAbsolute C = false ->
    Text.startsWith C "~/" = false ->
    Utils.absCandidate h C R = NodePath.resolve (Utils.cwd h) [R; C]
    /\ (NodePath.isAbsolute R = true ->
          forall cwd', NodePath.resolve cwd' [R; C] = Utils.absCandidate h C R)
    /\ (NodePath.isAbsolute R = true ->
          forall h', (forall q, Utils.realpathSync h' q = Utils.realpathSync h q) ->
                     Utils.isPathWithinVault h' C R = Utils.isPathWithinVault h C R).
Proof.
  intros h C R HC Htilde.
  assert (Habs : forall g, Utils.absCandidate g C R = NodePath.resolve (Utils.cwd g) [R; C]).
  { intros g. unfold Utils.absCandidate. now rewrite expandedPath_plain, HC. }
  split; [apply Habs|]. split.
  - intros HR cwd'. rewrite Habs. now rewrite !resolve_absolute_root.
  - intros HR h' Hfs. unfold Utils.isPathWithinVault.
    rewrite (resolveRealPath_cwd h h' R Hfs HR).
    rewrite (Habs h'), (Habs h), (resolve_absolute_root (Utils.cwd h')),
      (resolve_absolute_root (Utils.cwd h)) by assumption.
    set (tail := NodePath.normalizeString _ false).
    now rewrite (resolveRealPath_cwd h h' ("/" ++ tail) Hfs eq_refl).
Qed.

(** The escaping glob of the tests, in a process that runs inside the vault:
    the candidate is taken from the root and lands outside it. *)
Lemma relative_candidate_resolved_against_root_witness :
  let h := {| Utils.realpathSync := fun _ => None;
              Utils.existsSync := fun _ => false;
              Utils.homedir := "/home/user";
              Utils.cwd := "/test/vault/path/sub" |} in
  (forall cwd', NodePath.resolve cwd' ["/test/vault/path"; "../**/*.md"]
                = Utils.absCandidate h "../**/*.md" "/test/vault/path")
  /\ Utils.absCandidate h "../**/*.md" "/test/vault/path" = "/test/vault/**/*.md"
  /\ Utils.isPathWithinVault h "../**/*.md" "/test/vault/path" = false
  /\ NodePath.resolve (Utils.cwd h) ["../**/*.md"] = "/test/vault/path/**/*.md".
Proof.
  intros h. split.
  - apply (relative_candidate_resolved_against_root h "../**/*.md" "/test/vault/path");
      reflexivity.
  - repeat split; reflexivity.
Defined.

(** ** Terminal parsing of the response *)

Lemma slice_append (p rest : string) : Text.slice (String.length p) (p ++ rest) = rest.
Proof. induction p; simpl; auto. Qed.

Lemma trimStart_blank (s : string) : blank s = true -> Text.trimStart s = "".
Proof.
  induction s as [|c s IH]; simpl; [reflexivity|].
  destruct (Text.isWhiteSpace c); simpl; [exact IH | discriminate].
Qed.

Lemma trimEnd_empty (s : string) : Text.trimEnd s = "" -> blank s = true.
Proof.
  induction s as [|c s IH]; simpl; [reflexivity|].
  destruct (Text.trimEnd s); [|discriminate].
  destruct (Text.isWhiteSpace c); [auto | discriminate].
Qed.

Lemma trimStart_head (s : string) :
  match Text.trimStart s with
  | "" => blank s = true
  | String c _ => Text.isWhiteSpace c = false
  end.
Proof.
  induction s as [|c s IH]; simpl; [reflexivity|].
  destruct (Text.isWhiteSpace c) eqn:E; simpl; [|exact E].
  destruct (Text.trimStart s); auto.
Qed.

Lemma trim_empty_iff (s : string) : Text.trim s = "" <-> blank s = true.
Proof.
  unfold Text.trim. split.
  - intros H. apply trimEnd_empty in H.
    pose proof (trimStart_head s) as Hh.
    destruct (Text.trimStart s) as [|c r]; [exact Hh|].
    simpl in H. rewrite Hh in H. discriminate.
  - intros H. now rewrite trimStart_blank.
Qed.

Lemma blank_append (a b : string) : blank (a ++ b) = blank a && blank b.
Proof.
  induction a as [|c a IH]; simpl; [reflexivity|].
  rewrite IH. now rewrite andb_assoc.
Qed.

Lemma hasInstructionBlock_not_blank (text : string) :
  hasInstructionBlock text -> blank text = false.
Proof.
  intros (pre & body & post & ->). rewrite blank_append. simpl.
  now rewrite andb_false_r.
Qed.

Lemma lazyUntil_eq (close s : string) :
  lazyUntil close s =
  if Text.startsWith s close then Some ""
  else match s with
       | "" => None
       | String c rest => option_map (String c) (lazyUntil close rest)
       end.
Proof. destruct s; reflexivity. Qed.

Lemma matchTagged_eq (open close s : string) :
  matchTagged open close s =
  match
    (if Text.startsWith s open then lazyUntil close (Text.slice (String.length open) s)
     else None)
  with
  | Some capture => Some capture
  | None =>
      match s with
      | "" => None
      | String _ rest => matchTagged open close rest
      end
  end.
Proof. destruct s; reflexivity. Qed.

(** The lazy quantifier stops at the first [close]. *)
Lemma lazyUntil_sound (close s x : string) :
  lazyUntil close s = Some x ->
  (exists post, s = x ++ close ++ post)
  /\ (forall x2 post2, s = x2 ++ close ++ post2 -> String.length x <= String.length x2).
Proof.
  revert x. induction s as [|c s IH]; intros x; rewrite lazyUntil_eq.
  - destruct (Text.startsWith "" close) eqn:E; [|discriminate].
    intros [= <-]. apply startsWith_iff in E as [post E].
    split; [now exists post | intros; simpl; lia].
  - destruct (Text.startsWith (String c s) close) eqn:E.
    + intros [= <-]. apply startsWith_iff in E as [post E].
      split; [now exists post | intros; simpl; lia].
    + destruct (lazyUntil close s) as [y|] eqn:Ey; [|discriminate].
      intros [= <-]. destruct (IH y eq_refl) as [[post Hpost] Hmin].
      split; [exists post; simpl; congruence|].
      intros x2 post2 H2. destruct x2 as [|d x2].
      * simpl in H2. rewrite H2, startsWith_append in E. discriminate.
      * simpl in H2. injection H2 as _ H2. simpl. apply le_n_S. eauto.
Qed.

Lemma lazyUntil_complete (close x post : string) :
  exists y, lazyUntil close (x ++ close ++ post) = Some y.
Proof.
  induction x as [|c x [y IH]]; rewrite lazyUntil_eq.
  - simpl. rewrite startsWith_append. eauto.
  - destruct (Text.startsWith _ close); [eauto|].
    simpl. rewrite IH. simpl. eauto.
Qed.

(** A match attempt at the start of the text. *)
Lemma attempt_sound (open close s cap : string) :
  (if Text.startsWith s open then lazyUntil close (Text.slice (String.length open) s)
   else None) = Some cap ->
  (exists post, s = open ++ cap ++ close ++ post)
  /\ (forall body2 post2, s = open ++ body2 ++ close ++ post2 ->
        String.length cap <= String.length body2).
Proof.
  destruct (Text.startsWith s open) eqn:E; [|discriminate].
  apply startsWith_iff in E as [r ->]. rewrite slice_append.
  intros Hc. apply lazyUntil_sound in Hc as [[post ->] Hmin].
  split; [now exists post|].
  intros body2 post2 H2. apply append_cancel_l in H2. eauto.
Qed.

Lemma attempt_complete (open close body post : string) :
  exists cap,
    (if Text.startsWith (open ++ body ++ close ++ post) open
     then lazyUntil close (Text.slice (String.length open) (open ++ body ++ close ++ post))
     else None) = Some cap.
Proof.
  rewrite startsWith_append, slice_append. apply lazyUntil_complete.
Qed.

(** The match is the leftmost one, with the shortest contents. *)
Lemma matchTagged_sound (open close s inner : string) :
  matchTagged open close s = Some inner ->
  exists pre post,
    s = pre ++ open ++ inner ++ close ++ post
    /\ (forall pre2 body2 post2, s = pre2 ++ open ++ body2 ++ close ++ post2 ->
          String.length pre <= String.length pre2)
    /\ (forall body2 post2, s = pre ++ open ++ body2 ++ close ++ post2 ->
          String.length inner <= String.length body2).
Proof.
  induction s as [|c s IH]; rewrite matchTagged_eq;
    match goal with
    | |- context [if ?b then ?x else None] =>
        destruct (if b then x else None) as [cap|] eqn:Ec
    end.
  1, 3: intros [= <-]; apply attempt_sound in Ec as [[post Hpost] Hmin];
    exists "", post; simpl; split; [exact Hpost|]; split; [intros; lia | exact Hmin].
  - discriminate.
  - intros Hrec. destruct (IH Hrec) as (pre & post & Hs & Hleft & Hlazy).
    exists (String c pre), post. split; [simpl; congruence|]. split.
    + intros pre2 body2 post2 H2. destruct pre2 as [|d pre2].
      * exfalso. simpl in H2.
        destruct (attempt_complete open close body2 post2) as [y Hy].
        rewrite <- H2, Ec in Hy. discriminate.
      * simpl in H2. injection H2 as _ H2. simpl. apply le_n_S. eauto.
    + intros body2 post2 H2. simpl in H2. injection H2 as H2. eauto.
Qed.

Lemma matchTagged_complete (open close pre body post : string) :
  exists inner, matchTagged open close (pre ++ open ++ body ++ close ++ post) = Some inner.
Proof.
  induction pre as [|c pre [inner IH]]; rewrite matchTagged_eq.
  - simpl. rewrite startsWith_append, slice_append.
    destruct (lazyUntil_complete close body post) as [y ->]. eauto.
  - destruct (if Text.startsWith _ open then _ else None); [eauto|].
    simpl. rewrite IH. eauto.
Qed.

(** C6.  [parseResponse] is a three-way total function of the accumulated
    text.  A text that holds an [<instruction>] block gives success with the
    trimmed contents of the block, the block being the leftmost one and its
    contents the shortest; a text without a block that is not blank gives
    success with the trimmed text as clarification; a blank text (empty or
    white space only) gives the failure [Empty response]. *)
Theorem parseResponse_three_way :
  forall text : string,
    (hasInstructionBlock text ->
       exists pre inner post,
         text = pre ++ "<instruction>" ++ inner ++ "</instruction>" ++ post
         /\ (forall pre2 body2 post2,
               text = pre2 ++ "<instruction>" ++ body2 ++ "</instruction>" ++ post2 ->
               String.length pre <= String.length pre2)
         /\ (forall body2 post2,
               text = pre ++ "<instruction>" ++ body2 ++ "</instruction>" ++ post2 ->
               String.length inner <= String.length body2)
         /\ parseResponse text = refined (Text.trim inner))
    /\ (~ hasInstructionBlock text -> blank text = false ->
          parseResponse text = clarify (Text.trim text) /\ Text.trim text <> "")
    /\ (blank text = true ->
          parseResponse text = failure "Empty response" /\ Text.trim text = "").
Proof.
  intros text. unfold parseResponse. split; [|split].
  - intros (pre0 & body0 & post0 & ->).
    destruct (matchTagged_complete "<instruction>" "</instruction>" pre0 body0 post0)
      as [inner Hm].
    rewrite Hm.
    destruct (matchTagged_sound _ _ _ _ Hm) as (pre & post & Hs & Hleft & Hlazy).
    exists pre, inner, post. auto.
  - intros Hno Hblank.
    assert (Hne : Text.trim text <> "").
    { intros H. apply trim_empty_iff in H. congruence. }
    destruct (matchTagged "<instruction>" "</instruction>" text) as [inner|] eqn:Hm.
    + exfalso. apply Hno.
      destruct (matchTagged_sound _ _ _ _ Hm) as (pre & post & Hs & _).
      now exists pre, inner, post.
    + apply String.eqb_neq in Hne. rewrite Hne. simpl. split; [reflexivity|].
      now apply String.eqb_neq.
  - intros Hblank.
    destruct (matchTagged "<instruction>" "</instruction>" text) as [inner|] eqn:Hm.
    + exfalso.
      destruct (matchTagged_sound _ _ _ _ Hm) as (pre & post & Hs & _).
      assert (Hb : blank text = false)
        by (apply hasInstructionBlock_not_blank; now exists pre, inner, post).
      congruence.
    + apply trim_empty_iff in Hblank. rewrite Hblank. simpl. auto.
Qed.

Example parseResponse_tagged :
  parseResponse "Sure: <instruction> - Be concise. </instruction> done"
  = refined "- Be concise.".
Proof. reflexivity. Qed.

Example parseResponse_first_block :
  parseResponse "<instruction>first</instruction> then <instruction>second</instruction>"
  = refined "first".
Proof. reflexivity. Qed.

Example parseResponse_clarification :
  parseResponse "  Which language do you mean? " = clarify "Which language do you mean?".
Proof. reflexivity. Qed.

Example parseResponse_unclosed_tag :
  parseResponse "<instruction>never closed" = clarify "<instruction>never closed".
Proof. reflexivity. Qed.

Example parseResponse_blank :
  parseResponse (String " " (String "010" (String "009" "  "))) = failure "Empty response".
Proof. reflexivity. Qed.

(** ** The conversation service *)

(** C8.  [cancel()] never raises, with or without a turn in flight; after it
    the service holds no controller, a second call in a row changes nothing,
    and a call with no controller is a no-op. *)
Theorem cancel_idempotent :
  forall m : Machine,
    (exists m', cancel m = Normal m'
                /\ abortController (this m') = None
                /\ cancel m' = Normal m')
    /\ (abortController (this m) = None -> cancel m = Normal m).
Proof.
  intros m. unfold cancel. split.
  - destruct (abortController (this m)) as [address|] eqn:E.
    + simpl. eexists. split; [reflexivity|]. simpl. auto.
    + exists m. rewrite E. auto.
  - now intros ->.
Qed.

Example cancel_in_flight :
  let m := {| this := {| abortController := Some 0; resolvedClaudePath := Some "/bin/claude";
                         sessionId := JsString "s1"; existingInstructions := "" |};
              controllers := [false]; queries := []; interrupts := 0; progress := [] |} in
  exists m', cancel m = Normal m'
             /\ controllers m' = [true]
             /\ abortController (this m') = None
             /\ sessionId (this m') = JsString "s1"
             /\ cancel m' = Normal m'.
Proof. simpl. eexists. split; [reflexivity|]. simpl. auto. Qed.

Lemma cancel_queries (m m' : Machine) : cancel m = Normal m' -> queries m' = queries m.
Proof.
  unfold cancel. destruct (abortController (this m)); simpl; now intros [= <-].
Qed.

Lemma cancel_sessionId (m m' : Machine) :
  cancel m = Normal m' -> sessionId (this m') = sessionId (this m).
Proof.
  unfold cancel. destruct (abortController (this m)); simpl; now intros [= <-].
Qed.

Lemma onMessage_queries (onProgress : bool) (message : JsValue) (text : string) (m : Machine) :
  queries (fst (onMessage onProgress message text m)) = queries m.
Proof.
  unfold onMessage.
  destruct (andThen (get message "type") _) as [[id|]|e]; simpl; try reflexivity;
    destruct (extractTextFromMessage message) as [t|e]; simpl; try reflexivity;
    destruct (negb (t =? "")); simpl; try reflexivity;
    destruct onProgress; reflexivity.
Qed.

Lemma forAwait_queries (onProgress : bool) (todo : list StreamStep) (ending : option Thrown) :
  forall (text : string) (m : Machine),
    queries (fst (forAwait onProgress todo ending text m)) = queries m.
Proof.
  induction todo as [|[message|] todo IH]; intros text m; simpl.
  - now destruct ending.
  - destruct (signalAborted _ m); [reflexivity|].
    pose proof (onMessage_queries onProgress message text m) as Hq.
    destruct (onMessage onProgress message text m) as [m1 [text1|e]]; simpl in *;
      [rewrite IH|]; exact Hq.
  - rewrite IH. destruct (cancel m) as [m1|e] eqn:E; [|reflexivity].
    now apply cancel_queries.
Qed.

Section Conversation.

Variable host : Utils.Host.
Variable plugin : Plugin.
Variables TOOL_READ TOOL_GREP TOOL_GLOB : string.
Variable THINKING_BUDGETS : list (string * Z).
Variable buildRefineSystemPrompt : string -> string.
Variable process_env : list (string * string).
Variable parseEnvironmentVariables : string -> list (string * string).
Variable agentQuery : string -> Options -> Response.

Let send := sendMessage host plugin TOOL_READ TOOL_GREP TOOL_GLOB THINKING_BUDGETS
              buildRefineSystemPrompt process_env parseEnvironmentVariables agentQuery.
Let continue_ := continueConversation host plugin TOOL_READ TOOL_GREP TOOL_GLOB
                   THINKING_BUDGETS buildRefineSystemPrompt process_env
                   parseEnvironmentVariables agentQuery.

(** A turn contacts the runtime at most once, and what it sends carries the
    stored session id as [resume] exactly when there is one. *)
Lemma sendMessage_queries (prompt : string) (onProgress : bool) (m : Machine) :
  queries (fst (send prompt onProgress m)) = queries m
  \/ exists options,
       queries (fst (send prompt onProgress m)) = (queries m ++ [(prompt, options)])%list
       /\ resume options
          = (if truthy (sessionId (this m)) then Some (sessionId (this m)) else None).
Proof.
  unfold send, sendMessage, Utils.getVaultPath.
  destruct (adapterBasePath plugin) as [vaultPath|]; [|now left].
  destruct (vaultPath =? ""); [now left|].
  set (m1 := if truthyText (resolvedClaudePath (this m)) then m else _).
  assert (Hq : queries m1 = queries m)
    by (subst m1; now destruct (truthyText _)).
  assert (Hs : sessionId (this m1) = sessionId (this m))
    by (subst m1; now destruct (truthyText _)).
  destruct (resolvedClaudePath (this m1)) as [claudePath|]; [|left; exact Hq].
  destruct (claudePath =? ""); [left; exact Hq|].
  right.
  match goal with
  | |- context [forAwait ?p ?t ?e ?x ?mm] =>
      pose proof (forAwait_queries p t e x mm) as Hf;
      destruct (forAwait p t e x mm) as [m2 exit]
  end.
  simpl in *. eexists. rewrite Hf, Hq. split; [reflexivity|].
  simpl. now rewrite Hs.
Qed.

(** The same turn when the vault and the executable are known. *)
Lemma sendMessage_contacts_runtime (prompt : string) (onProgress : bool) (m : Machine)
    (vaultPath : string) :
  adapterBasePath plugin = Some vaultPath -> vaultPath <> "" ->
  truthyText (resolvedClaudePath (this m)) = true
  \/ truthyText (Utils.findClaudeCLIPath host) = true ->
  exists options,
    queries (fst (send prompt onProgress m)) = (queries m ++ [(prompt, options)])%list
    /\ optCwd options = vaultPath
    /\ resume options
       = (if truthy (sessionId (this m)) then Some (sessionId (this m)) else None).
Proof.
  intros Hvault Hne Hcli.
  unfold send, sendMessage, Utils.getVaultPath. rewrite Hvault.
  apply String.eqb_neq in Hne. rewrite Hne.
  set (m1 := if truthyText (resolvedClaudePath (this m)) then m else _).
  assert (Hq : queries m1 = queries m)
    by (subst m1; now destruct (truthyText _)).
  assert (Hs : sessionId (this m1) = sessionId (this m))
    by (subst m1; now destruct (truthyText _)).
  assert (Hc : truthyText (resolvedClaudePath (this m1)) = true).
  { subst m1. destruct (truthyText (resolvedClaudePath (this m))) eqn:E; [exact E|].
    destruct Hcli as [H|H]; [discriminate|exact H]. }
  destruct (resolvedClaudePath (this m1)) as [claudePath|]; [|discriminate].
  simpl in Hc. apply negb_true_iff in Hc. rewrite Hc.
  match goal with
  | |- context [forAwait ?p ?t ?e ?x ?mm] =>
      pose proof (forAwait_queries p t e x mm) as Hf;
      destruct (forAwait p t e x mm) as [m2 exit]
  end.
  simpl in *. eexists. rewrite Hf, Hq. split; [reflexivity|].
  simpl. now rewrite Hs.
Qed.

(** C7.  Without a session identity ([sessionId] is [null], or falsy)
    [continueConversation] returns the failure [No active conversation to
    continue] and leaves the service as it was: the runtime is not
    contacted.  With one, whatever the turn sends to the runtime carries
    [resume] equal to the stored session id, and the turn does reach the
    runtime when the vault path and the executable are known. *)
Theorem continueConversation_resumes_session :
  forall (message : string) (onProgress : bool) (m : Machine),
    (truthy (sessionId (this m)) = false ->
       continue_ message onProgress m = (m, failure "No active conversation to continue"))
    /\ (sessionId (this m) = JsNull ->
          continue_ message onProgress m = (m, failure "No active conversation to continue")
          /\ queries (fst (continue_ message onProgress m)) = queries m)
    /\ (truthy (sessionId (this m)) = true ->
          (queries (fst (continue_ message onProgress m)) = queries m
           \/ exists options,
                queries (fst (continue_ message onProgress m))
                = (queries m ++ [(message, options)])%list
                /\ resume options = Some (sessionId (this m)))
          /\ (forall vaultPath,
                adapterBasePath plugin = Some vaultPath -> vaultPath <> "" ->
                truthyText (resolvedClaudePath (this m)) = true
                \/ truthyText (Utils.findClaudeCLIPath host) = true ->
                exists options,
                  queries (fst (continue_ message onProgress m))
                  = (queries m ++ [(message, options)])%list
                  /\ resume options = Some (sessionId (this m)))).
Proof.
  intros message onProgress m. unfold continue_, continueConversation.
  split; [|split].
  - now intros ->.
  - intros H. rewrite H. simpl. auto.
  - intros H. rewrite H. simpl. fold send. split.
    + destruct (sendMessage_queries message onProgress m) as [Hq|[options [Hq Hr]]];
        [now left | right].
      exists options. now rewrite H in Hr.
    + intros vaultPath Hvault Hne Hcli.
      destruct (sendMessage_contacts_runtime message onProgress m vaultPath Hvault Hne Hcli)
        as (options & Hq & _ & Hr).
      exists options. now rewrite H in Hr.
Qed.

End Conversation.

(** ** The vault restriction hooks *)

Section VaultRestriction.

Variable TOOL_BASH : string.
Variables isEditTool isFileTool : string -> bool.
Variable getPathFromToolInput : string -> JsValue -> option string.
Variable candidatePaths : JsValue -> list (string * SecurityHooks.Intent).
Variable St : Type.
Variable context : SecurityHooks.VaultRestrictionContext St.

Let hook := SecurityHooks.createVaultRestrictionHook TOOL_BASH isEditTool isFileTool
              getPathFromToolInput candidatePaths St context.

(** The command and the context the hook hands to the scanner. *)
Let commandOf (tool_input : JsValue) : JsValue :=
  jsOr (getOpt tool_input "command") (JsString "").
Let pathCheckContext : SecurityHooks.PathCheckContext :=
  {| SecurityHooks.pathIsWithinVault := fun p => SecurityHooks.isPathWithinVault context p;
     SecurityHooks.pathIsAllowedExport := fun p => SecurityHooks.isAllowedExportPath context p |}.

Lemma firstViolation_append (ctx : SecurityHooks.PathCheckContext)
    (before after : list (string * SecurityHooks.Intent)) :
  SecurityHooks.firstViolation ctx before = None ->
  SecurityHooks.firstViolation ctx (before ++ after)%list
  = SecurityHooks.firstViolation ctx after.
Proof.
  induction before as [|c before IH]; simpl; [reflexivity|].
  destruct (SecurityHooks.checkCandidate ctx c); [discriminate | exact IH].
Qed.

Lemma firstViolation_none (ctx : SecurityHooks.PathCheckContext)
    (candidates : list (string * SecurityHooks.Intent)) :
  Forall (fun c => SecurityHooks.checkCandidate ctx c = None) candidates ->
  SecurityHooks.firstViolation ctx candidates = None.
Proof.
  induction 1 as [|c rest Hc _ IH]; simpl; [reflexivity|]. now rewrite Hc.
Qed.

(** C2.  For a path [p] outside Root.  A file tool other than the shell
    tool whose extracted path is [p] is let through exactly when it is an
    edit tool and [p] satisfies the export-path predicate: the one way past
    Root, on which [onEditBlocked] does not fire.  A shell command whose
    first offending candidate is [p], under an export path and with read
    intent, is denied: the violation is an export-path read and the reason
    says that export paths are write-only.  With write intent such a [p] is
    no violation, and a shell command whose candidates are all writes under
    export paths is let through. *)
Theorem export_path_is_write_only :
  forall (toolName : string) (tool_input : JsValue) (st : St) (p : string),
    SecurityHooks.isPathWithinVault context p = false ->
    (toolName <> TOOL_BASH -> isFileTool toolName = true ->
       getPathFromToolInput toolName tool_input = Some p -> p <> "" ->
       continue (fst (hook toolName tool_input st))
       = isEditTool toolName && SecurityHooks.isAllowedExportPath context p)
    /\ (toolName <> TOOL_BASH -> isEditTool toolName = true ->
          SecurityHooks.isAllowedExportPath context p = true ->
          getPathFromToolInput toolName tool_input = Some p ->
          hook toolName tool_input st = (allow, st))
    /\ (toolName = TOOL_BASH ->
          SecurityHooks.isAllowedExportPath context p = true ->
          forall before after,
            candidatePaths (commandOf tool_input)
            = (before ++ (p, SecurityHooks.ReadIntent) :: after)%list ->
            SecurityHooks.firstViolation pathCheckContext before = None ->
            SecurityHooks.findBashCommandPathViolation candidatePaths
              (commandOf tool_input) pathCheckContext
            = Some {| SecurityHooks.type := SecurityHooks.export_path_read;
                      SecurityHooks.path := p |}
            /\ hook toolName tool_input st
               = (deny ("Access denied: Command path " ++ Text.dquote ++ p ++ Text.dquote
                        ++ " is in an allowed export directory, but export paths are write-only."),
                  st))
    /\ (SecurityHooks.isAllowedExportPath context p = true ->
          SecurityHooks.checkCandidate pathCheckContext (p, SecurityHooks.WriteIntent) = None)
    /\ (toolName = TOOL_BASH ->
          Forall (fun c => snd c = SecurityHooks.WriteIntent
                           /\ SecurityHooks.isAllowedExportPath context (fst c) = true)
                 (candidatePaths (commandOf tool_input)) ->
          hook toolName tool_input st = (allow, st)).
Proof.
  intros toolName tool_input st p Hout.
  unfold hook, SecurityHooks.createVaultRestrictionHook.
  fold (commandOf tool_input). fold pathCheckContext.
  split; [|split; [|split; [|split]]].
  - intros Hbash Hfile Hpath Hne.
    apply String.eqb_neq in Hbash. apply String.eqb_neq in Hne.
    rewrite Hbash, Hfile, Hpath, Hout, Hne. simpl.
    now destruct (isEditTool toolName), (SecurityHooks.isAllowedExportPath context p).
  - intros Hbash Hedit Hexport Hpath. apply String.eqb_neq in Hbash. rewrite Hbash.
    destruct (isFileTool toolName); simpl; [|reflexivity].
    rewrite Hpath, Hout, Hedit, Hexport. simpl.
    now destruct (negb (p =? "")).
  - intros -> Hexport before after Hc Hbefore. rewrite String.eqb_refl.
    assert (Hv : SecurityHooks.findBashCommandPathViolation candidatePaths
                   (commandOf tool_input) pathCheckContext
                 = Some {| SecurityHooks.type := SecurityHooks.export_path_read;
                           SecurityHooks.path := p |}).
    { unfold SecurityHooks.findBashCommandPathViolation.
      rewrite Hc, firstViolation_append by assumption.
      simpl. now rewrite Hexport. }
    split; [exact Hv|]. now rewrite Hv.
  - intros Hexport. simpl. now rewrite Hexport.
  - intros -> Hall. rewrite String.eqb_refl.
    unfold SecurityHooks.findBashCommandPathViolation.
    rewrite firstViolation_none; [reflexivity|].
    eapply Forall_impl; [|exact Hall].
    intros [q intent] [Hi Hq]; simpl in *. subst intent. now rewrite Hq.
Qed.

(** In the shared hook a tool other than the shell tool whose path
    extraction yields nothing, or the empty string, is let through. *)
Lemma shared_hook_fails_open (toolName : string) (tool_input : JsValue) (st : St) :
  toolName <> TOOL_BASH ->
  getPathFromToolInput toolName tool_input = None
  \/ getPathFromToolInput toolName tool_input = Some "" ->
  hook toolName tool_input st = (allow, st).
Proof.
  intros Hbash Hpath. unfold hook, SecurityHooks.createVaultRestrictionHook.
  apply String.eqb_neq in Hbash. rewrite Hbash.
  destruct (isFileTool toolName); simpl; [|reflexivity].
  now destruct Hpath as [-> | ->].
Qed.

End VaultRestriction.

(** In the hook of the refine service, when the path expression yields a
    falsy value (it is then the empty string), the call is let through. *)
Lemma refine_hook_fails_open (host : Utils.Host) (vaultPath toolName : string)
    (toolInput filePath : JsValue) :
  filePathOf toolName toolInput = Normal filePath -> truthy filePath = false ->
  InstructionRefineService.createVaultRestrictionHook host vaultPath toolName toolInput
  = Normal allow.
Proof.
  intros Hpath Hfalsy. unfold InstructionRefineService.createVaultRestrictionHook.
  destruct (_ || _); [|reflexivity].
  rewrite Hpath. simpl. now rewrite Hfalsy.
Qed.

Lemma filePathOf_falsy_argument (toolName : string) (props : list (string * JsValue)) :
  (if toolName =? "Read" then truthy (lookup "file_path" props) = false
   else truthy (lookup "path" props) = false /\ truthy (lookup "pattern" props) = false) ->
  filePathOf toolName (JsObject props) = Normal (JsString "").
Proof.
  unfold filePathOf. destruct (toolName =? "Read"); simpl.
  - intros H. unfold jsOr. now rewrite H.
  - intros [H1 H2]. rewrite H1. simpl. unfold jsOr. now rewrite H1, H2.
Qed.

(** In the hook of the refine service, a truthy path value that is not a
    string reaches the containment check, which throws on it. *)
Lemma refine_hook_throws (host : Utils.Host) (vaultPath toolName : string)
    (toolInput filePath : JsValue) :
  isFilePathTool toolName = true ->
  filePathOf toolName toolInput = Normal filePath ->
  truthy filePath = true -> isString filePath = false ->
  InstructionRefineService.createVaultRestrictionHook host vaultPath toolName toolInput
  = Throw notAFunction.
Proof.
  unfold isFilePathTool. intros Htool Hpath Htruthy Hstring.
  unfold InstructionRefineService.createVaultRestrictionHook.
  rewrite Htool, Hpath. simpl. rewrite Htruthy.
  destruct filePath; try discriminate Hstring; reflexivity.
Qed.

Lemma unextractable_truthy (v : JsValue) :
  unextractable v = true -> truthy v = true -> isString v = false.
Proof.
  destruct v; simpl; try reflexivity. intros ->. discriminate.
Qed.

Lemma filePathOf_unextractable (toolName : string) (props : list (string * JsValue)) :
  (if toolName =? "Read" then unextractable (lookup "file_path" props) = true
   else unextractable (lookup "path" props) = true
        /\ unextractable (lookup "pattern" props) = true) ->
  exists filePath,
    filePathOf toolName (JsObject props) = Normal filePath
    /\ (truthy filePath = false \/ isString filePath = false).
Proof.
  unfold filePathOf, jsOr. destruct (toolName =? "Read"); simpl.
  - intros H. destruct (truthy (lookup "file_path" props)) eqn:E.
    + eexists. split; [reflexivity|]. right. now apply unextractable_truthy.
    + eexists. split; [reflexivity|]. now left.
  - intros [H1 H2]. destruct (truthy (lookup "path" props)) eqn:E1; simpl.
    + rewrite ?E1. eexists. split; [reflexivity|]. right. now apply unextractable_truthy.
    + rewrite ?E1. destruct (truthy (lookup "pattern" props)) eqn:E2.
      * eexists. split; [reflexivity|]. right. now apply unextractable_truthy.
      * eexists. split; [reflexivity|]. now left.
Qed.

(** C10, as stated: every file tool call whose path argument is missing,
    empty or of a wrong type gets [{ continue: true }].  It fails in the hook
    of the refine service on a path argument of a wrong type that is truthy,
    such as the number 123: the path expression [toolInput.file_path || '']
    yields the number, and the containment check throws on it, so that the
    hook returns no decision at all. *)
Lemma wrongly_typed_path_throws :
  ~ (forall (host : Utils.Host) (vaultPath toolName : string) (props : list (string * JsValue)),
       isFilePathTool toolName = true ->
       (if toolName =? "Read" then unextractable (lookup "file_path" props) = true
        else unextractable (lookup "path" props) = true
             /\ unextractable (lookup "pattern" props) = true) ->
       exists result,
         InstructionRefineService.createVaultRestrictionHook host vaultPath toolName
           (JsObject props) = Normal result
         /\ continue result = true).
Proof.
  intros H.
  destruct (H emptyHost "/vault" "Read" [("file_path", JsNumber 123)] eq_refl eq_refl)
    as (result & Hresult & _).
  discriminate Hresult.
Qed.

(** C10, amended.  A file tool call with no extractable path is never denied
    by containment.  In the shared hook, a tool other than the shell tool
    whose extracted path is [null] or empty gets [{ continue: true }], and
    the edit-tracking state is untouched.  In the hook of the refine service
    the call gets [{ continue: true }] when the path expression yields a
    falsy value, as it does whenever the path argument of the tool input is
    missing, empty or of a falsy wrong type; when the path expression yields
    a truthy value that is not a string, the hook throws a [TypeError]
    instead of returning a decision.  So a call whose path arguments are
    missing, empty or not strings is let through or makes the hook throw,
    and is not denied. *)
Theorem hook_without_path_continues :
  forall (TOOL_BASH : string) (isEditTool isFileTool : string -> bool)
         (getPathFromToolInput : string -> JsValue -> option string)
         (candidatePaths : JsValue -> list (string * SecurityHooks.Intent))
         (St : Type) (context : SecurityHooks.VaultRestrictionContext St)
         (host : Utils.Host) (vaultPath : string)
         (toolName : string) (tool_input : JsValue) (st : St),
    (toolName <> TOOL_BASH ->
       getPathFromToolInput toolName tool_input = None
       \/ getPathFromToolInput toolName tool_input = Some "" ->
       SecurityHooks.createVaultRestrictionHook TOOL_BASH isEditTool isFileTool
         getPathFromToolInput candidatePaths St context toolName tool_input st
       = (allow, st))
    /\ (forall filePath,
          filePathOf toolName tool_input = Normal filePath -> truthy filePath = false ->
          InstructionRefineService.createVaultRestrictionHook host vaultPath toolName tool_input
          = Normal allow)
    /\ (forall props,
          tool_input = JsObject props ->
          (if toolName =? "Read" then truthy (lookup "file_path" props) = false
           else truthy (lookup "path" props) = false
                /\ truthy (lookup "pattern" props) = false) ->
          InstructionRefineService.createVaultRestrictionHook host vaultPath toolName tool_input
          = Normal allow)
    /\ (forall filePath,
          isFilePathTool toolName = true ->
          filePathOf toolName tool_input = Normal filePath ->
          truthy filePath = true -> isString filePath = false ->
          InstructionRefineService.createVaultRestrictionHook host vaultPath toolName tool_input
          = Throw notAFunction)
    /\ (forall props,
          tool_input = JsObject props ->
          (if toolName =? "Read" then unextractable (lookup "file_path" props) = true
           else unextractable (lookup "path" props) = true
                /\ unextractable (lookup "pattern" props) = true) ->
          InstructionRefineService.createVaultRestrictionHook host vaultPath toolName tool_input
          = Normal allow
          \/ InstructionRefineService.createVaultRestrictionHook host vaultPath toolName
               tool_input
             = Throw notAFunction)
    /\ continue allow = true.
Proof.
  intros. split; [|split; [|split; [|split; [|split]]]].
  - apply shared_hook_fails_open.
  - apply refine_hook_fails_open.
  - intros props -> H. eapply refine_hook_fails_open.
    + now apply filePathOf_falsy_argument.
    + reflexivity.
  - intros filePath. apply refine_hook_throws.
  - intros props -> H.
    destruct (filePathOf_unextractable toolName props H) as (filePath & Hpath & Hcase).
    destruct (truthy filePath) eqn:Htruthy.
    + destruct (isFilePathTool toolName) eqn:Htool.
      * right. destruct Hcase as [Hcase|Hcase]; [discriminate|].
        now apply (refine_hook_throws host vaultPath toolName _ filePath).
      * left. unfold InstructionRefineService.createVaultRestrictionHook.
        unfold isFilePathTool in Htool. now rewrite Htool.
    + left. now apply (refine_hook_fails_open host vaultPath toolName _ filePath).
  - reflexivity.
Qed.

(** ** The message transformer *)

Ltac gen_unfold :=
  unfold transformSDKMessage, assistantBlock, userBlock, userMessage, streamEvent,
    contentBlocks, resultContent, syntheticBlockId, syntheticStreamId, dateNow,
    mathRandomToString36, ifM, andM, propIs, propTruthy, read, bind, ret, yield,
    get, getOpt in *.

Ltac split_all :=
  repeat (cbn in *;
          match goal with
          | |- context [if ?b then _ else _] => destruct b eqn:?
          | |- context [match ?v with JsUndefined => _ | _ => _ end] => destruct v eqn:?
          end);
  cbn in *.

Ltac extend_routed :=
  auto; try (apply Forall_app; split; [assumption|]; repeat constructor).

Lemma contentBlocks_eq (m : JsValue) (s : GenState) :
  contentBlocks m s
  = (match get m "message" with
     | Normal _ => Normal (blocksOf m)
     | Throw e => Throw e
     end, s).
Proof.
  unfold contentBlocks, blocksOf, read, bind, ret, get, getOpt.
  destruct m; try reflexivity.
  destruct (lookup "message" props); try reflexivity.
  destruct (lookup "content" props0); try reflexivity; cbn;
    match goal with |- context [if ?b then _ else _] => now destruct b end.
Qed.

(** *** Routing *)

Lemma assistantBlock_routed (w : World) (p block : JsValue) (s : GenState) :
  Forall (routed p) (yielded s) ->
  Forall (routed p) (yielded (snd (assistantBlock w p block s))).
Proof. intros H. gen_unfold. split_all; extend_routed. Qed.

Lemma userBlock_routed (str : JsValue -> JsValue) (m p block : JsValue) (s : GenState) :
  Forall (routed p) (yielded s) ->
  Forall (routed p) (yielded (snd (userBlock str m p block s))).
Proof. intros H. gen_unfold. split_all; extend_routed. Qed.

Lemma forOf_routed (body : JsValue -> Gen unit) (p : JsValue) :
  (forall x s, Forall (routed p) (yielded s) ->
               Forall (routed p) (yielded (snd (body x s)))) ->
  forall items s, Forall (routed p) (yielded s) ->
                  Forall (routed p) (yielded (snd (forOf body items s))).
Proof.
  intros Hb. induction items as [|x items IH]; intros s H; simpl; [assumption|].
  unfold bind. specialize (Hb x s H).
  destruct (body x s) as [[[]|e] s']; simpl in *; auto.
Qed.

Lemma streamEvent_routed (w : World) (m p : JsValue) (s : GenState) :
  Forall (routed p) (yielded s) ->
  Forall (routed p) (yielded (snd (streamEvent w m p s))).
Proof. intros H. gen_unfold. split_all; extend_routed. Qed.

Lemma userMessage_routed (str : JsValue -> JsValue) (m p : JsValue) (s : GenState) :
  Forall (routed p) (yielded s) ->
  Forall (routed p) (yielded (snd (userMessage str m p s))).
Proof.
  intros H. unfold userMessage, contentBlocks, ifM, andM, propTruthy, read, bind, ret, yield, get.
  destruct m; cbn; auto.
  repeat match goal with
         | |- context [if ?b then _ else _] => destruct b eqn:?; cbn
         end;
    try (apply forOf_routed; [intros; now apply userBlock_routed|]); cbn; extend_routed.
Qed.

Lemma transformSDKMessage_routed (str : JsValue -> JsValue) (w : World) (m : JsValue)
    (s : GenState) :
  Forall (routed (nestedTaskOf m)) (yielded s) ->
  Forall (routed (nestedTaskOf m)) (yielded (snd (transformSDKMessage str w m s))).
Proof.
  intros H. unfold transformSDKMessage, nestedTaskOf.
  destruct m; try exact H;
    unfold read, bind, get; cbn [fst snd getOpt];
    repeat match goal with
           | |- context [if strictEqStr ?v ?t then _ else _] =>
               destruct (strictEqStr v t) eqn:?
           end;
    try exact H;
    try (now apply userMessage_routed);
    try (now apply streamEvent_routed);
    try (unfold contentBlocks, read, bind, ret, get; cbn;
         apply forOf_routed; [intros; now apply assistantBlock_routed | exact H]);
    gen_unfold; split_all; extend_routed.
Qed.

(** C9, as stated: every event but the session-identity signal carries the
    nested-task identifier of its message.  It fails on the [blocked] chunk
    of a denial-flagged user message, which has the reason as [content] and
    no [parentToolUseId]. *)
Lemma blocked_chunk_carries_no_parent :
  ~ (forall (str : JsValue -> JsValue) (w : World) (m : JsValue) (e : TransformEvent),
       In e (fst (run str w m)) -> isSessionInitEvent e = false ->
       parentToolUseIdOf e = nestedTaskOf m).
Proof.
  intros H.
  specialize (H (fun v => v) someWorld blockedMessage (BlockedChunk (JsString "Access denied"))).
  vm_compute in H. specialize (H (or_introl eq_refl) eq_refl). discriminate H.
Qed.

(** C9, amended.  Every thinking, text, tool-use and tool-result chunk the
    transformer emits carries the nested-task identifier of its message
    ([parent_tool_use_id], [null] when absent) as [parentToolUseId]; blocked
    and error chunks, like the session-identity signal, have no
    [parentToolUseId]. *)
Theorem chunks_carry_parent_tool_use_id :
  forall (str : JsValue -> JsValue) (w : World) (m : JsValue) (e : TransformEvent),
    In e (fst (run str w m)) ->
    match e with
    | ThinkingChunk _ _ | TextChunk _ _ | ToolUseChunk _ _ _ _ | ToolResultChunk _ _ _ _ =>
        parentToolUseIdOf e = nestedTaskOf m
    | BlockedChunk _ | ErrorChunk _ | SessionInit _ =>
        parentToolUseIdOf e = JsUndefined
    end.
Proof.
  intros str w m e Hin.
  assert (Hall : Forall (routed (nestedTaskOf m)) (fst (run str w m))).
  { unfold run.
    pose proof (transformSDKMessage_routed str w m {| yielded := []; draws := 0 |}
                  (Forall_nil _)) as H.
    destruct (transformSDKMessage str w m _) as [c s]. exact H. }
  rewrite Forall_forall in Hall. specialize (Hall e Hin).
  destruct e; simpl in *; auto.
Qed.

(** A sub-task's assistant message: its text and tool-use chunks carry the
    identifier of the sub-task. *)
Lemma chunks_carry_parent_tool_use_id_witness :
  let m := JsObject [("type", JsString "assistant"); ("parent_tool_use_id", JsString "toolu_1");
                     ("message",
                      JsObject [("content",
                                 JsArray [JsObject [("type", JsString "text");
                                                    ("text", JsString "Reading.")];
                                          JsObject [("type", JsString "tool_use");
                                                    ("id", JsString "toolu_2");
                                                    ("name", JsString "Read")]])])] in
  let e := ToolUseChunk (JsString "toolu_2") (JsString "Read") (JsObject [])
             (JsString "toolu_1") in
  In e (fst (run (fun v => v) someWorld m))
  /\ parentToolUseIdOf e = nestedTaskOf m.
Proof.
  intros m e.
  assert (Hin : In e (fst (run (fun v => v) someWorld m)))
    by (vm_compute; right; left; reflexivity).
  split; [exact Hin|].
  exact (chunks_carry_parent_tool_use_id (fun v => v) someWorld m e Hin).
Defined.

(** *** Totality *)

Lemma further_nothing (s : GenState) : further s [] (draws s) = s.
Proof. destruct s. unfold further. simpl. now rewrite app_nil_r. Qed.

Ltac yields_by_cases :=
  unfold further; gen_unfold; split_all; rewrite ?app_nil_r;
  try reflexivity; try congruence.

Lemma assistantBlock_yields (w : World) (p block : JsValue) (s : GenState) :
  isNullish block = false ->
  assistantBlock w p block s
  = (Normal tt,
     further s (fst (Increments.ofAssistantBlock w p (draws s) block))
       (snd (Increments.ofAssistantBlock w p (draws s) block))).
Proof.
  intros H. unfold Increments.ofAssistantBlock, madeUpBlockId. destruct s as [ys n].
  destruct block; try discriminate H; yields_by_cases.
Qed.

Lemma userBlock_yields (str : JsValue -> JsValue) (m p block : JsValue) (s : GenState) :
  isNullish m = false -> isNullish block = false ->
  userBlock str m p block s
  = (Normal tt, further s (Increments.ofUserBlock str p m block) (draws s)).
Proof.
  intros Hm H. unfold Increments.ofUserBlock, Increments.payload. destruct s as [ys n].
  destruct block; try discriminate H; destruct m; try discriminate Hm; yields_by_cases.
Qed.

Lemma further_further (s : GenState) (e1 e2 : list TransformEvent) (n1 n2 : nat) :
  further (further s e1 n1) e2 n2 = further s (e1 ++ e2) n2.
Proof. unfold further. simpl. now rewrite app_assoc. Qed.

Lemma assistantBlocks_yield (w : World) (p : JsValue) (blocks : list JsValue) :
  Forall (fun block => isNullish block = false) blocks ->
  forall s,
    forOf (assistantBlock w p) blocks s
    = (Normal tt,
       further s (fst (Increments.ofAssistantBlocks w p (draws s) blocks))
         (snd (Increments.ofAssistantBlocks w p (draws s) blocks))).
Proof.
  induction 1 as [|block blocks Hblock _ IH]; intros s; simpl.
  - now rewrite further_nothing.
  - unfold bind. rewrite (assistantBlock_yields w p block s Hblock), IH.
    destruct (Increments.ofAssistantBlock w p (draws s) block) as [events n'].
    cbn [fst snd further draws].
    destruct (Increments.ofAssistantBlocks w p n' blocks) as [more n''].
    cbn [fst snd]. now rewrite further_further.
Qed.

Lemma userBlocks_yield (str : JsValue -> JsValue) (m p : JsValue) (blocks : list JsValue) :
  isNullish m = false ->
  Forall (fun block => isNullish block = false) blocks ->
  forall s,
    forOf (userBlock str m p) blocks s
    = (Normal tt, further s (flat_map (Increments.ofUserBlock str p m) blocks) (draws s)).
Proof.
  intros Hm. induction 1 as [|block blocks Hblock _ IH]; intros s; simpl.
  - now rewrite further_nothing.
  - unfold bind. rewrite (userBlock_yields str m p block s Hm Hblock), IH.
    cbn [draws further]. now rewrite further_further.
Qed.

Lemma strictEqStr_both (v : JsValue) (a b : string) :
  strictEqStr v a = true -> strictEqStr v b = true -> a = b.
Proof.
  destruct v; try discriminate. simpl. rewrite !String.eqb_eq. congruence.
Qed.

Ltac strict_clash :=
  match goal with
  | H1 : strictEqStr ?v ?a = true, H2 : strictEqStr ?v ?b = true |- _ =>
      now pose proof (strictEqStr_both v a b H1 H2)
  end.

Lemma streamEvent_yields (w : World) (m p : JsValue) :
  isNullish m = false ->
  fst (streamEvent w m p {| yielded := []; draws := 0 |}) = Normal tt
  /\ yielded (snd (streamEvent w m p {| yielded := []; draws := 0 |}))
     = Increments.ofStreamEvent w p (getOpt m "event").
Proof.
  intros Hm. unfold Increments.ofStreamEvent, madeUpStreamId.
  destruct m; try discriminate Hm; gen_unfold; split_all;
    try (split; reflexivity); try (split; congruence); strict_clash.
Qed.

Lemma userMessage_yields (str : JsValue -> JsValue) (props : list (string * JsValue))
    (p : JsValue) :
  (negb (truthy (lookup "_blocked" props) && truthy (lookup "_blockReason" props)) = true ->
   Forall (fun block => isNullish block = false) (blocksOf (JsObject props))) ->
  let r := userMessage str (JsObject props) p {| yielded := []; draws := 0 |} in
  fst r = Normal tt
  /\ yielded (snd r) = Increments.ofUserMessage str p (JsObject props).
Proof.
  intros Hblocks. unfold userMessage, Increments.ofUserMessage, Increments.payload.
  unfold ifM, andM, propTruthy, read, bind, ret, yield, get, resultContent.
  cbn [getOpt fst snd].
  destruct (truthy (lookup "_blocked" props)) eqn:E1; cbn [andb negb] in *.
  - destruct (truthy (lookup "_blockReason" props)) eqn:E2; cbn [andb negb] in *.
    + split; reflexivity.
    + destruct (isDefined (lookup "tool_use_result" props)); cbn [andb];
        [destruct (truthy (lookup "parent_tool_use_id" props))|];
        cbn [fst snd]; rewrite contentBlocks_eq; cbn [get];
        rewrite (userBlocks_yield str (JsObject props) p _ eq_refl (Hblocks eq_refl));
        split; reflexivity.
  - destruct (isDefined (lookup "tool_use_result" props)); cbn [andb];
      [destruct (truthy (lookup "parent_tool_use_id" props))|];
      cbn [fst snd]; rewrite contentBlocks_eq; cbn [get];
      rewrite (userBlocks_yield str (JsObject props) p _ eq_refl (Hblocks eq_refl));
      split; reflexivity.
Qed.

(** On a message it can read the transformer completes, and what it yields
    are the increments of the recognized parts. *)
Lemma run_yields (str : JsValue -> JsValue) (w : World) (m : JsValue) :
  transformable m -> run str w m = (Increments.ofMessage str w m, Normal tt).
Proof.
  intros [Hm Hblocks]. unfold run, Increments.ofMessage, nestedTaskOf.
  destruct m as [| | | | |items|props]; try discriminate Hm; try reflexivity.
  unfold transformSDKMessage, read, bind, get, readsContent in *.
  cbn [getOpt fst snd] in *.
  set (p := nullishCoalesce _ _).
  destruct (strictEqStr (lookup "type" props) "system") eqn:Esystem.
  { gen_unfold; split_all; reflexivity. }
  destruct (strictEqStr (lookup "type" props) "assistant") eqn:Eassistant.
  { rewrite contentBlocks_eq. cbn [get].
    rewrite (assistantBlocks_yield w p _ (Hblocks eq_refl)). reflexivity. }
  destruct (strictEqStr (lookup "type" props) "user") eqn:Euser.
  { destruct (userMessage_yields str props p) as [Hc Hy].
    - intros Hflag. apply Hblocks. cbn [orb andb]. exact Hflag.
    - cbv zeta in Hc, Hy.
      destruct (userMessage str (JsObject props) p _) as [c s]. simpl in *. now rewrite Hc, Hy. }
  destruct (strictEqStr (lookup "type" props) "stream_event") eqn:Estream.
  { destruct (streamEvent_yields w (JsObject props) p eq_refl) as [Hc Hy].
    destruct (streamEvent w (JsObject props) p _) as [c s]. simpl in *. now rewrite Hc, Hy. }
  destruct (strictEqStr (lookup "type" props) "result") eqn:Eresult; [reflexivity|].
  destruct (strictEqStr (lookup "type" props) "error") eqn:Eerror; [|reflexivity].
  gen_unfold; split_all; reflexivity.
Qed.

Lemma forOf_completed (body : JsValue -> Gen unit) (items : list JsValue) :
  (forall x s, isNullish x = true -> fst (body x s) <> Normal tt) ->
  forall s, fst (forOf body items s) = Normal tt ->
            Forall (fun x => isNullish x = false) items.
Proof.
  intros Hbody. induction items as [|x items IH]; intros s H; [constructor|].
  simpl in H. unfold bind in H. specialize (Hbody x s).
  destruct (body x s) as [[[]|e] s']; simpl in *; [|discriminate].
  constructor; [|now apply (IH s')].
  destruct (isNullish x); [|reflexivity]. now elim Hbody.
Qed.

Lemma assistantBlock_nullish_throws (w : World) (p block : JsValue) (s : GenState) :
  isNullish block = true -> fst (assistantBlock w p block s) <> Normal tt.
Proof. destruct block; try discriminate; intros _; discriminate. Qed.

Lemma userBlock_nullish_throws (str : JsValue -> JsValue) (m p block : JsValue)
    (s : GenState) :
  isNullish block = true -> fst (userBlock str m p block s) <> Normal tt.
Proof. destruct block; try discriminate; intros _; discriminate. Qed.

(** A run that completes has read a message that can be read. *)
Lemma run_completed (str : JsValue -> JsValue) (w : World) (m : JsValue) :
  snd (run str w m) = Normal tt -> transformable m.
Proof.
  intros H. unfold transformable.
  destruct m as [| | | | |items|props]; try discriminate H;
    try (split; [reflexivity | discriminate]).
  split; [reflexivity|]. unfold readsContent, blocksOf. cbn [getOpt].
  unfold run, transformSDKMessage, read, bind, get in H. cbn [fst snd] in H.
  set (p := nullishCoalesce _ _) in H.
  destruct (strictEqStr (lookup "type" props) "system") eqn:Esystem.
  { destruct (strictEqStr (lookup "type" props) "assistant") eqn:Ea; [strict_clash|].
    destruct (strictEqStr (lookup "type" props) "user") eqn:Eu; [strict_clash|].
    discriminate. }
  destruct (strictEqStr (lookup "type" props) "assistant") eqn:Eassistant.
  { intros _. rewrite contentBlocks_eq in H. cbn [get] in H.
    apply (forOf_completed (assistantBlock w p)) with (s := {| yielded := []; draws := 0 |}).
    - intros x s. apply assistantBlock_nullish_throws.
    - unfold blocksOf in H. cbn [getOpt] in H.
      destruct (forOf (assistantBlock w p) _ _) as [c s]. exact H. }
  destruct (strictEqStr (lookup "type" props) "user") eqn:Euser; [|discriminate].
  cbn [orb andb]. intros Hflag.
  unfold userMessage, ifM, andM, propTruthy, read, bind, ret, yield, get in H.
  cbn [fst snd] in H.
  apply negb_true_iff in Hflag.
  destruct (truthy (lookup "_blocked" props)); cbn [andb] in *;
    [destruct (truthy (lookup "_blockReason" props)); [discriminate Hflag|]|];
    (destruct (isDefined (lookup "tool_use_result" props));
     [destruct (truthy (lookup "parent_tool_use_id" props))|]);
    cbn [fst snd] in H; rewrite contentBlocks_eq in H; cbn [get] in H;
    unfold blocksOf in H; cbn [getOpt] in H;
    match type of H with
    | context [forOf ?body ?items ?s0] =>
        apply (forOf_completed body items
                 (fun x s' => userBlock_nullish_throws str (JsObject props) p x s') s0);
        destruct (forOf body items s0) as [c s']; exact H
    end.
Qed.

Lemma ofAssistantBlock_unknown (w : World) (p : JsValue) (n : nat) (block : JsValue) :
  knownAssistantBlock block = false -> Increments.ofAssistantBlock w p n block = ([], n).
Proof.
  unfold knownAssistantBlock, Increments.ofAssistantBlock. simpl. rewrite !orb_false_iff.
  intros (H1 & H2 & H3 & _). now rewrite H1, H2, H3.
Qed.

Lemma ofAssistantBlocks_known (w : World) (p : JsValue) (blocks : list JsValue) (n : nat) :
  Increments.ofAssistantBlocks w p n (filter knownAssistantBlock blocks)
  = Increments.ofAssistantBlocks w p n blocks.
Proof.
  revert n. induction blocks as [|block blocks IH]; intros n; simpl; [reflexivity|].
  destruct (knownAssistantBlock block) eqn:E; simpl.
  - destruct (Increments.ofAssistantBlock w p n block) as [events n']. now rewrite IH.
  - rewrite (ofAssistantBlock_unknown w p n block E), IH.
    now destruct (Increments.ofAssistantBlocks w p n blocks).
Qed.

Lemma ofUserBlocks_known (str : JsValue -> JsValue) (p m : JsValue) (blocks : list JsValue) :
  flat_map (Increments.ofUserBlock str p m)
    (filter (fun block => strictEqStr (getOpt block "type") "tool_result") blocks)
  = flat_map (Increments.ofUserBlock str p m) blocks.
Proof.
  induction blocks as [|block blocks IH]; simpl; [reflexivity|].
  unfold Increments.ofUserBlock at 2.
  destruct (strictEqStr (getOpt block "type") "tool_result") eqn:E; simpl.
  - unfold Increments.ofUserBlock at 1. rewrite E. simpl. now rewrite IH.
  - exact IH.
Qed.

Lemma withContent_transformable (props : list (string * JsValue)) (blocks : list JsValue) :
  Forall (fun block => isNullish block = false) blocks ->
  transformable (withContent props blocks).
Proof. intros H. split; [reflexivity | intros _; exact H]. Qed.

Lemma Forall_of_filter {A} (P : A -> Prop) (f : A -> bool) (l : list A) :
  Forall P l -> Forall P (filter f l).
Proof.
  rewrite !Forall_forall. intros H x Hx. apply H. now apply filter_In in Hx.
Qed.

(** Blocks of a kind that is not recognized leave no trace. *)
Lemma run_skips (str : JsValue -> JsValue) (w : World) (props : list (string * JsValue))
    (blocks : list JsValue) :
  Forall (fun block => isNullish block = false) blocks ->
  run str w (withContent props blocks)
  = run str w (withContent props
                 (filter (recognizedBlock (withContent props blocks)) blocks)).
Proof.
  intros H.
  rewrite !run_yields by (apply withContent_transformable; auto using Forall_of_filter).
  f_equal. unfold Increments.ofMessage, recognizedBlock, nestedTaskOf, withContent, blocksOf.
  cbn [getOpt lookup String.eqb Ascii.eqb Bool.eqb].
  destruct (strictEqStr (lookup "type" props) "system"); [reflexivity|].
  destruct (strictEqStr (lookup "type" props) "assistant").
  { now rewrite ofAssistantBlocks_known. }
  destruct (strictEqStr (lookup "type" props) "user"); [|reflexivity].
  unfold Increments.ofUserMessage, blocksOf.
  cbn [getOpt lookup String.eqb Ascii.eqb Bool.eqb].
  destruct (_ && _); [reflexivity|]. f_equal.
  rewrite ofUserBlocks_known. reflexivity.
Qed.

(** C5, as stated: the transformer never throws, whatever the message.  It
    fails on a content array that holds [null]: reading [block.type] throws
    a [TypeError], after the chunks of the blocks before it were yielded. *)
Lemma null_block_throws :
  ~ (forall (str : JsValue -> JsValue) (w : World) (m : JsValue),
       snd (run str w m) = Normal tt).
Proof.
  intros H. specialize (H (fun v => v) someWorld messageWithNullBlock).
  vm_compute in H. discriminate H.
Qed.

Example null_block_run :
  run (fun v => v) someWorld messageWithNullBlock
  = ([TextChunk (JsString "hi") JsNull],
     Throw (ErrorObject "TypeError" "Cannot read properties of null (reading 'type')")).
Proof. reflexivity. Qed.

(** C5, amended.  The transformer completes without a throw exactly on the
    messages it can read: those that are not [null] or [undefined] and
    whose content array, where it is read (on an assistant message, and on a
    user message that is not denial-flagged), holds no [null] or [undefined]
    entry.  On such a message, also when fields are missing, it yields the
    increments of the recognized parts, in their order, and nothing else: a
    message of an unknown type yields nothing, and blocks of a kind that is
    not recognized are skipped without a trace, the run being the one of the
    message without them. *)
Theorem transformSDKMessage_total :
  forall (str : JsValue -> JsValue) (w : World) (m : JsValue),
    (snd (run str w m) = Normal tt <-> transformable m)
    /\ (transformable m -> fst (run str w m) = Increments.ofMessage str w m)
    /\ (isNullish m = false -> knownMessageType m = false -> run str w m = ([], Normal tt))
    /\ (forall props blocks,
          m = withContent props blocks ->
          Forall (fun block => isNullish block = false) blocks ->
          run str w m
          = run str w (withContent props (filter (recognizedBlock m) blocks)))
    /\ (forall p block s,
          isNullish block = false -> knownAssistantBlock block = false ->
          assistantBlock w p block s = (Normal tt, s))
    /\ (forall p block s,
          isNullish m = false -> isNullish block = false ->
          strictEqStr (getOpt block "type") "tool_result" = false ->
          userBlock str m p block s = (Normal tt, s)).
Proof.
  intros str w m. split; [|split; [|split; [|split; [|split]]]].
  - split; [apply run_completed|]. intros H. now rewrite (run_yields str w m H).
  - intros H. now rewrite (run_yields str w m H).
  - intros Hm Htype.
    assert (Hread : transformable m).
    { split; [exact Hm|]. unfold readsContent, knownMessageType in *. simpl in Htype.
      rewrite !orb_false_iff in Htype. destruct Htype as (_ & -> & -> & _). discriminate. }
    rewrite (run_yields str w m Hread). f_equal.
    unfold Increments.ofMessage, knownMessageType in *. simpl in Htype.
    rewrite !orb_false_iff in Htype.
    destruct Htype as (-> & -> & -> & -> & -> & -> & _). reflexivity.
  - intros props blocks -> H. now apply run_skips.
  - intros p block s Hb. unfold knownAssistantBlock. simpl. rewrite !orb_false_iff.
    intros (H1 & H2 & H3 & _). gen_unfold.
    destruct block; try discriminate Hb; cbn in *;
      try reflexivity; now rewrite H1, H2, H3.
  - intros p block s Hm Hb H1. gen_unfold.
    destruct block; try discriminate Hb; destruct m; try discriminate Hm; cbn in *;
      try reflexivity; now rewrite H1.
Qed.

(** A message with a block of an unknown kind, a block that is not an
    object and a text block without text: the known blocks are transformed,
    the others are skipped, and the run is the one of the message without
    the blocks of unknown kind. *)
Lemma transformSDKMessage_total_witness :
  let blocks := [JsObject [("type", JsString "text"); ("text", JsString "before")];
                 JsObject [("type", JsString "server_tool_use")];
                 JsNumber 7;
                 JsObject [("type", JsString "text")];
                 JsObject [("type", JsString "thinking"); ("thinking", JsString "further")]] in
  let m := withContent [("type", JsString "assistant")] blocks in
  snd (run (fun v => v) someWorld m) = Normal tt
  /\ fst (run (fun v => v) someWorld m)
     = [TextChunk (JsString "before") JsNull; ThinkingChunk (JsString "further") JsNull]
  /\ run (fun v => v) someWorld m
     = run (fun v => v) someWorld
         (withContent [("type", JsString "assistant")]
            [JsObject [("type", JsString "text"); ("text", JsString "before")];
             JsObject [("type", JsString "text")];
             JsObject [("type", JsString "thinking"); ("thinking", JsString "further")]]).
Proof.
  intros blocks m.
  assert (Hblocks : Forall (fun block => isNullish block = false) blocks)
    by (repeat constructor).
  assert (Hm : transformable m) by (split; [reflexivity | intros _; exact Hblocks]).
  pose proof (transformSDKMessage_total (fun v => v) someWorld m)
    as (Hcompletes & Hyields & _ & Hskips & _).
  split; [|split].
  - now apply Hcompletes.
  - rewrite (Hyields Hm). reflexivity.
  - exact (Hskips [("type", JsString "assistant")] blocks eq_refl Hblocks).
Defined.

(** *** Determinism *)
















(** *** Order *)











Example toolUseWithoutId_now :
  fst (run (fun v => v) someWorld toolUseWithoutId)
  = [ToolUseChunk (JsString "tool-1700000000000-4fzyo82mv") (JsString "Read")
       (JsObject []) JsNull].
Proof. reflexivity. Qed.

Example toolUseWithoutId_later :
  fst (run (fun v => v) laterWorld toolUseWithoutId)
  = [ToolUseChunk (JsString "tool-1700000000001-k2j8s0x1q") (JsString "Read")
       (JsObject []) JsNull].
Proof. reflexivity. Qed.





(* ================================================================== *)
(** * The properties on a concrete installation *)
(* ================================================================== *)

Example resolve_dotdot :
  NodePath.resolve "/work" ["/test/vault/path"; "../**/*.md"] = "/test/vault/**/*.md".
Proof. reflexivity. Qed.

Example resolve_relative_cwd :
  NodePath.resolve "/work/dir" ["a/./b//c/"; "../d"] = "/work/dir/a/b/d".
Proof. reflexivity. Qed.

Example join_home :
  NodePath.join ["/home/u"; ".claude"; "local"; "claude"] = "/home/u/.claude/local/claude".
Proof. reflexivity. Qed.

Example findClaudeCLIPath_emptyHost :
  Utils.findClaudeCLIPath emptyHost = Some "/usr/local/bin/claude".
Proof. reflexivity. Qed.

Example trim_example : Text.trim "  a b  " = "a b".
Proof. reflexivity. Qed.

Example tests_read_outside_vault :
  InstructionRefineService.createVaultRestrictionHook emptyHost "/test/vault/path" "Read"
    (JsObject [("file_path", JsString "/etc/passwd")])
  = Normal (deny ("Access denied: " ++ Text.dquote ++ "/etc/passwd" ++ Text.dquote
                  ++ " is outside the vault")).
Proof. reflexivity. Qed.

Example tests_read_inside_vault :
  InstructionRefineService.createVaultRestrictionHook emptyHost "/test/vault/path" "Read"
    (JsObject [("file_path", JsString "/test/vault/path/notes/a.md")])
  = Normal allow.
Proof. reflexivity. Qed.

Example tests_glob_escaping_pattern :
  option_map continue
    (match InstructionRefineService.createVaultRestrictionHook emptyHost "/test/vault/path"
             "Glob" (JsObject [("pattern", JsString "../**/*.md")]) with
     | Normal r => Some r
     | Throw _ => None
     end)
  = Some false.
Proof. reflexivity. Qed.

(** A vault reached through a symbolic link: [/link] points to [/vault]. *)
Example symlink_into_vault :
  let h := {| Utils.realpathSync :=
                fun p => if p =? "/link/notes.md" then Some "/vault/notes.md"
                         else if p =? "/vault" then Some "/vault"
                         else None;
              Utils.existsSync := fun _ => false;
              Utils.homedir := "/home/user";
              Utils.cwd := "/" |} in
  Utils.isPathWithinVault h "/link/notes.md" "/vault" = true
  /\ Utils.isPathWithinVault h "/link/other.md" "/vault" = false.
Proof. split; reflexivity. Qed.

Section CanonicalSamples.

Import PathContainment.



(** The assumption on [realpath] is needed.  Where a [..] follows a symbolic
    link, the check depends on the spelling of the candidate: the absolute
    candidate is given to [realpath] as it is spelled and is found outside,
    the relative one is normalized lexically first and is found inside. *)
Example link_before_dotdot :
  Utils.isPathWithinVault nativeHost "/vault/shared/../passwd" "/vault" = false
  /\ Utils.isPathWithinVault nativeHost "shared/../passwd" "/vault" = true
  /\ ~ posixHost nativeHost.
Proof.
  split; [reflexivity|]. split; [reflexivity|].
  intros (_ & _ & Hplace & _). specialize (Hplace "/vault/shared/../passwd").
  discriminate Hplace.
Qed.

End CanonicalSamples.

(** A response with text around the block. *)
Lemma parseResponse_three_way_witness :
  exists pre inner post,
    "Here: <instruction> - Be brief. </instruction>"
    = pre ++ "<instruction>" ++ inner ++ "</instruction>" ++ post
    /\ parseResponse "Here: <instruction> - Be brief. </instruction>"
       = refined (Text.trim inner).
Proof.
  destruct (proj1 (parseResponse_three_way "Here: <instruction> - Be brief. </instruction>"))
    as (pre & inner & post & Htext & _ & _ & Hparse).
  - exists "Here: ", " - Be brief. ", "". reflexivity.
  - exists pre, inner, post. split; assumption.
Defined.

Lemma export_path_is_write_only_witness :
  sampleHook "Write" (JsObject [("file_path", JsString "/exports/report.md")]) tt
  = (allow, tt)
  /\ continue (fst (sampleHook "Read"
                      (JsObject [("file_path", JsString "/exports/report.md")]) tt))
     = false
  /\ sampleHook "Bash" (JsObject [("command", JsString "cat /exports/report.md")]) tt
     = (deny ("Access denied: Command path " ++ Text.dquote ++ "/exports/report.md"
              ++ Text.dquote
              ++ " is in an allowed export directory, but export paths are write-only."),
        tt)
  /\ sampleHook "Bash" (JsObject [("command", JsString "echo done > /exports/report.md")]) tt
     = (allow, tt).
Proof.
  pose proof (fun toolName tool_input =>
                export_path_is_write_only toolNames_TOOL_BASH toolNames_isEditTool
                  toolNames_isFileTool sampleGetPathFromToolInput sampleCandidatePaths
                  unit sampleContext toolName tool_input tt "/exports/report.md"
                  eq_refl) as H.
  split; [|split; [|split]].
  - apply (proj1 (proj2 (H "Write" (JsObject [("file_path", JsString "/exports/report.md")]))));
      [discriminate | reflexivity | reflexivity | reflexivity].
  - apply (proj1 (H "Read" (JsObject [("file_path", JsString "/exports/report.md")])));
      [discriminate | reflexivity | reflexivity | discriminate].
  - apply (proj1 (proj2 (proj2
             (H "Bash" (JsObject [("command", JsString "cat /exports/report.md")]))))
             eq_refl eq_refl [] []); reflexivity.
  - apply (proj2 (proj2 (proj2 (proj2
             (H "Bash" (JsObject [("command", JsString "echo done > /exports/report.md")])))))
             eq_refl).
    repeat constructor.
Defined.

Example read_tool_on_export_path_is_denied :
  sampleHook "Read" (JsObject [("file_path", JsString "/exports/report.md")]) tt
  = (deny ("Access denied: Path " ++ Text.dquote ++ "/exports/report.md" ++ Text.dquote
           ++ " is outside the vault. Agent is restricted to vault directory only."),
     tt).
Proof. reflexivity. Qed.

(** A path argument of a wrong type that is truthy: the path expression
    yields it as it is, and the containment check of the refine service
    throws on it. *)
Example refine_hook_on_number_path :
  filePathOf "Read" (JsObject [("file_path", JsNumber 123)]) = Normal (JsNumber 123)
  /\ InstructionRefineService.createVaultRestrictionHook emptyHost "/vault" "Read"
       (JsObject [("file_path", JsNumber 123)])
     = Throw (ErrorObject "TypeError" "candidatePath.startsWith is not a function").
Proof. split; reflexivity. Qed.

(** A [Write] without [file_path] in the shared hook; in the hook of the
    refine service a [Read] of the number 0, a [Grep] for the empty pattern,
    and a [Glob] whose [path] is an array. *)
Lemma hook_without_path_continues_witness :
  sampleHook "Write" (JsObject [("content", JsString "text")]) tt = (allow, tt)
  /\ InstructionRefineService.createVaultRestrictionHook emptyHost "/vault" "Read"
       (JsObject [("file_path", JsNumber 0)]) = Normal allow
  /\ InstructionRefineService.createVaultRestrictionHook emptyHost "/vault" "Grep"
       (JsObject [("pattern", JsString "")]) = Normal allow
  /\ InstructionRefineService.createVaultRestrictionHook emptyHost "/vault" "Glob"
       (JsObject [("path", JsArray [JsString "/etc"])]) = Throw notAFunction.
Proof.
  split; [|split; [|split]].
  - apply (hook_without_path_continues toolNames_TOOL_BASH toolNames_isEditTool
             toolNames_isFileTool sampleGetPathFromToolInput sampleCandidatePaths
             unit sampleContext emptyHost "/vault" "Write"
             (JsObject [("content", JsString "text")]) tt);
      [discriminate | left; reflexivity].
  - apply (hook_without_path_continues toolNames_TOOL_BASH toolNames_isEditTool
             toolNames_isFileTool sampleGetPathFromToolInput sampleCandidatePaths
             unit sampleContext emptyHost "/vault" "Read"
             (JsObject [("file_path", JsNumber 0)]) tt) with (props := [("file_path", JsNumber 0)]);
      reflexivity.
  - apply (hook_without_path_continues toolNames_TOOL_BASH toolNames_isEditTool
             toolNames_isFileTool sampleGetPathFromToolInput sampleCandidatePaths
             unit sampleContext emptyHost "/vault" "Grep"
             (JsObject [("pattern", JsString "")]) tt) with (props := [("pattern", JsString "")]);
      [reflexivity | split; reflexivity].
  - apply (hook_without_path_continues toolNames_TOOL_BASH toolNames_isEditTool
             toolNames_isFileTool sampleGetPathFromToolInput sampleCandidatePaths
             unit sampleContext emptyHost "/vault" "Glob"
             (JsObject [("path", JsArray [JsString "/etc"])]) tt)
      with (filePath := JsArray [JsString "/etc"]); reflexivity.
Defined.

Example first_turn :
  snd (sampleRefine "typescript" "" false newService) = clarify "Which language do you mean?"
  /\ sessionId (this afterFirstTurn) = JsString "s1"
  /\ abortController (this afterFirstTurn) = None
  /\ map (fun q => resume (snd q)) (queries afterFirstTurn) = [None].
Proof. repeat split; reflexivity. Qed.

Example continue_before_any_turn :
  sampleContinue "more details" false newService
  = (newService, failure "No active conversation to continue").
Proof. reflexivity. Qed.

(** C7 on the scenario of the specification: the session id [s1] of turn 1
    is the [resume] of turn 2. *)
Lemma continueConversation_resumes_session_witness :
  (exists options,
     queries (fst (sampleContinue "TypeScript" false afterFirstTurn))
     = (queries afterFirstTurn ++ [("TypeScript", options)])%list
     /\ resume options = Some (JsString "s1"))
  /\ snd (sampleContinue "TypeScript" false afterFirstTurn) = refined "- Use TypeScript."
  /\ map (fun q => resume (snd q)) (queries (fst (sampleContinue "TypeScript" false afterFirstTurn)))
     = [None; Some (JsString "s1")].
Proof.
  split; [|split; reflexivity].
  apply (proj2 (proj2 (proj2
           (continueConversation_resumes_session emptyHost samplePlugin "Read" "Grep" "Glob"
              [("off", 0%Z); ("low", 4000%Z)]
              (fun existing => "You are helping refine a custom instruction.") []
              (fun _ => []) scriptedQuery "TypeScript" false afterFirstTurn))
           eq_refl) "/vault");
    [reflexivity | discriminate | left; reflexivity].
Defined.

(** Cancelling twice when no turn is in flight. *)
Lemma cancel_idempotent_witness :
  cancel newService = Normal newService
  /\ andThen (cancel newService) cancel = Normal newService.
Proof.
  assert (H : cancel newService = Normal newService)
    by (apply (cancel_idempotent newService); reflexivity).
  split; [exact H|]. now rewrite H.
Defined.

(* ================================================================== *)
(** * Further properties *)
(* ================================================================== *)

(** ** The parse of a growing text *)

Lemma length_append (a b : string) :
  String.length (a ++ b) = String.length a + String.length b.
Proof. induction a as [|c a IH]; simpl; [reflexivity | now rewrite IH]. Qed.

Lemma startsWith_app_l (s p more : string) :
  Text.startsWith s p = true -> Text.startsWith (s ++ more) p = true.
Proof.
  intros H. apply startsWith_iff in H as [rest ->]. rewrite append_assoc.
  apply startsWith_append.
Qed.

Lemma startsWith_app_short (s p more : string) :
  Text.startsWith (s ++ more) p = true -> String.length p <= String.length s ->
  Text.startsWith s p = true.
Proof.
  unfold Text.startsWith. revert p. induction s as [|c s IH]; intros [|d p]; simpl; auto.
  - intros _ H. lia.
  - destruct (Ascii.ascii_dec d c) as [->|Hne]; [|discriminate].
    intros H Hle. apply IH; [exact H | lia].
Qed.

Lemma slice_app_le (n : nat) (a b : string) :
  n <= String.length a -> Text.slice n (a ++ b) = Text.slice n a ++ b.
Proof.
  revert a. induction n as [|n IH]; intros a Hle; [reflexivity|].
  destruct a as [|c a]; simpl in *; [lia|]. apply IH. lia.
Qed.

Lemma startsWith_length (s p : string) :
  Text.startsWith s p = true -> String.length p <= String.length s.
Proof.
  intros H. apply startsWith_iff in H as [rest ->]. rewrite length_append. lia.
Qed.

(** What the lazy quantifier took stays what it takes when the text grows. *)
Lemma lazyUntil_app (close s more x : string) :
  lazyUntil close s = Some x -> lazyUntil close (s ++ more) = Some x.
Proof.
  revert x. induction s as [|c s IH]; intros x; rewrite lazyUntil_eq.
  - destruct (Text.startsWith "" close) eqn:E; [|discriminate].
    intros [= <-]. rewrite lazyUntil_eq. now rewrite (startsWith_app_l _ _ more E).
  - destruct (Text.startsWith (String c s) close) eqn:E.
    + intros [= <-]. rewrite lazyUntil_eq. now rewrite (startsWith_app_l _ _ more E).
    + destruct (lazyUntil close s) as [y|] eqn:Ey; [|discriminate].
      intros [= <-]. rewrite lazyUntil_eq.
      destruct (Text.startsWith (String c s ++ more) close) eqn:E2.
      * exfalso. apply lazyUntil_sound in Ey as [[post Hpost] _].
        rewrite (startsWith_app_short _ _ _ E2) in E; [discriminate|].
        rewrite Hpost. simpl. rewrite !length_append. lia.
      * simpl. now rewrite (IH y eq_refl).
Qed.

(** The match stays the match when the text grows. *)
Lemma matchTagged_app (open close s more inner : string) :
  matchTagged open close s = Some inner ->
  matchTagged open close (s ++ more) = Some inner.
Proof.
  induction s as [|c s IH]; rewrite matchTagged_eq;
    destruct (Text.startsWith _ open) eqn:Eo.
  - destruct (lazyUntil close _) as [cap|] eqn:Ec; [|discriminate].
    intros [= <-]. rewrite matchTagged_eq, (startsWith_app_l _ _ more Eo).
    rewrite slice_app_le by now apply startsWith_length.
    now rewrite (lazyUntil_app _ _ more _ Ec).
  - discriminate.
  - destruct (lazyUntil close _) as [cap|] eqn:Ec.
    + intros [= <-]. rewrite matchTagged_eq, (startsWith_app_l _ _ more Eo).
      rewrite slice_app_le by now apply startsWith_length.
      now rewrite (lazyUntil_app _ _ more _ Ec).
    + intros Hrec. exfalso.
      destruct (matchTagged_sound _ _ _ _ Hrec) as (pre & post & Hs & _).
      apply startsWith_iff in Eo as [r Hr].
      assert (Hslice : Text.slice (String.length open) (String c s)
                       = Text.slice (String.length open) (String c pre ++ open ++ inner)
                         ++ close ++ post).
      { rewrite <- slice_app_le.
        - rewrite Hs. simpl. now rewrite !append_assoc.
        - simpl. rewrite !length_append. lia. }
      rewrite Hslice in Ec.
      destruct (lazyUntil_complete close
                  (Text.slice (String.length open) (String c pre ++ open ++ inner)) post)
        as [y Hy].
      congruence.
  - intros Hrec. rewrite matchTagged_eq.
    destruct (Text.startsWith (String c s ++ more) open) eqn:Eo2.
    + exfalso.
      destruct (matchTagged_sound _ _ _ _ Hrec) as (pre & post & Hs & _).
      rewrite (startsWith_app_short _ _ _ Eo2) in Eo; [discriminate|].
      rewrite Hs. simpl. rewrite !length_append. lia.
    + simpl. now apply IH.
Qed.

Lemma parseResponse_app (text more : string) :
  refinedInstruction (parseResponse text) <> None ->
  parseResponse (text ++ more) = parseResponse text.
Proof.
  unfold parseResponse.
  destruct (matchTagged "<instruction>" "</instruction>" text) as [inner|] eqn:Hm.
  - intros _. now rewrite (matchTagged_app _ _ _ more _ Hm).
  - destruct (negb (Text.trim text =? "")); simpl; congruence.
Qed.

(** X1 (a refined instruction is final).  Once the text received holds a
    complete [<instruction>] block, the parse is settled: whatever text is
    appended afterwards, further blocks included, [parseResponse] gives the
    same refined instruction. *)
Theorem parseResponse_settles :
  forall (text more : string),
    refinedInstruction (parseResponse text) <> None ->
    parseResponse (text ++ more) = parseResponse text.
Proof.
  intros text more Hrefined. unfold parseResponse in *.
  destruct (matchTagged "<instruction>" "</instruction>" text) as [inner|] eqn:Hm.
  - now rewrite (matchTagged_app _ _ _ more _ Hm).
  - destruct (negb (Text.trim text =? "")); simpl in Hrefined; congruence.
Qed.

(** ** The turn of the refine service *)

Lemma cancel_armed (m m' : Machine) : cancel m = Normal m' -> armed m'.
Proof.
  unfold cancel, armed. destruct (abortController (this m)) eqn:E; simpl;
    intros [= <-]; simpl; [exact I | now rewrite E].
Qed.

Lemma cancel_interrupts (m m' : Machine) :
  cancel m = Normal m' -> interrupts m' = interrupts m.
Proof.
  unfold cancel. destruct (abortController (this m)); simpl; now intros [= <-].
Qed.

Lemma cancel_never_throws (m : Machine) : exists m', cancel m = Normal m'.
Proof. unfold cancel. destruct (abortController (this m)); simpl; eauto. Qed.

Lemma onMessage_frame (onProgress : bool) (message : JsValue) (text : string) (m : Machine) :
  let m' := fst (onMessage onProgress message text m) in
  abortController (this m') = abortController (this m)
  /\ resolvedClaudePath (this m') = resolvedClaudePath (this m)
  /\ existingInstructions (this m') = existingInstructions (this m)
  /\ controllers m' = controllers m
  /\ interrupts m' = interrupts m.
Proof.
  unfold onMessage.
  destruct (andThen (get message "type") _) as [[id|]|e]; simpl; auto;
    destruct (extractTextFromMessage message) as [t|e]; simpl; auto;
    destruct (negb (t =? "")); simpl; auto;
    destruct onProgress; simpl; auto.
Qed.

Lemma forAwait_never_interrupts (onProgress : bool) (todo : list StreamStep)
    (ending : option Thrown) :
  forall (text : string) (m : Machine),
    armed m ->
    interrupts (fst (forAwait onProgress todo ending text m)) = interrupts m
    /\ isReturned (snd (forAwait onProgress todo ending text m)) = false.
Proof.
  induction todo as [|[message|] todo IH]; intros text m Harmed; simpl.
  - now destruct ending.
  - assert (Hs : signalAborted (abortController (this m)) m = false).
    { unfold signalAborted, armed in *. now destruct (abortController (this m)). }
    rewrite Hs.
    pose proof (onMessage_frame onProgress message text m) as (Ha & _ & _ & Hc & Hi).
    destruct (onMessage onProgress message text m) as [m1 [text1|e]]; simpl in *.
    + rewrite <- Hi. apply IH. unfold armed. now rewrite Ha, Hc.
    + now split.
  - destruct (cancel_never_throws m) as [m1 Hm1]. rewrite Hm1.
    rewrite <- (cancel_interrupts m m1 Hm1). apply IH. now apply (cancel_armed m).
Qed.

Lemma fresh_controller_armed (cs : list bool) : nth (List.length cs) (cs ++ [false])%list false = false.
Proof. induction cs; simpl; auto. Qed.

Lemma forAwait_frame (onProgress : bool) (todo : list StreamStep) (ending : option Thrown) :
  forall (text : string) (m : Machine),
    let m' := fst (forAwait onProgress todo ending text m) in
    resolvedClaudePath (this m') = resolvedClaudePath (this m)
    /\ existingInstructions (this m') = existingInstructions (this m)
    /\ List.length (controllers m') = List.length (controllers m).
Proof.
  induction todo as [|[message|] todo IH]; intros text m; simpl.
  - now destruct ending.
  - destruct (signalAborted _ m); [simpl; auto|].
    pose proof (onMessage_frame onProgress message text m) as (_ & Hr & He & Hc & _).
    destruct (onMessage onProgress message text m) as [m1 [text1|e]]; simpl in *.
    + destruct (IH text1 m1) as (H1 & H2 & H3). now rewrite H1, H2, H3, Hr, He, Hc.
    + now rewrite Hr, He, Hc.
  - destruct (cancel m) as [m1|e] eqn:E; [|apply IH].
    destruct (IH text m1) as (H1 & H2 & H3). rewrite H1, H2, H3.
    unfold cancel in E. destruct (abortController (this m)); simpl in E;
      injection E as <-; simpl; auto.
    repeat split. clear. generalize (controllers m). intros cs. revert n.
    induction cs as [|c cs IHcs]; intros [|n]; simpl; auto.
Qed.

Lemma onMessage_session (onProgress : bool) (message : JsValue) (text : string) (m : Machine) :
  sessionId (this (fst (onMessage onProgress message text m)))
  = if isSessionInit message then getOpt message "session_id" else sessionId (this m).
Proof.
  unfold onMessage, isSessionInit.
  destruct message; simpl; try reflexivity;
    try (destruct (extractTextFromMessage _) as [t|e]; simpl; try reflexivity;
         destruct (negb (t =? "")); simpl; try reflexivity;
         destruct onProgress; reflexivity).
  destruct (strictEqStr (lookup "type" props) "system"
            && strictEqStr (lookup "subtype" props) "init"
            && truthy (lookup "session_id" props)); simpl;
    destruct (extractTextFromMessage _) as [t|e]; simpl; try reflexivity;
    destruct (negb (t =? "")); simpl; try reflexivity;
    destruct onProgress; reflexivity.
Qed.

Lemma forAwait_session (onProgress : bool) (todo : list StreamStep) (ending : option Thrown) :
  forall (text : string) (m : Machine),
    let m' := fst (forAwait onProgress todo ending text m) in
    sessionId (this m') = sessionId (this m)
    \/ exists message,
         In (Deliver message) todo /\ isSessionInit message = true
         /\ sessionId (this m') = getOpt message "session_id".
Proof.
  induction todo as [|[message|] todo IH]; intros text m; simpl.
  - left. now destruct ending.
  - destruct (signalAborted _ m); [now left|].
    pose proof (onMessage_session onProgress message text m) as Hs.
    destruct (onMessage onProgress message text m) as [m1 [text1|e]]; simpl in *.
    + destruct (IH text1 m1) as [H|(msg & Hin & Hinit & H)].
      * rewrite H, Hs. destruct (isSessionInit message) eqn:E; [right|now left].
        exists message. auto.
      * right. exists msg. auto.
    + rewrite Hs. destruct (isSessionInit message) eqn:E; [right|now left].
      exists message. auto.
  - assert (Hc : sessionId (this (match cancel m with Normal m' => m' | Throw _ => m end))
                 = sessionId (this m)).
    { destruct (cancel m) as [m1|e] eqn:E; [|reflexivity]. now apply cancel_sessionId. }
    destruct (IH text (match cancel m with Normal m' => m' | Throw _ => m end))
      as [H|(msg & Hin & Hinit & H)].
    + left. now rewrite H.
    + right. exists msg. auto.
Qed.

Lemma onMessage_progress (message : JsValue) (text : string) (m : Machine) :
  let r := onMessage true message text m in
  match snd r with
  | Normal text' =>
      (text' = text /\ progress (fst r) = progress m)
      \/ (progress (fst r) = (progress m ++ [parseResponse text'])%list)
  | Throw _ => progress (fst r) = progress m
  end.
Proof.
  unfold onMessage.
  destruct (andThen (get message "type") _) as [[id|]|e]; simpl; try reflexivity;
    destruct (extractTextFromMessage message) as [t|e]; simpl; try reflexivity;
    destruct (negb (t =? "")); simpl; auto.
Qed.

Lemma onMessage_silent (message : JsValue) (text : string) (m : Machine) :
  progress (fst (onMessage false message text m)) = progress m.
Proof.
  unfold onMessage.
  destruct (andThen (get message "type") _) as [[id|]|e]; simpl; try reflexivity;
    destruct (extractTextFromMessage message) as [t|e]; simpl; try reflexivity;
    destruct (negb (t =? "")); reflexivity.
Qed.

Lemma cancel_progress (m m' : Machine) : cancel m = Normal m' -> progress m' = progress m.
Proof.
  unfold cancel. destruct (abortController (this m)); simpl; now intros [= <-].
Qed.

Lemma last_cons_default {A} (l : list A) (x d : A) : last (x :: l) d = last l x.
Proof.
  revert x d. induction l as [|y l IH]; intros x d; [reflexivity|].
  change (last (x :: y :: l) d) with (last (y :: l) d). now rewrite (IH y d), (IH y x).
Qed.

Lemma forAwait_progress (todo : list StreamStep) (ending : option Thrown) :
  forall (text : string) (m : Machine),
    exists updates,
      progress (fst (forAwait true todo ending text m)) = (progress m ++ updates)%list
      /\ forall text', snd (forAwait true todo ending text m) = Finished text' ->
                       parseResponse text' = last updates (parseResponse text).
Proof.
  induction todo as [|[message|] todo IH]; intros text m; simpl.
  - exists []. rewrite app_nil_r. destruct ending; simpl; split; auto; try discriminate.
    now intros text' [= <-].
  - destruct (signalAborted _ m); simpl.
    + exists []. rewrite app_nil_r. split; [reflexivity | discriminate].
    + pose proof (onMessage_progress message text m) as Hp.
      destruct (onMessage true message text m) as [m1 [text1|e]]; simpl in *.
      * destruct (IH text1 m1) as (updates & Hu & Hlast).
        destruct Hp as [[-> Hp]|Hp].
        -- exists updates. now rewrite Hu, Hp.
        -- exists (parseResponse text1 :: updates). rewrite Hu, Hp, <- app_assoc.
           split; [reflexivity|]. intros text' Hf. rewrite (Hlast text' Hf).
           now rewrite last_cons_default.
      * exists []. rewrite app_nil_r. split; [exact Hp | discriminate].
  - destruct (cancel_never_throws m) as [m1 Hm1]. rewrite Hm1.
    destruct (IH text m1) as (updates & Hu & Hlast).
    exists updates. now rewrite Hu, (cancel_progress m m1 Hm1).
Qed.

Lemma forAwait_silent (todo : list StreamStep) (ending : option Thrown) :
  forall (text : string) (m : Machine),
    progress (fst (forAwait false todo ending text m)) = progress m.
Proof.
  induction todo as [|[message|] todo IH]; intros text m; simpl.
  - now destruct ending.
  - destruct (signalAborted _ m); [reflexivity|].
    pose proof (onMessage_silent message text m) as Hp.
    destruct (onMessage false message text m) as [m1 [text1|e]]; simpl in *;
      [rewrite IH|]; exact Hp.
  - rewrite IH. destruct (cancel m) as [m1|e] eqn:E; [|reflexivity].
    now apply cancel_progress.
Qed.

Lemma forAwait_thrown_end (onProgress : bool) (todo : list StreamStep) (e : Thrown) :
  forall (text : string) (m : Machine),
    match snd (forAwait onProgress todo (Some e) text m) with
    | Finished _ => False
    | _ => True
    end.
Proof.
  induction todo as [|[message|] todo IH]; intros text m; simpl; auto.
  - destruct (signalAborted _ m); simpl; auto.
    destruct (onMessage onProgress message text m) as [m1 [text1|e1]]; simpl;
      [apply IH | exact I].
  - apply IH.
Qed.



Lemma markAborted_older (n a : nat) (cs : list bool) :
  n <= a -> firstn n (markAborted a cs) = firstn n cs.
Proof.
  revert n a. induction cs as [|c cs IH]; intros n a Hle; destruct a; simpl; auto.
  - now replace n with 0 by lia.
  - destruct n; simpl; [reflexivity|]. f_equal. apply IH. lia.
Qed.

Lemma forAwait_older_controllers (onProgress : bool) (todo : list StreamStep)
    (ending : option Thrown) (n : nat) :
  forall (text : string) (m : Machine),
    match abortController (this m) with Some a => n <= a | None => True end ->
    firstn n (controllers (fst (forAwait onProgress todo ending text m)))
    = firstn n (controllers m).
Proof.
  induction todo as [|[message|] todo IH]; intros text m Hn; simpl.
  - now destruct ending.
  - destruct (signalAborted _ m); [reflexivity|].
    pose proof (onMessage_frame onProgress message text m) as (Ha & _ & _ & Hc & _).
    destruct (onMessage onProgress message text m) as [m1 [text1|e]]; simpl in *.
    + rewrite IH; [now rewrite Hc | now rewrite Ha].
    + now rewrite Hc.
  - unfold cancel. destruct (abortController (this m)) as [a|] eqn:E; simpl.
    + rewrite IH; simpl; [now apply markAborted_older | exact I].
    + apply IH. now rewrite E.
Qed.

Lemma readOnlyHook_continue (TOOL_READ TOOL_GREP TOOL_GLOB toolName : string)
    (toolInput : JsValue) (result : HookResult) :
  createReadOnlyHook TOOL_READ TOOL_GREP TOOL_GLOB toolName toolInput = Normal result ->
  continue result = true ->
  In toolName (READ_ONLY_TOOLS TOOL_READ TOOL_GREP TOOL_GLOB).
Proof.
  unfold createReadOnlyHook. destruct (existsb _ _) eqn:E; intros [= <-]; simpl;
    [intros _ | discriminate].
  apply existsb_exists in E as (x & Hin & Hx). apply String.eqb_eq in Hx. now subst.
Qed.

Lemma vaultHook_continue (host : Utils.Host) (vaultPath toolName : string)
    (toolInput : JsValue) (result : HookResult) :
  createVaultRestrictionHook host vaultPath toolName toolInput = Normal result ->
  continue result = true ->
  toolName = "Read" \/ toolName = "Glob" \/ toolName = "Grep" ->
  exists v, filePathOf toolName toolInput = Normal v
            /\ (truthy v = false
                \/ exists p, v = JsString p
                             /\ Utils.isPathWithinVault host p vaultPath = true).
Proof.
  intros Hhook Hcont Htool. unfold createVaultRestrictionHook in Hhook.
  assert (Hc : (toolName =? "Read") || (toolName =? "Glob") || (toolName =? "Grep") = true)
    by (destruct Htool as [ -> | [ -> | -> ] ]; reflexivity).
  rewrite Hc in Hhook.
  destruct (filePathOf toolName toolInput) as [v|e]; simpl in Hhook; [|discriminate].
  exists v. split; [reflexivity|].
  destruct (truthy v) eqn:Ht; [right|now left].
  destruct v; simpl in Hhook; try discriminate.
  exists s. split; [reflexivity|].
  destruct (Utils.isPathWithinVault host s vaultPath); [reflexivity|].
  simpl in Hhook. injection Hhook as <-. discriminate.
Qed.

Lemma let_pair {A B C} (p : A * B) (f : A -> B -> C) :
  (let '(a, b) := p in f a b) = f (fst p) (snd p).
Proof. now destruct p. Qed.

Lemma truthyText_Some (o : option string) :
  truthyText o = true <-> exists s, o = Some s /\ s <> "".
Proof.
  destruct o as [s|]; simpl.
  - rewrite negb_true_iff, String.eqb_neq. split; [eauto | now intros (t & [= <-] & H)].
  - split; [discriminate | now intros (t & H & _)].
Qed.

Lemma onMessage_grows (onProgress : bool) (message : JsValue) (text text' : string)
    (m : Machine) :
  snd (onMessage onProgress message text m) = Normal text' ->
  exists more, text' = text ++ more.
Proof.
  unfold onMessage.
  destruct (andThen (get message "type") _) as [init|e0]; simpl; [|discriminate].
  destruct (extractTextFromMessage message) as [t|e]; simpl; [|discriminate].
  destruct (negb (t =? "")); simpl; intros [= <-];
    [now exists t | exists ""; now rewrite append_empty_r].
Qed.

Lemma forAwait_grows (onProgress : bool) (todo : list StreamStep) (ending : option Thrown) :
  forall (text text' : string) (m : Machine),
    snd (forAwait onProgress todo ending text m) = Finished text' ->
    exists more, text' = text ++ more.
Proof.
  induction todo as [|[message|] todo IH]; intros text text' m; simpl.
  - destruct ending; [discriminate|]. intros [= <-]. exists "". now rewrite append_empty_r.
  - destruct (signalAborted _ m); [discriminate|].
    pose proof (fun text1 => onMessage_grows onProgress message text text1 m) as Hg.
    destruct (onMessage onProgress message text m) as [m1 [text1|e]]; simpl in *;
      [|discriminate].
    intros Hf. destruct (Hg text1 eq_refl) as [more1 ->].
    destruct (IH _ _ _ Hf) as [more2 ->]. exists (more1 ++ more2). now rewrite append_assoc.
  - apply IH.
Qed.

(** Every update is the parse of a prefix of the text the loop ends with. *)
Lemma forAwait_updates (todo : list StreamStep) (ending : option Thrown) :
  forall (text : string) (m : Machine),
    exists updates,
      progress (fst (forAwait true todo ending text m)) = (progress m ++ updates)%list
      /\ forall text', snd (forAwait true todo ending text m) = Finished text' ->
           forall u, In u updates ->
             exists t more, u = parseResponse t /\ text' = t ++ more.
Proof.
  induction todo as [|[message|] todo IH]; intros text m; simpl.
  - exists []. rewrite app_nil_r. split; [now destruct ending | intros ? _ ? []].
  - destruct (signalAborted _ m); simpl.
    + exists []. rewrite app_nil_r. split; [reflexivity | discriminate].
    + pose proof (onMessage_progress message text m) as Hp.
      destruct (onMessage true message text m) as [m1 [text1|e]]; simpl in *.
      * destruct (IH text1 m1) as (updates & Hu & Hpre).
        destruct Hp as [[-> Hp]|Hp].
        -- exists updates. now rewrite Hu, Hp.
        -- exists (parseResponse text1 :: updates). rewrite Hu, Hp, <- app_assoc.
           split; [reflexivity|]. intros text' Hf u [<-|Hin]; [|now apply (Hpre text')].
           destruct (forAwait_grows _ _ _ _ _ _ Hf) as [more ->]. now exists text1, more.
      * exists []. rewrite app_nil_r. split; [exact Hp | discriminate].
  - destruct (cancel_never_throws m) as [m1 Hm1]. rewrite Hm1.
    destruct (IH text m1) as (updates & Hu & Hpre).
    exists updates. now rewrite Hu, (cancel_progress m m1 Hm1).
Qed.

Section Turn.

Variable host : Utils.Host.
Variable plugin : Plugin.
Variables TOOL_READ TOOL_GREP TOOL_GLOB : string.
Variable THINKING_BUDGETS : list (string * Z).
Variable buildRefineSystemPrompt : string -> string.
Variable process_env : list (string * string).
Variable parseEnvironmentVariables : string -> list (string * string).
Variable agentQuery : string -> Options -> Response.

Let sendTurn := sendMessage host plugin TOOL_READ TOOL_GREP TOOL_GLOB THINKING_BUDGETS
                  buildRefineSystemPrompt process_env parseEnvironmentVariables agentQuery.
Let refineTurn := refineInstruction host plugin TOOL_READ TOOL_GREP TOOL_GLOB THINKING_BUDGETS
                    buildRefineSystemPrompt process_env parseEnvironmentVariables agentQuery.
Let continueTurn := continueConversation host plugin TOOL_READ TOOL_GREP TOOL_GLOB
                      THINKING_BUDGETS buildRefineSystemPrompt process_env
                      parseEnvironmentVariables agentQuery.

(** The cases of [sendMessage]: the two configuration failures, then the
    turn itself with the loop's outcome named. *)
Ltac enter_sendMessage m :=
  unfold sendTurn, sendMessage, Utils.getVaultPath;
  destruct (adapterBasePath plugin) as [vaultPath|] eqn:Evault;
  [ destruct (vaultPath =? "") eqn:Eempty;
    [ | set (m1 := if truthyText (resolvedClaudePath (this m)) then m
                   else setResolvedClaudePath m (findClaudeCLI host));
        assert (Hm1 : abortController (this m1) = abortController (this m)
                      /\ sessionId (this m1) = sessionId (this m)
                      /\ existingInstructions (this m1) = existingInstructions (this m)
                      /\ controllers m1 = controllers m
                      /\ queries m1 = queries m
                      /\ interrupts m1 = interrupts m
                      /\ progress m1 = progress m)
          by (subst m1; destruct (truthyText (resolvedClaudePath (this m)));
              simpl; repeat split; reflexivity);
        destruct Hm1 as (Hm1a & Hm1s & Hm1e & Hm1c & Hm1q & Hm1i & Hm1p);
        destruct (resolvedClaudePath (this m1)) as [claudePath|] eqn:Eclaude;
        [ destruct (claudePath =? "") eqn:Eclaude0 | ] ]
  | ].

(** X2 (no cancellation exit).  Whatever the runtime delivers and whenever
    the caller calls [cancel()] while the turn is awaited (turns do not
    overlap, and nothing but [cancel()] aborts a controller), a turn never
    calls [response.interrupt()]: [cancel()] clears [this.abortController],
    which is what the check of the loop reads. *)
Theorem turn_never_interrupts :
  forall (prompt existing : string) (onProgress : bool) (m : Machine),
    interrupts (fst (sendTurn prompt onProgress m)) = interrupts m
    /\ interrupts (fst (refineTurn prompt existing onProgress m)) = interrupts m
    /\ interrupts (fst (continueTurn prompt onProgress m)) = interrupts m.
Proof.
  assert (Hsend : forall prompt onProgress m,
             interrupts (fst (sendTurn prompt onProgress m)) = interrupts m).
  { intros prompt onProgress m. enter_sendMessage m; try reflexivity; try exact Hm1i.
    match goal with
    | |- context [forAwait ?p ?t ?e ?x ?mm] =>
        destruct (forAwait_never_interrupts p t e x mm) as [Hi _];
        [ unfold armed; simpl; apply fresh_controller_armed | ];
        destruct (forAwait p t e x mm) as [m2 exit]
    end.
    simpl in *. now rewrite Hi. }
  intros prompt existing onProgress m. split; [apply Hsend|]. split.
  - unfold refineTurn, refineInstruction. fold sendTurn. now rewrite Hsend.
  - unfold continueTurn, continueConversation. fold sendTurn.
    destruct (negb _); [reflexivity | apply Hsend].
Qed.

(** The executable a turn uses: the one found before, or the one
    [findClaudeCLIPath] finds now. *)
Let executableOf (m : Machine) : option string :=
  if truthyText (resolvedClaudePath (this m)) then resolvedClaudePath (this m)
  else Utils.findClaudeCLIPath host.

(** The options of the query of a turn, and the service as the loop of the
    turn finds it. *)
Let optionsOf (vaultPath claudePath : string) (m : Machine) : Options :=
  {| optCwd := vaultPath;
     systemPrompt := buildRefineSystemPrompt (existingInstructions (this m));
     model := settingsModel plugin;
     optAbortController := List.length (controllers m);
     pathToClaudeCodeExecutable := claudePath;
     env := (parseEnvironmentVariables (activeEnvironmentVariables plugin) ++ process_env)%list;
     allowedTools := READ_ONLY_TOOLS TOOL_READ TOOL_GREP TOOL_GLOB;
     permissionMode := "bypassPermissions";
     allowDangerouslySkipPermissions := true;
     hooksPreToolUse := [createReadOnlyHook TOOL_READ TOOL_GREP TOOL_GLOB;
                         createVaultRestrictionHook host vaultPath];
     resume := if truthy (sessionId (this m)) then Some (sessionId (this m)) else None;
     maxThinkingTokens :=
       match find (fun b => fst b =? settingsThinkingBudget plugin) THINKING_BUDGETS with
       | Some b => if (0 <? snd b)%Z then Some (snd b) else None
       | None => None
       end |}.

Let startOf (prompt : string) (options : Options) (claudePath : string) (m : Machine)
  : Machine :=
  {| this := {| abortController := Some (List.length (controllers m));
                resolvedClaudePath := Some claudePath;
                sessionId := sessionId (this m);
                existingInstructions := existingInstructions (this m) |};
     controllers := (controllers m ++ [false])%list;
     queries := (queries m ++ [(prompt, options)])%list;
     interrupts := interrupts m;
     progress := progress m |}.

Lemma sendMessage_configured (prompt : string) (onProgress : bool) (m : Machine) :
  configured host plugin m = true ->
  exists vaultPath claudePath,
    adapterBasePath plugin = Some vaultPath /\ vaultPath <> ""
    /\ executableOf m = Some claudePath /\ claudePath <> ""
    /\ let options := optionsOf vaultPath claudePath m in
       let response := agentQuery prompt options in
       let r := forAwait onProgress (steps response) (ending response) ""
                  (startOf prompt options claudePath m) in
       sendTurn prompt onProgress m = (setAbortController (fst r) None, resultOf (snd r)).
Proof.
  unfold configured. intros H. apply andb_true_iff in H. destruct H as [Hv Hc].
  apply truthyText_Some in Hv. destruct Hv as (vaultPath & Hv & Hne).
  assert (He : truthyText (executableOf m) = true).
  { unfold executableOf. destruct (truthyText (resolvedClaudePath (this m))) eqn:E;
      [exact E | exact Hc]. }
  apply truthyText_Some in He. destruct He as (claudePath & He & Hce).
  exists vaultPath, claudePath. repeat (split; [assumption|]).
  unfold sendTurn, sendMessage, Utils.getVaultPath. rewrite Hv.
  apply String.eqb_neq in Hne. rewrite Hne.
  unfold executableOf, findClaudeCLI in *.
  destruct (truthyText (resolvedClaudePath (this m))) eqn:E;
    simpl; rewrite He; apply String.eqb_neq in Hce; rewrite Hce;
    cbv zeta; rewrite let_pair;
    unfold optionsOf, startOf, resultOf, setAbortController, withThis; simpl;
    rewrite ?He; reflexivity.
Qed.

Lemma sendMessage_unconfigured (prompt : string) (onProgress : bool) (m : Machine) :
  configured host plugin m = false ->
  let r := sendTurn prompt onProgress m in
  snd r = failure (if truthyText (adapterBasePath plugin)
                   then "Claude CLI not found. Please install Claude Code CLI."
                   else "Could not determine vault path")
  /\ (truthyText (adapterBasePath plugin) = false -> fst r = m)
  /\ abortController (this (fst r)) = abortController (this m)
  /\ sessionId (this (fst r)) = sessionId (this m)
  /\ existingInstructions (this (fst r)) = existingInstructions (this m)
  /\ controllers (fst r) = controllers m
  /\ queries (fst r) = queries m
  /\ interrupts (fst r) = interrupts m
  /\ progress (fst r) = progress m.
Proof.
  unfold configured. intros H.
  unfold sendTurn, sendMessage, Utils.getVaultPath, findClaudeCLI.
  destruct (adapterBasePath plugin) as [vaultPath|] eqn:Ev; simpl in *;
    [|repeat split; reflexivity].
  destruct (vaultPath =? "") eqn:Ee; simpl in *; [repeat split; reflexivity|].
  apply orb_false_iff in H. destruct H as [Hr Hf]. rewrite Hr.
  assert (Hn : match Utils.findClaudeCLIPath host with
               | Some p => (p =? "") = true
               | None => True
               end).
  { destruct (Utils.findClaudeCLIPath host); simpl in *; [|exact I].
    now apply negb_false_iff in Hf. }
  simpl. destruct (Utils.findClaudeCLIPath host) as [p|]; [rewrite Hn|];
    simpl; repeat split; try reflexivity; discriminate.
Qed.

(** X3 (configuration errors).  A turn for which the vault path is unknown, or
    for which no executable was found before and none is found now, fails
    with the message of the missing piece; the runtime is not contacted, no
    [AbortController] is made, nothing is reported to [onProgress] and the
    conversation is left as it was. *)
Theorem turn_needs_configuration :
  forall (prompt : string) (onProgress : bool) (m : Machine),
    configured host plugin m = false ->
    let r := sendTurn prompt onProgress m in
    snd r = failure (if truthyText (adapterBasePath plugin)
                     then "Claude CLI not found. Please install Claude Code CLI."
                     else "Could not determine vault path")
    /\ queries (fst r) = queries m
    /\ controllers (fst r) = controllers m
    /\ progress (fst r) = progress m
    /\ sessionId (this (fst r)) = sessionId (this m)
    /\ abortController (this (fst r)) = abortController (this m).
Proof.
  intros prompt onProgress m H.
  destruct (sendMessage_unconfigured prompt onProgress m H)
    as (H1 & _ & H3 & H4 & _ & H6 & H7 & _ & H9).
  cbv zeta. auto 10.
Qed.

(** X4 (one query, one controller).  A configured turn contacts the runtime
    exactly once, with the prompt it was given and a controller made for
    this query; whatever the stream does, the controllers of earlier turns
    are as they were (a [cancel()] during the turn aborts this turn's
    controller alone) and the service holds no controller when the turn
    returns. *)
Theorem turn_accounting :
  forall (prompt : string) (onProgress : bool) (m : Machine),
    configured host plugin m = true ->
    let r := sendTurn prompt onProgress m in
    exists options,
      queries (fst r) = (queries m ++ [(prompt, options)])%list
      /\ optAbortController options = List.length (controllers m)
      /\ List.length (controllers (fst r)) = S (List.length (controllers m))
      /\ firstn (List.length (controllers m)) (controllers (fst r)) = controllers m
      /\ abortController (this (fst r)) = None.
Proof.
  intros prompt onProgress m H.
  destruct (sendMessage_configured prompt onProgress m H)
    as (vaultPath & claudePath & Hv & Hne & He & Hce & Hsend).
  cbv zeta in *. rewrite Hsend. simpl.
  exists (optionsOf vaultPath claudePath m).
  match goal with
  | |- context [forAwait ?p ?t ?e ?x ?mm] =>
      pose proof (forAwait_queries p t e x mm) as Hq;
      pose proof (forAwait_frame p t e x mm) as (_ & _ & Hl);
      pose proof (forAwait_older_controllers p t e (List.length (controllers m)) x mm) as Ho
  end.
  rewrite Hq, Hl, Ho; simpl.
  - rewrite length_app, firstn_app, firstn_all, Nat.sub_diag. simpl.
    rewrite app_nil_r. repeat split; try reflexivity. lia.
  - lia.
Qed.

Lemma sendMessage_effects (prompt : string) (onProgress : bool) (m : Machine) :
  let r := sendTurn prompt onProgress m in
  existingInstructions (this (fst r)) = existingInstructions (this m)
  /\ (queries (fst r) = queries m /\ sessionId (this (fst r)) = sessionId (this m)
      \/ exists options,
           queries (fst r) = (queries m ++ [(prompt, options)])%list
           /\ resume options
              = (if truthy (sessionId (this m)) then Some (sessionId (this m)) else None)
           /\ systemPrompt options = buildRefineSystemPrompt (existingInstructions (this m))
           /\ (sessionId (this (fst r)) = sessionId (this m)
               \/ exists message,
                    In (Deliver message) (steps (agentQuery prompt options))
                    /\ isSessionInit message = true
                    /\ sessionId (this (fst r)) = getOpt message "session_id")).
Proof.
  destruct (configured host plugin m) eqn:H.
  - destruct (sendMessage_configured prompt onProgress m H)
      as (vaultPath & claudePath & Hv & Hne & He & Hce & Hsend).
    cbv zeta in *. rewrite Hsend. simpl.
    match goal with
    | |- context [forAwait ?p ?t ?e ?x ?mm] =>
        pose proof (forAwait_queries p t e x mm) as Hq;
        pose proof (forAwait_frame p t e x mm) as (_ & Hx & _);
        pose proof (forAwait_session p t e x mm) as Hs
    end.
    cbv zeta in *. split; [now rewrite Hx|]. right.
    exists (optionsOf vaultPath claudePath m). rewrite Hq. simpl.
    repeat split. exact Hs.
  - destruct (sendMessage_unconfigured prompt onProgress m H)
      as (_ & _ & _ & H4 & H5 & _ & H7 & _).
    cbv zeta. auto.
Qed.

(** X5 (a refinement starts a conversation).  [refineInstruction] stores the
    existing instructions; the query it makes, if any, carries the quoted
    instruction as its prompt, no [resume] and the system prompt built from
    the instructions just given; and the session id it leaves is [null] or
    the [session_id] of a [system]/[init] message this query's stream
    delivered: the id of an earlier conversation never survives. *)
Theorem refineInstruction_starts_afresh :
  forall (rawInstruction existing : string) (onProgress : bool) (m : Machine),
    let r := refineTurn rawInstruction existing onProgress m in
    let prompt := "Please refine this instruction: " ++ Text.dquote ++ rawInstruction
                  ++ Text.dquote in
    existingInstructions (this (fst r)) = existing
    /\ (queries (fst r) = queries m /\ sessionId (this (fst r)) = JsNull
        \/ exists options,
             queries (fst r) = (queries m ++ [(prompt, options)])%list
             /\ resume options = None
             /\ systemPrompt options = buildRefineSystemPrompt existing
             /\ (sessionId (this (fst r)) = JsNull
                 \/ exists message,
                      In (Deliver message) (steps (agentQuery prompt options))
                      /\ isSessionInit message = true
                      /\ sessionId (this (fst r)) = getOpt message "session_id")).
Proof.
  intros rawInstruction existing onProgress m. cbv zeta.
  unfold refineTurn, refineInstruction. fold sendTurn.
  set (prompt := "Please refine this instruction: " ++ Text.dquote ++ rawInstruction
                 ++ Text.dquote).
  set (m0 := setExistingInstructions (setSessionId m JsNull) existing).
  destruct (sendMessage_effects prompt onProgress m0) as [He Hq].
  split; [exact He|].
  destruct Hq as [[Hq Hs]|(options & Hq & Hr & Hp & Hs)]; [left; now split | right].
  exists options. auto.
Qed.

(** X6 (where a session id comes from).  After [continueConversation] the
    session id is the one from before, or the [session_id] of a
    [system]/[init] message that the stream of this turn's query delivered. *)
Theorem continueConversation_session :
  forall (message : string) (onProgress : bool) (m : Machine),
    let r := continueTurn message onProgress m in
    sessionId (this (fst r)) = sessionId (this m)
    \/ exists options init,
         queries (fst r) = (queries m ++ [(message, options)])%list
         /\ In (Deliver init) (steps (agentQuery message options))
         /\ isSessionInit init = true
         /\ sessionId (this (fst r)) = getOpt init "session_id".
Proof.
  intros message onProgress m. cbv zeta.
  unfold continueTurn, continueConversation. fold sendTurn.
  destruct (negb (truthy (sessionId (this m)))); [now left|].
  destruct (sendMessage_effects message onProgress m) as [_ Hq].
  destruct Hq as [[Hq Hs]|(options & Hq & Hr & Hp & [Hs|(init & Hin & Hi & Hs)])];
    [now left | now left | right].
  exists options, init. auto.
Qed.

(** X7 (what a query may do).  The query of a configured turn runs in the
    vault with the read-only tools allowed, and its [PreToolUse] hooks let a
    tool call through only if the tool is a read-only one and, for [Read],
    [Glob] and [Grep], the path it is given is empty or within the vault. *)
Theorem turn_query_is_confined :
  forall (prompt : string) (onProgress : bool) (m : Machine) (vaultPath : string),
    adapterBasePath plugin = Some vaultPath ->
    configured host plugin m = true ->
    let r := sendTurn prompt onProgress m in
    exists options,
      queries (fst r) = (queries m ++ [(prompt, options)])%list
      /\ optCwd options = vaultPath
      /\ allowedTools options = READ_ONLY_TOOLS TOOL_READ TOOL_GREP TOOL_GLOB
      /\ forall (toolName : string) (toolInput : JsValue),
           (forall hook,
              In hook (hooksPreToolUse options) ->
              exists result, hook toolName toolInput = Normal result
                             /\ continue result = true) ->
           In toolName (READ_ONLY_TOOLS TOOL_READ TOOL_GREP TOOL_GLOB)
           /\ (toolName = "Read" \/ toolName = "Glob" \/ toolName = "Grep" ->
               exists v,
                 filePathOf toolName toolInput = Normal v
                 /\ (truthy v = false
                     \/ exists p, v = JsString p
                                  /\ Utils.isPathWithinVault host p vaultPath = true)).
Proof.
  intros prompt onProgress m vaultPath Hvault H.
  destruct (sendMessage_configured prompt onProgress m H)
    as (vaultPath' & claudePath & Hv & Hne & He & Hce & Hsend).
  rewrite Hvault in Hv. injection Hv as <-.
  cbv zeta in *. rewrite Hsend. simpl.
  exists (optionsOf vaultPath claudePath m).
  match goal with
  | |- context [forAwait ?p ?t ?e ?x ?mm] => rewrite (forAwait_queries p t e x mm)
  end.
  simpl. repeat split; try reflexivity.
  - destruct (H0 (createReadOnlyHook TOOL_READ TOOL_GREP TOOL_GLOB)) as (result & Hr & Hc);
      [now left|].
    now apply (readOnlyHook_continue _ _ _ _ toolInput result).
  - intros Htool.
    destruct (H0 (createVaultRestrictionHook host vaultPath)) as (result & Hr & Hc);
      [right; now left|].
    now apply (vaultHook_continue host vaultPath toolName toolInput result).
Qed.

Lemma sendMessage_never_cancelled (prompt : string) (onProgress : bool) (m : Machine) :
  configured host plugin m = true ->
  exists options start,
    queries (fst (sendTurn prompt onProgress m)) = (queries m ++ [(prompt, options)])%list
    /\ progress start = progress m
    /\ armed start
    /\ let response := agentQuery prompt options in
       let r := forAwait onProgress (steps response) (ending response) "" start in
       progress (fst (sendTurn prompt onProgress m)) = progress (fst r)
       /\ isReturned (snd r) = false
       /\ snd (sendTurn prompt onProgress m) = resultOf (snd r).
Proof.
  intros H.
  destruct (sendMessage_configured prompt onProgress m H)
    as (vaultPath & claudePath & Hv & Hne & He & Hce & Hsend).
  cbv zeta in *. rewrite Hsend. simpl.
  exists (optionsOf vaultPath claudePath m),
         (startOf prompt (optionsOf vaultPath claudePath m) claudePath m).
  assert (Harmed : armed (startOf prompt (optionsOf vaultPath claudePath m) claudePath m))
    by (unfold armed; simpl; apply fresh_controller_armed).
  match goal with
  | |- context [forAwait ?p ?t ?e ?x ?mm] =>
      rewrite (forAwait_queries p t e x mm);
      destruct (forAwait_never_interrupts p t e x mm Harmed) as [_ Hret]
  end.
  repeat split; try reflexivity; assumption.
Qed.

Lemma sendMessage_fails_when_stream_throws (prompt : string) (onProgress : bool)
    (m : Machine) :
  (forall options, ending (agentQuery prompt options) <> None) ->
  exists reason, snd (sendTurn prompt onProgress m) = failure reason.
Proof.
  intros Hthrows. destruct (configured host plugin m) eqn:H.
  - destruct (sendMessage_never_cancelled prompt onProgress m H)
      as (options & start & _ & _ & _ & Hr).
    cbv zeta in Hr. destruct Hr as (_ & Hret & ->).
    specialize (Hthrows options).
    destruct (ending (agentQuery prompt options)) as [e|] eqn:Ee; [|congruence].
    pose proof (forAwait_thrown_end onProgress (steps (agentQuery prompt options)) e "" start)
      as Hend.
    destruct (snd (forAwait onProgress (steps (agentQuery prompt options)) (Some e) "" start))
      as [r|text|[name message|v]]; simpl in *; try discriminate; try contradiction; eauto.
  - destruct (sendMessage_unconfigured prompt onProgress m H) as (-> & _). eauto.
Qed.

(** X8 (a stream that throws).  When the stream of the runtime ends by a
    throw, the turn fails, whatever was delivered before the throw: a
    complete instruction block in the text received so far is not
    returned. *)
Theorem turn_fails_when_stream_throws :
  forall (rawInstruction existing message : string) (onProgress : bool) (m : Machine),
    (forall prompt options, ending (agentQuery prompt options) <> None) ->
    (exists reason, snd (refineTurn rawInstruction existing onProgress m) = failure reason)
    /\ (exists reason, snd (continueTurn message onProgress m) = failure reason).
Proof.
  intros rawInstruction existing message onProgress m Hthrows. split.
  - unfold refineTurn, refineInstruction. fold sendTurn.
    apply sendMessage_fails_when_stream_throws. intros options. apply Hthrows.
  - unfold continueTurn, continueConversation. fold sendTurn.
    destruct (negb _); [simpl; eauto|].
    apply sendMessage_fails_when_stream_throws. intros options. apply Hthrows.
Qed.

Lemma sendMessage_progress (prompt : string) (m : Machine) :
  exists updates,
    progress (fst (sendTurn prompt true m)) = (progress m ++ updates)%list
    /\ (snd (sendTurn prompt true m) = last updates (failure "Empty response")
        \/ success (snd (sendTurn prompt true m)) = false).
Proof.
  destruct (configured host plugin m) eqn:H.
  - destruct (sendMessage_never_cancelled prompt true m H)
      as (options & start & _ & Hp & _ & Hr).
    cbv zeta in Hr. destruct Hr as (-> & Hret & ->).
    destruct (forAwait_progress (steps (agentQuery prompt options))
                (ending (agentQuery prompt options)) "" start) as (updates & Hu & Hlast).
    exists updates. rewrite Hu, Hp. split; [reflexivity|].
    destruct (snd (forAwait true (steps (agentQuery prompt options))
                     (ending (agentQuery prompt options)) "" start))
      as [r|text|[name message|v]]; simpl in *; try discriminate; auto.
  - destruct (sendMessage_unconfigured prompt true m H)
      as (-> & _ & _ & _ & _ & _ & _ & _ & ->).
    exists []. rewrite app_nil_r. auto.
Qed.

Lemma sendMessage_silent (prompt : string) (m : Machine) :
  progress (fst (sendTurn prompt false m)) = progress m.
Proof.
  destruct (configured host plugin m) eqn:H.
  - destruct (sendMessage_never_cancelled prompt false m H)
      as (options & start & _ & Hp & _ & Hr).
    cbv zeta in Hr. destruct Hr as (-> & _). now rewrite forAwait_silent.
  - now destruct (sendMessage_unconfigured prompt false m H)
      as (_ & _ & _ & _ & _ & _ & _ & _ & ->).
Qed.

(** X9 (progress updates).  With an [onProgress] callback, a turn reports the
    parse of the text received so far, one update after the other, and a
    successful result is the last update it reported; without the
    callback nothing is reported. *)
Theorem turn_reports_progress :
  forall (rawInstruction existing message : string) (m : Machine),
    (exists updates,
       progress (fst (refineTurn rawInstruction existing true m))
       = (progress m ++ updates)%list
       /\ (snd (refineTurn rawInstruction existing true m)
           = last updates (failure "Empty response")
           \/ success (snd (refineTurn rawInstruction existing true m)) = false))
    /\ (exists updates,
          progress (fst (continueTurn message true m)) = (progress m ++ updates)%list
          /\ (snd (continueTurn message true m) = last updates (failure "Empty response")
              \/ success (snd (continueTurn message true m)) = false))
    /\ progress (fst (refineTurn rawInstruction existing false m)) = progress m
    /\ progress (fst (continueTurn message false m)) = progress m.
Proof.
  intros rawInstruction existing message m.
  unfold refineTurn, refineInstruction, continueTurn, continueConversation. fold sendTurn.
  split; [|split; [|split]].
  - apply (sendMessage_progress _ (setExistingInstructions (setSessionId m JsNull) existing)).
  - destruct (negb _); [|apply sendMessage_progress].
    exists []. rewrite app_nil_r. auto.
  - apply (sendMessage_silent _ (setExistingInstructions (setSessionId m JsNull) existing)).
  - destruct (negb _); [reflexivity | apply sendMessage_silent].
Qed.


(** X11 (the executable and the thinking budget of a query).  The query of a
    configured turn names a non-empty executable path, which the service
    keeps: the path kept from an earlier turn when there is one (the file
    system is not looked at again), else the first of the install locations
    that exists.  A thinking budget is sent only if it is positive, and it is
    the budget of the current setting. *)
Theorem turn_query_settings :
  forall (prompt : string) (onProgress : bool) (m : Machine),
    configured host plugin m = true ->
    let r := sendTurn prompt onProgress m in
    exists options,
      queries (fst r) = (queries m ++ [(prompt, options)])%list
      /\ pathToClaudeCodeExecutable options <> ""
      /\ resolvedClaudePath (this (fst r)) = Some (pathToClaudeCodeExecutable options)
      /\ (if truthyText (resolvedClaudePath (this m))
          then resolvedClaudePath (this m) = Some (pathToClaudeCodeExecutable options)
          else Utils.findClaudeCLIPath host = Some (pathToClaudeCodeExecutable options)
               /\ Utils.existsSync host (pathToClaudeCodeExecutable options) = true)
      /\ forall tokens,
           maxThinkingTokens options = Some tokens ->
           (0 < tokens)%Z /\ In (settingsThinkingBudget plugin, tokens) THINKING_BUDGETS.
Proof.
  intros prompt onProgress m H.
  destruct (sendMessage_configured prompt onProgress m H)
    as (vaultPath & claudePath & Hv & Hne & He & Hce & Hsend).
  cbv zeta in *. rewrite Hsend. simpl.
  exists (optionsOf vaultPath claudePath m).
  match goal with
  | |- context [forAwait ?p ?t ?e ?x ?mm] =>
      rewrite (forAwait_queries p t e x mm);
      pose proof (forAwait_frame p t e x mm) as (Hx & _ & _)
  end.
  cbv zeta in Hx. rewrite Hx. simpl.
  split; [reflexivity|]. split; [exact Hce|]. split; [reflexivity|]. split.
  - unfold executableOf in He. destruct (truthyText (resolvedClaudePath (this m)));
      [exact He|]. split; [exact He|].
    unfold Utils.findClaudeCLIPath in He. now apply find_some in He.
  - intros tokens.
    destruct (find _ THINKING_BUDGETS) as [[value budget]|] eqn:Ef; [|discriminate].
    simpl. destruct (0 <? budget)%Z eqn:Epos; [|discriminate].
    intros [= <-]. apply find_some in Ef. destruct Ef as [Hin Heq].
    simpl in Heq. apply String.eqb_eq in Heq. subst value.
    split; [now apply Z.ltb_lt | exact Hin].
Qed.

Lemma sendMessage_refined_update (prompt : string) (m : Machine) :
  exists updates,
    progress (fst (sendTurn prompt true m)) = (progress m ++ updates)%list
    /\ forall u, In u updates -> refinedInstruction u <> None ->
         snd (sendTurn prompt true m) = u \/ success (snd (sendTurn prompt true m)) = false.
Proof.
  destruct (configured host plugin m) eqn:H.
  - destruct (sendMessage_never_cancelled prompt true m H)
      as (options & start & _ & Hp & _ & Hr).
    cbv zeta in Hr. destruct Hr as (-> & Hret & ->).
    destruct (forAwait_updates (steps (agentQuery prompt options))
                (ending (agentQuery prompt options)) "" start) as (updates & Hu & Hpre).
    exists updates. rewrite Hu, Hp. split; [reflexivity|].
    intros u Hin Hrefined.
    destruct (snd (forAwait true (steps (agentQuery prompt options))
                     (ending (agentQuery prompt options)) "" start))
      as [r|text|[name message|v]]; simpl in *; try discriminate; auto.
    left. destruct (Hpre text eq_refl u Hin) as (t & more & -> & ->).
    now apply parseResponse_app.
  - destruct (sendMessage_unconfigured prompt true m H)
      as (-> & _ & _ & _ & _ & _ & _ & _ & ->).
    exists []. rewrite app_nil_r. split; [reflexivity | intros ? []].
Qed.

(** X12 (a refined instruction reported is the one returned).  When a turn
    has reported a refined instruction to [onProgress], the turn returns
    that very result, unless it fails: text that arrives after the block is
    complete changes nothing. *)
Theorem refined_update_is_final :
  forall (rawInstruction existing message : string) (m : Machine),
    (exists updates,
       progress (fst (refineTurn rawInstruction existing true m))
       = (progress m ++ updates)%list
       /\ forall u, In u updates -> refinedInstruction u <> None ->
            snd (refineTurn rawInstruction existing true m) = u
            \/ success (snd (refineTurn rawInstruction existing true m)) = false)
    /\ (exists updates,
          progress (fst (continueTurn message true m)) = (progress m ++ updates)%list
          /\ forall u, In u updates -> refinedInstruction u <> None ->
               snd (continueTurn message true m) = u
               \/ success (snd (continueTurn message true m)) = false).
Proof.
  intros rawInstruction existing message m.
  unfold refineTurn, refineInstruction, continueTurn, continueConversation. fold sendTurn.
  split.
  - apply (sendMessage_refined_update _
             (setExistingInstructions (setSessionId m JsNull) existing)).
  - destruct (negb _); [|apply sendMessage_refined_update].
    exists []. rewrite app_nil_r. split; [reflexivity | intros ? []].
Qed.

(** X13 (a conversation).  In a turn of [continueConversation] that follows a
    turn of [refineInstruction], a query, if one is made, resumes the session
    the first turn left and carries the system prompt built from the
    existing instructions that were given to [refineInstruction]; after
    [resetConversation] no query is made at all. *)
Theorem continued_conversation :
  forall (rawInstruction existing message : string) (onProgress onProgress' : bool)
         (m : Machine),
    let m1 := fst (refineTurn rawInstruction existing onProgress m) in
    let r2 := continueTurn message onProgress' m1 in
    (queries (fst r2) = queries m1
     \/ exists options,
          queries (fst r2) = (queries m1 ++ [(message, options)])%list
          /\ truthy (sessionId (this m1)) = true
          /\ resume options = Some (sessionId (this m1))
          /\ systemPrompt options = buildRefineSystemPrompt existing)
    /\ continueTurn message onProgress' (resetConversation m1)
       = (resetConversation m1, failure "No active conversation to continue").
Proof.
  intros rawInstruction existing message onProgress onProgress' m. cbv zeta.
  split; [|reflexivity].
  assert (He : existingInstructions
                 (this (fst (refineTurn rawInstruction existing onProgress m))) = existing).
  { unfold refineTurn, refineInstruction. fold sendTurn.
    now destruct (sendMessage_effects
                    ("Please refine this instruction: " ++ Text.dquote ++ rawInstruction
                     ++ Text.dquote)
                    onProgress (setExistingInstructions (setSessionId m JsNull) existing))
      as [-> _]. }
  set (m1 := fst (refineTurn rawInstruction existing onProgress m)) in *.
  unfold continueTurn, continueConversation. fold sendTurn.
  destruct (truthy (sessionId (this m1))) eqn:Es; simpl; [|now left].
  destruct (sendMessage_effects message onProgress' m1)
    as [_ [[Hq _]|(options & Hq & Hr & Hp & _)]]; [now left | right].
  exists options. rewrite Es in Hr. rewrite He in Hp. auto.
Qed.

End Turn.

(** ** The hooks, further *)

Section EditTracking.

Variable TOOL_BASH : string.
Variables isEditTool isFileTool : string -> bool.
Variable getPathFromToolInput : string -> JsValue -> option string.
Variable candidatePaths : JsValue -> list (string * SecurityHooks.Intent).
Variable St : Type.
Variable context : SecurityHooks.VaultRestrictionContext St.

Let hook := SecurityHooks.createVaultRestrictionHook TOOL_BASH isEditTool isFileTool
              getPathFromToolInput candidatePaths St context.

(** X14 (the edit state).  The shared hook calls [onEditBlocked] exactly when
    it denies an edit tool (never for the shell tool, never for a call it
    lets through, never for a tool that only reads), once, with the tool and
    its input; without the callback the state is never touched. *)
Theorem onEditBlocked_on_denied_edits_only :
  forall (toolName : string) (tool_input : JsValue) (st : St),
    snd (hook toolName tool_input st)
    = if negb (continue (fst (hook toolName tool_input st)))
         && negb (toolName =? TOOL_BASH) && isEditTool toolName
      then match SecurityHooks.onEditBlocked context with
           | Some callback => callback toolName tool_input st
           | None => st
           end
      else st.
Proof.
  intros toolName tool_input st. unfold hook, SecurityHooks.createVaultRestrictionHook.
  destruct (toolName =? TOOL_BASH).
  - destruct (SecurityHooks.findBashCommandPathViolation _ _ _); simpl;
      now rewrite ?andb_false_r.
  - destruct (isFileTool toolName); simpl; [|reflexivity].
    destruct (getPathFromToolInput toolName tool_input) as [filePath|]; [|reflexivity].
    destruct (negb (filePath =? "") && negb (SecurityHooks.isPathWithinVault context filePath));
      [|reflexivity].
    destruct (isEditTool toolName); simpl; [|reflexivity].
    now destruct (SecurityHooks.isAllowedExportPath context filePath).
Qed.

End EditTracking.

(** X15 (the path of a search decides).  For [Glob] and [Grep] with a
    non-empty [path] argument the verdict of the refine service's vault hook
    is that of the path alone: the [pattern] is not looked at. *)
Theorem search_path_decides :
  forall (host : Utils.Host) (vaultPath toolName : string) (toolInput : JsValue) (p : string),
    toolName = "Glob" \/ toolName = "Grep" ->
    getOpt toolInput "path" = JsString p -> p <> "" ->
    createVaultRestrictionHook host vaultPath toolName toolInput
    = Normal (if Utils.isPathWithinVault host p vaultPath then allow
              else deny ("Access denied: " ++ Text.dquote ++ p ++ Text.dquote
                         ++ " is outside the vault")).
Proof.
  intros host vaultPath toolName toolInput p Htool Hpath Hne.
  apply String.eqb_neq in Hne.
  destruct toolInput; try discriminate. simpl in Hpath.
  unfold createVaultRestrictionHook, filePathOf, isPathWithinVaultUtil, jsOr.
  destruct Htool as [ -> | -> ]; simpl; rewrite Hpath;
    repeat (progress (simpl; rewrite ?Hne));
    now destruct (Utils.isPathWithinVault host p vaultPath).
Qed.

(** ** The message transformer, further *)

Lemma forOf_all (P : TransformEvent -> Prop) (body : JsValue -> Gen unit) :
  (forall x s, Forall P (yielded s) -> Forall P (yielded (snd (body x s)))) ->
  forall items s, Forall P (yielded s) -> Forall P (yielded (snd (forOf body items s))).
Proof.
  intros Hb. induction items as [|x items IH]; intros s H; simpl; [assumption|].
  unfold bind. specialize (Hb x s H).
  destruct (body x s) as [[[]|e] s']; simpl in *; auto.
Qed.

Lemma truthy_not_nullish (v : JsValue) : truthy v = true -> isNullish v = false.
Proof. now destruct v. Qed.

Ltac extend_sound :=
  auto;
  try (apply Forall_app; split; [assumption|]; constructor; [|constructor];
       unfold sound, jsOr; cbn;
       repeat match goal with
              | H : truthy ?v = _ |- context [truthy ?v] => rewrite H
              | H : truthy ?v = true |- context [isNullish ?v] =>
                  rewrite (truthy_not_nullish v H)
              | |- context [if ?b then _ else _] => destruct b eqn:?
              end;
       cbn; auto 10 using truthy_not_nullish).

Lemma assistantBlock_sound (w : World) (p block : JsValue) (s : GenState) :
  Forall (sound ["thinking"; "text"; "tool_use"]) (yielded s) ->
  Forall (sound ["thinking"; "text"; "tool_use"]) (yielded (snd (assistantBlock w p block s))).
Proof. intros H. gen_unfold. split_all; extend_sound. Qed.

Lemma userBlock_sound (str : JsValue -> JsValue) (m p block : JsValue) (s : GenState) :
  Forall (sound ["blocked"; "tool_result"]) (yielded s) ->
  Forall (sound ["blocked"; "tool_result"]) (yielded (snd (userBlock str m p block s))).
Proof. intros H. gen_unfold. split_all; extend_sound. Qed.

Lemma streamEvent_sound (w : World) (m p : JsValue) (s : GenState) :
  Forall (sound ["tool_use"; "thinking"; "text"]) (yielded s) ->
  Forall (sound ["tool_use"; "thinking"; "text"]) (yielded (snd (streamEvent w m p s))).
Proof. intros H. gen_unfold. split_all; extend_sound. Qed.

Lemma userMessage_sound (str : JsValue -> JsValue) (m p : JsValue) (s : GenState) :
  Forall (sound ["blocked"; "tool_result"]) (yielded s) ->
  Forall (sound ["blocked"; "tool_result"]) (yielded (snd (userMessage str m p s))).
Proof.
  intros H. unfold userMessage, contentBlocks, ifM, andM, propTruthy, read, bind, ret, yield, get.
  destruct m; cbn; auto.
  repeat match goal with
         | |- context [if ?b then _ else _] => destruct b eqn:?; cbn
         end;
    try (apply forOf_all; [intros; now apply userBlock_sound|]); cbn; extend_sound.
Qed.

Lemma transformSDKMessage_sound (str : JsValue -> JsValue) (w : World) (m : JsValue)
    (s : GenState) :
  Forall (sound (kindsFor (getOpt m "type"))) (yielded s) ->
  Forall (sound (kindsFor (getOpt m "type"))) (yielded (snd (transformSDKMessage str w m s))).
Proof.
  intros H. unfold transformSDKMessage, kindsFor in *.
  destruct m; try exact H;
    unfold read, bind, get; cbn [fst snd getOpt] in *;
    repeat match goal with
           | |- context [if strictEqStr ?v ?t then _ else _] =>
               destruct (strictEqStr v t) eqn:?
           end;
    try exact H;
    try (now apply userMessage_sound);
    try (now apply streamEvent_sound);
    try (unfold contentBlocks, read, bind, ret, get; cbn;
         apply forOf_all; [intros; now apply assistantBlock_sound | exact H]);
    gen_unfold; split_all; extend_sound.
Qed.

Lemma run_sound (str : JsValue -> JsValue) (w : World) (m : JsValue) :
  Forall (sound (kindsFor (getOpt m "type"))) (fst (run str w m)).
Proof.
  unfold run.
  pose proof (transformSDKMessage_sound str w m {| yielded := []; draws := 0 |}
                (Forall_nil _)) as H.
  now destruct (transformSDKMessage str w m _) as [c s].
Qed.

(** X16 (kinds).  The events of a message are of the kinds of its type: a
    [system] message gives the session-init signal only, an [assistant]
    message and a [stream_event] give thinking, text and tool-use chunks, a
    [user] message gives blocked and tool-result chunks, an [error] message
    gives an error chunk, and a [result] message or a message of any other
    type gives nothing. *)
Theorem events_are_of_the_kinds_of_the_message :
  forall (str : JsValue -> JsValue) (w : World) (m : JsValue),
    Forall (fun e => In (kindOf e) (kindsFor (getOpt m "type"))) (fst (run str w m)).
Proof.
  intros str w m. eapply Forall_impl; [|apply run_sound]. now intros e [_ H].
Qed.

(** X17 (no empty increment).  Every thinking, text, blocked and error chunk
    has a [content] that is not falsy (an empty text is never emitted), a
    session-init signal has a session id, a tool-use chunk has an id, a name
    and an input (made up when the block has none), and the [isError] of a
    tool-result chunk is never [undefined] or [null]. *)
Theorem events_are_substantial :
  forall (str : JsValue -> JsValue) (w : World) (m : JsValue),
    Forall (fun e => substantial e = true) (fst (run str w m)).
Proof.
  intros str w m. eapply Forall_impl; [|apply run_sound]. now intros e [H _].
Qed.

Lemma textsOf_app (a b : list TransformEvent) :
  textsOf (a ++ b) = (textsOf a ++ textsOf b)%list.
Proof.
  induction a as [|e a IH]; simpl; [reflexivity|]. destruct e; simpl; now rewrite IH.
Qed.

Lemma assistantBlock_nullish (w : World) (p block : JsValue) (s : GenState) :
  isNullish block = true ->
  exists e, assistantBlock w p block s = (Throw e, s) /\ isTextBlock block = Throw e.
Proof. destruct block; try discriminate; intros _; eexists; split; reflexivity. Qed.

Lemma assistantBlock_text (w : World) (p block : JsValue) (s : GenState) :
  isNullish block = false ->
  exists keep,
    fst (assistantBlock w p block s) = Normal tt
    /\ isTextBlock block = Normal keep
    /\ textsOf (yielded (snd (assistantBlock w p block s)))
       = (textsOf (yielded s) ++ (if keep then [getOpt block "text"] else []))%list
    /\ get block "text" = Normal (getOpt block "text").
Proof.
  intros Hn. unfold isTextBlock.
  destruct block; try discriminate; gen_unfold;
    try solve [exists false; cbn; rewrite app_nil_r; auto].
  destruct (strictEqStr (lookup "type" props) "text") eqn:Et.
  - destruct (lookup "type" props) as [| | | |t| |]; try discriminate.
    simpl in Et. apply String.eqb_eq in Et. subst t.
    exists (truthy (lookup "text" props)). cbn.
    destruct (truthy (lookup "text" props)); cbn;
      rewrite ?textsOf_app, ?app_nil_r; auto.
  - exists false. cbn. rewrite Et.
    split_all; rewrite ?textsOf_app, ?app_nil_r; auto.
Qed.

Lemma forOf_texts (w : World) (p : JsValue) (blocks : list JsValue) :
  forall s,
    match forOf (assistantBlock w p) blocks s with
    | (Normal _, s') =>
        exists texts, textBlocks blocks = Normal texts
                      /\ textsOf (yielded s') = (textsOf (yielded s) ++ texts)%list
    | (Throw e, _) => textBlocks blocks = Throw e
    end.
Proof.
  unfold textBlocks.
  induction blocks as [|block blocks IH]; intros s; simpl.
  - exists []. now rewrite app_nil_r.
  - unfold bind. destruct (isNullish block) eqn:Hn.
    + destruct (assistantBlock_nullish w p block s Hn) as (e & -> & ->). reflexivity.
    + destruct (assistantBlock_text w p block s Hn) as (keep & H1 & -> & H3 & H4).
      destruct (assistantBlock w p block s) as [c s1]. simpl in *. subst c.
      specialize (IH s1). simpl.
      destruct (forOf (assistantBlock w p) blocks s1) as [[[]|e] s2].
      * destruct IH as (texts & Ht & Hy).
        destruct (filterC isTextBlock blocks) as [kept|e]; simpl in *; [|discriminate].
        destruct keep; simpl.
        -- rewrite H4, Ht. simpl. eexists. split; [reflexivity|].
           now rewrite Hy, H3, <- app_assoc.
        -- rewrite Ht. eexists. split; [reflexivity|]. now rewrite Hy, H3, app_nil_r.
      * destruct (filterC isTextBlock blocks) as [kept|e0]; simpl in *; [|exact IH].
        destruct keep; simpl; [|exact IH]. rewrite H4, IH. reflexivity.
Qed.

Lemma extractText_assistant (props : list (string * JsValue)) :
  lookup "type" props = JsString "assistant" ->
  extractTextFromMessage (JsObject props)
  = match getOpt (lookup "message" props) "content" with
    | JsArray items => let? texts := textBlocks items in Normal (arrayJoin "" texts)
    | content =>
        if truthy content
        then Throw (ErrorObject "TypeError" "message.message.content.filter is not a function")
        else Normal ""
    end.
Proof.
  intros Et. unfold extractTextFromMessage. simpl get. cbn [andThen]. rewrite Et.
  cbn [strictEqStr String.eqb Ascii.eqb Bool.eqb andb negb orb get andThen].
  destruct (getOpt (lookup "message" props) "content") as [| |b|n|c|items|ps];
    cbn [truthy negb]; try reflexivity.
  - now destruct b.
  - now destruct (n =? 0)%Z.
  - now destruct (c =? "").
  - unfold textBlocks. fold isTextBlock.
    destruct (filterC isTextBlock items); reflexivity.
Qed.

Lemma run_assistant (str : JsValue -> JsValue) (w : World) (props : list (string * JsValue)) :
  lookup "type" props = JsString "assistant" ->
  run str w (JsObject props)
  = (let '(c, s) := forOf (assistantBlock w (nestedTaskOf (JsObject props)))
                      (blocksOf (JsObject props)) {| yielded := []; draws := 0 |} in
     (yielded s, c)).
Proof.
  intros Et. unfold run, transformSDKMessage, nestedTaskOf.
  unfold read at 1 2. unfold bind at 1 2. cbn [get getOpt]. rewrite Et.
  cbn [strictEqStr String.eqb Ascii.eqb Bool.eqb andb].
  unfold bind. rewrite contentBlocks_eq. reflexivity.
Qed.

(** X18 (the two readers of an assistant message).  On an assistant message
    whose content is an array (or is missing), [extractTextFromMessage] of
    the refine service returns the contents of the text chunks that
    [transformSDKMessage] yields for the chat view, joined in order; the
    one throws exactly when the other does, and then the same error.  On a
    content that is neither (a string, say) the transformer yields nothing
    and [extractTextFromMessage] throws. *)
Theorem extractText_reads_the_text_chunks :
  forall (str : JsValue -> JsValue) (w : World) (m : JsValue),
    strictEqStr (getOpt m "type") "assistant" = true ->
    if contentIsArrayOrFalsy m then
      extractTextFromMessage m
      = match snd (run str w m) with
        | Normal _ => Normal (arrayJoin "" (textsOf (fst (run str w m))))
        | Throw e => Throw e
        end
    else
      run str w m = ([], Normal tt)
      /\ extractTextFromMessage m
         = Throw (ErrorObject "TypeError" "message.message.content.filter is not a function").
Proof.
  intros str w m Htype.
  destruct m; try discriminate. simpl in Htype.
  destruct (lookup "type" props) as [| | | |t| |] eqn:Et; try discriminate.
  simpl in Htype. apply String.eqb_eq in Htype. subst t.
  rewrite (run_assistant str w props Et), (extractText_assistant props Et).
  unfold contentIsArrayOrFalsy, blocksOf. cbn [getOpt].
  destruct (getOpt (lookup "message" props) "content") as [| |b|n|c|items|ps];
    cbn [truthy negb]; try (split; reflexivity); try reflexivity.
  - destruct b; cbn; auto.
  - destruct (n =? 0)%Z; cbn; auto.
  - destruct (c =? ""); cbn; auto.
  - pose proof (forOf_texts w (nestedTaskOf (JsObject props)) items
                  {| yielded := []; draws := 0 |}) as H.
    destruct (forOf _ items _) as [[[]|e] s']; simpl in *.
    + destruct H as (texts & -> & ->). reflexivity.
    + now rewrite H.
Qed.

(** X19 (a blocked call).  A user message that carries the denial of a hook
    ([_blocked] and [_blockReason] both truthy) yields the blocked chunk with
    the reason and nothing else: its tool results, top-level or in content
    blocks, are not emitted, and no content block is read, so that the run
    completes whatever the content holds. *)
Theorem blocked_message_yields_the_reason_only :
  forall (str : JsValue -> JsValue) (w : World) (m : JsValue),
    strictEqStr (getOpt m "type") "user" = true ->
    truthy (getOpt m "_blocked") = true ->
    truthy (getOpt m "_blockReason") = true ->
    run str w m = ([BlockedChunk (getOpt m "_blockReason")], Normal tt).
Proof.
  intros str w m Htype Hblocked Hreason.
  destruct m; try discriminate. simpl in *.
  destruct (lookup "type" props) as [| | | |t| |] eqn:Et; try discriminate.
  simpl in Htype. apply String.eqb_eq in Htype. subst t.
  unfold run, transformSDKMessage, userMessage, ifM, andM, propTruthy, read, bind, ret,
    yield, get.
  rewrite Et. cbn [strictEqStr String.eqb Ascii.eqb Bool.eqb andb fst snd].
  rewrite Hblocked, Hreason. reflexivity.
Qed.

(** ** The environment variables *)

Section EnvironmentVariables.

Import Environment.

Lemma split_oneLine (s : string) : oneLine s = true -> Text.split lineFeed s = [s].
Proof.
  unfold oneLine. induction s as [|c s IH]; simpl; [reflexivity|].
  destruct (Ascii.eqb c lineFeed); [discriminate|].
  destruct (indexOf lineFeed s); [discriminate|]. intros _. now rewrite IH.
Qed.

(** The text is read line by line. *)
Lemma parse_appended_line (text line : string) :
  oneLine line = true ->
  parseEnvironmentVariables (text ++ String lineFeed line)
  = parseLine (parseEnvironmentVariables text) line.
Proof.
  intros H. unfold parseEnvironmentVariables.
  now rewrite split_app, fold_left_app, (split_oneLine line H).
Qed.

(** *** Trimming *)

Lemma trimEnd_cons (c : ascii) (r : string) :
  Text.isWhiteSpace c = false -> Text.trimEnd (String c r) = String c (Text.trimEnd r).
Proof. intros H. simpl. rewrite H. now destruct (Text.trimEnd r). Qed.

Lemma trimEnd_idempotent (s : string) : Text.trimEnd (Text.trimEnd s) = Text.trimEnd s.
Proof.
  induction s as [|c s IH]; [reflexivity|]. simpl.
  destruct (Text.trimEnd s) as [|d r] eqn:E.
  - destruct (Text.isWhiteSpace c) eqn:Ec; [reflexivity|]. simpl. now rewrite Ec.
  - change (Text.trimEnd (String c (String d r))) with
      (match Text.trimEnd (String d r) with
       | "" => if Text.isWhiteSpace c then "" else String c ""
       | r' => String c r'
       end).
    now rewrite IH.
Qed.

Lemma trimStart_trimEnd (s : string) :
  Text.trimStart (Text.trimEnd s) = Text.trimEnd (Text.trimStart s).
Proof.
  induction s as [|c s IH]; [reflexivity|].
  destruct (Text.isWhiteSpace c) eqn:Ec.
  - change (Text.trimStart (String c s)) with
      (if Text.isWhiteSpace c then Text.trimStart s else String c s).
    rewrite Ec, <- IH. simpl. rewrite Ec.
    destruct (Text.trimEnd s) as [|d r]; [reflexivity|]. simpl. now rewrite Ec.
  - rewrite (trimEnd_cons c s Ec). simpl Text.trimStart at 1 2. rewrite Ec.
    now rewrite (trimEnd_cons c s Ec).
Qed.

Lemma trim_trimEnd (s : string) : Text.trim (Text.trimEnd s) = Text.trim s.
Proof. unfold Text.trim. now rewrite trimStart_trimEnd, trimEnd_idempotent. Qed.

Lemma trimStart_idempotent (s : string) :
  Text.trimStart (Text.trimStart s) = Text.trimStart s.
Proof.
  induction s as [|c s IH]; [reflexivity|]. simpl.
  destruct (Text.isWhiteSpace c) eqn:Ec; [exact IH|]. simpl. now rewrite Ec.
Qed.

Lemma trim_idempotent (s : string) : Text.trim (Text.trim s) = Text.trim s.
Proof.
  unfold Text.trim.
  now rewrite trimStart_trimEnd, trimStart_idempotent, trimEnd_idempotent.
Qed.

(** A trimmed text that is not empty starts with a character that is not
    white space. *)
Lemma trim_head (s : string) :
  match Text.trim s with
  | "" => True
  | String c _ => Text.isWhiteSpace c = false
  end.
Proof.
  unfold Text.trim. pose proof (trimStart_head s) as H.
  destruct (Text.trimStart s) as [|c r]; [exact I|].
  rewrite (trimEnd_cons c r H). exact H.
Qed.

(** *** Searching a character *)

Lemma indexOf_trimStart (c : ascii) (s : string) :
  indexOf c s = None -> indexOf c (Text.trimStart s) = None.
Proof.
  induction s as [|d s IH]; simpl; [reflexivity|].
  destruct (Ascii.eqb d c) eqn:E; [discriminate|].
  destruct (indexOf c s) eqn:Ei; [discriminate|]. intros _.
  destruct (Text.isWhiteSpace d); [now apply IH|]. simpl. now rewrite E, Ei.
Qed.

Lemma indexOf_trimEnd (c : ascii) (s : string) :
  indexOf c s = None -> indexOf c (Text.trimEnd s) = None.
Proof.
  induction s as [|d s IH]; simpl; [reflexivity|].
  destruct (Ascii.eqb d c) eqn:E; [discriminate|].
  destruct (indexOf c s); [discriminate|]. intros _. specialize (IH eq_refl).
  destruct (Text.trimEnd s) as [|e r].
  - destruct (Text.isWhiteSpace d); simpl; [reflexivity|]. now rewrite E.
  - simpl in *. rewrite E. now rewrite IH.
Qed.

Lemma indexOf_trim (c : ascii) (s : string) :
  indexOf c s = None -> indexOf c (Text.trim s) = None.
Proof. intros H. unfold Text.trim. now apply indexOf_trimEnd, indexOf_trimStart. Qed.

Lemma indexOf_before (c : ascii) (s : string) (n : nat) :
  indexOf c s = Some n -> indexOf c (substring 0 n s) = None.
Proof.
  revert n. induction s as [|d s IH]; intros n; simpl; [discriminate|].
  destruct (Ascii.eqb d c) eqn:E.
  - intros [= <-]. reflexivity.
  - destruct (indexOf c s) as [k|]; [|discriminate]. intros [= <-]. simpl.
    rewrite E. now rewrite (IH k eq_refl).
Qed.

Lemma indexOf_app (c : ascii) (a b : string) :
  indexOf c a = None -> indexOf c (a ++ String c b) = Some (String.length a).
Proof.
  induction a as [|d a IH]; simpl.
  - intros _. now rewrite Ascii.eqb_refl.
  - destruct (Ascii.eqb d c); [discriminate|].
    destruct (indexOf c a); [discriminate|]. intros _. now rewrite IH.
Qed.

Lemma substring_app (a b : string) : substring 0 (String.length a) (a ++ b) = a.
Proof.
  induction a as [|c a IH]; simpl; [now destruct b | now rewrite IH].
Qed.

Lemma oneLine_app (a b : string) : oneLine (a ++ b) = oneLine a && oneLine b.
Proof.
  unfold oneLine. induction a as [|c a IH]; simpl; [reflexivity|].
  destruct (Ascii.eqb c lineFeed); [reflexivity|].
  destruct (indexOf lineFeed (a ++ b)), (indexOf lineFeed a); simpl in *;
    try reflexivity; try discriminate; exact IH.
Qed.

Lemma trimEnd_app (a b : string) :
  Text.trimEnd b <> "" -> Text.trimEnd (a ++ b) = a ++ Text.trimEnd b.
Proof.
  intros Hb. induction a as [|c a IH]; [reflexivity|].
  simpl. rewrite IH. destruct (a ++ Text.trimEnd b) eqn:E; [|reflexivity].
  destruct a; simpl in E; [contradiction|discriminate].
Qed.

(** *** The record being built *)

Lemma assign_keys (k v : string) (r : Env) :
  NoDup (map fst r) -> NoDup (map fst (assign k v r)).
Proof.
  assert (Hin : forall r x, In x (map fst (assign k v r)) -> x = k \/ In x (map fst r)).
  { clear r. induction r as [|[k' v'] r IH]; simpl; [intros x [<-|[]]; now left|].
    intros x. destruct (k' =? k) eqn:E; simpl.
    - apply String.eqb_eq in E. subst k'. tauto.
    - intros [H|H]; [tauto|]. apply IH in H. tauto. }
  induction r as [|[k' v'] r IH]; simpl;
    [intros _; constructor; [intros [] | constructor]|].
  intros Hnd. inversion Hnd as [|? ? Hnot Hrest]; subst.
  destruct (k' =? k) eqn:E; simpl.
  - apply String.eqb_eq in E. subst k'. now constructor.
  - constructor; [|now apply IH].
    intros H. apply Hin in H. destruct H as [->|H]; [|contradiction].
    now rewrite String.eqb_refl in E.
Qed.

Lemma assign_entries (P : string * string -> Prop) (k v : string) (r : Env) :
  P (k, v) -> Forall P r -> Forall P (assign k v r).
Proof.
  intros Hkv. induction 1 as [|[k' v'] r Hx Hr IH]; simpl; [now repeat constructor|].
  destruct (k' =? k); constructor; auto.
Qed.

Lemma own_assign (k v : string) (r : Env) :
  own k (assign k v r) = Some v
  /\ forall k', k' <> k -> own k' (assign k v r) = own k' r.
Proof.
  induction r as [|[k0 v0] r [IH1 IH2]]; simpl.
  - rewrite String.eqb_refl. split; [reflexivity|].
    intros k' H. apply not_eq_sym in H. apply String.eqb_neq in H. now rewrite H.
  - destruct (k0 =? k) eqn:E; simpl.
    + rewrite String.eqb_refl. split; [reflexivity|].
      apply String.eqb_eq in E. subst k0.
      intros k' H. apply not_eq_sym in H. apply String.eqb_neq in H. now rewrite H.
    + rewrite E. split; [exact IH1|]. intros k' H.
      destruct (k0 =? k'); [reflexivity | now apply IH2].
Qed.

(** *** One line *)

Lemma trim_cons (c : ascii) (r : string) :
  Text.isWhiteSpace c = false -> Text.trim (String c r) = String c (Text.trimEnd r).
Proof. intros H. unfold Text.trim. simpl Text.trimStart. rewrite H. now apply trimEnd_cons. Qed.

Lemma startsWith_hash (c : ascii) (r : string) :
  Text.startsWith (String c r) "#" = Ascii.eqb c "#".
Proof.
  destruct (Ascii.eqb c "#") eqn:E.
  - apply Ascii.eqb_eq in E. subst c. apply (startsWith_append "#" r).
  - destruct (Text.startsWith (String c r) "#") eqn:Es; [|reflexivity].
    apply startsWith_iff in Es as [rest Hrest]. injection Hrest as -> _.
    discriminate.
Qed.

(** What a line does: nothing, or one assignment of a trimmed value to a
    key that is fit to be stored. *)
Lemma parseLine_cases (r : Env) (line : string) :
  parseLine r line = r
  \/ exists k v, storedKey k = true /\ Text.trim v = v
                 /\ parseLine r line = setProperty k v r.
Proof.
  unfold parseLine.
  pose proof (trim_head line) as Hhead.
  destruct (Text.trim line) as [|c0 t] eqn:Et; [now left|].
  cbn [String.eqb orb]. rewrite startsWith_hash.
  destruct (Ascii.eqb c0 "#") eqn:Ehash; [now left|].
  destruct (indexOf "="%char (String c0 t)) as [n|] eqn:En; [|now left].
  destruct n as [|n]; [now left|]. cbn [Nat.ltb Nat.leb].
  set (key := Text.trim (substring 0 (S n) (String c0 t))).
  set (value := Text.trim (Text.slice (S (S n)) (String c0 t))).
  assert (Hkey : key = String c0 (Text.trimEnd (substring 0 n t)))
    by (subst key; simpl substring; now apply trim_cons).
  destruct (key =? "") eqn:Ekey; [now left|]. right.
  exists key, value. split; [|split; [apply trim_idempotent | reflexivity]].
  unfold storedKey. rewrite Ekey. cbn [negb andb].
  replace (Text.trim key) with key by (subst key; now rewrite trim_idempotent).
  rewrite String.eqb_refl. cbn [andb].
  replace (indexOf "="%char key) with (@None nat)
    by (symmetry; subst key; apply indexOf_trim; now apply indexOf_before).
  rewrite Hkey, startsWith_hash, Ehash. reflexivity.
Qed.

Lemma setProperty_entries (P : string * string -> Prop) (k v : string) (r : Env) :
  (k <> "__proto__" -> P (k, v)) -> Forall P r -> Forall P (setProperty k v r).
Proof.
  intros Hkv Hr. unfold setProperty. destruct (k =? "__proto__") eqn:E; [exact Hr|].
  apply assign_entries; [|exact Hr]. apply Hkv. now apply String.eqb_neq.
Qed.

Lemma setProperty_keys (k v : string) (r : Env) :
  NoDup (map fst r) -> NoDup (map fst (setProperty k v r)).
Proof.
  unfold setProperty. destruct (k =? "__proto__"); [auto | apply assign_keys].
Qed.

(** X20 (what the parse holds).  Whatever the text, the variables parsed from
    it have distinct names; each name is not empty, is trimmed, holds no
    [=], does not start with [#] and is not [__proto__]; each value is
    trimmed. *)
Theorem parseEnvironmentVariables_entries :
  forall input : string,
    NoDup (map fst (parseEnvironmentVariables input))
    /\ Forall (fun e => storedKey (fst e) = true
                        /\ fst e <> "__proto__"
                        /\ Text.trim (snd e) = snd e)
         (parseEnvironmentVariables input).
Proof.
  intros input. unfold parseEnvironmentVariables.
  assert (H : forall lines r,
             NoDup (map fst r)
             /\ Forall (fun e => storedKey (fst e) = true /\ fst e <> "__proto__"
                                 /\ Text.trim (snd e) = snd e) r ->
             NoDup (map fst (fold_left parseLine lines r))
             /\ Forall (fun e => storedKey (fst e) = true /\ fst e <> "__proto__"
                                 /\ Text.trim (snd e) = snd e)
                  (fold_left parseLine lines r)).
  { induction lines as [|line lines IH]; intros r [Hnd Hall]; simpl; [now split|].
    apply IH.
    destruct (parseLine_cases r line) as [->|(k & v & Hk & Hv & ->)]; [now split|].
    split; [now apply setProperty_keys|].
    apply setProperty_entries; [|exact Hall]. simpl. auto. }
  apply H. split; constructor.
Qed.

Lemma storedKey_head (k : string) :
  storedKey k = true ->
  exists c r, k = String c r /\ Text.isWhiteSpace c = false /\ Ascii.eqb c "#" = false
              /\ Text.trim k = k /\ indexOf "="%char k = None.
Proof.
  unfold storedKey. intros H.
  apply andb_true_iff in H as [H Hhash]. apply andb_true_iff in H as [H Heq].
  apply andb_true_iff in H as [Hne Htrim].
  apply String.eqb_eq in Htrim.
  pose proof (trim_head k) as Hhead. rewrite Htrim in Hhead.
  destruct k as [|c r]; [discriminate|].
  exists c, r. rewrite startsWith_hash in Hhash. apply negb_true_iff in Hhash.
  repeat split; auto. now destruct (indexOf "="%char (String c r)).
Qed.

Lemma parseLine_assignment (r : Env) (k v : string) :
  storedKey k = true ->
  parseLine r (k ++ "=" ++ v) = setProperty k (Text.trim v) r.
Proof.
  intros Hk. destruct (storedKey_head k Hk) as (c & t & -> & Hc & Hhash & Htrim & Heq).
  unfold parseLine.
  assert (Ht : Text.trim (String c t ++ "=" ++ v) = String c t ++ "=" ++ Text.trimEnd v).
  { unfold Text.trim. simpl Text.trimStart. rewrite Hc.
    change (String c (t ++ String "=" v)) with (String c t ++ String "=" v).
    rewrite trimEnd_app; rewrite (trimEnd_cons "=" v eq_refl); [reflexivity | discriminate]. }
  rewrite Ht.
  change ((String c t ++ "=" ++ Text.trimEnd v =? "") || _)
    with (Text.startsWith (String c (t ++ "=" ++ Text.trimEnd v)) "#").
  rewrite startsWith_hash, Hhash.
  change ("=" ++ Text.trimEnd v) with (String "=" (Text.trimEnd v)).
  rewrite (indexOf_app "=" (String c t) (Text.trimEnd v) Heq).
  cbn [String.length Nat.ltb Nat.leb].
  change (S (String.length t)) with (String.length (String c t)).
  rewrite substring_app, Htrim. cbn [String.eqb negb].
  replace (Text.slice (S (String.length (String c t)))
             (String c t ++ String "=" (Text.trimEnd v)))
    with (Text.trimEnd v).
  - now rewrite trim_trimEnd.
  - replace (S (String.length (String c t)))
      with (String.length (String c t ++ "=")) by (rewrite length_append; simpl; lia).
    replace (String c t ++ String "=" (Text.trimEnd v))
      with ((String c t ++ "=") ++ Text.trimEnd v) by now rewrite append_assoc.
    now rewrite slice_append.
Qed.

(** X21 (a later assignment wins).  A line [k=v] appended to a text defines
    [k] as the trimmed [v], whatever the text defined before, and changes
    no other variable. *)
Theorem appended_assignment_wins :
  forall (text k v : string),
    storedKey k = true -> k <> "__proto__" -> oneLine k = true -> oneLine v = true ->
    let r := parseEnvironmentVariables (text ++ String lineFeed (k ++ "=" ++ v)) in
    own k r = Some (Text.trim v)
    /\ forall k', k' <> k -> own k' r = own k' (parseEnvironmentVariables text).
Proof.
  intros text k v Hk Hproto Hlk Hlv. cbv zeta.
  rewrite parse_appended_line by (rewrite !oneLine_app, Hlk, Hlv; reflexivity).
  rewrite parseLine_assignment by exact Hk.
  unfold setProperty. apply String.eqb_neq in Hproto. rewrite Hproto.
  apply own_assign.
Qed.

(** X22 (lines that define nothing).  A blank line, a comment, a line without
    [=] and a line that starts with [=] leave the variables as they are. *)
Theorem skipped_lines :
  forall (text line : string),
    oneLine line = true ->
    blank line = true
    \/ Text.startsWith (Text.trim line) "#" = true
    \/ indexOf "="%char (Text.trim line) = None
    \/ indexOf "="%char (Text.trim line) = Some 0 ->
    parseEnvironmentVariables (text ++ String lineFeed line)
    = parseEnvironmentVariables text.
Proof.
  intros text line Hline H. rewrite parse_appended_line by exact Hline.
  unfold parseLine. destruct H as [H|[H|[H|H]]].
  - apply trim_empty_iff in H. now rewrite H.
  - rewrite H. now rewrite orb_true_r.
  - rewrite H. now destruct (_ || _).
  - rewrite H. now destruct (_ || _).
Qed.

(** *** The model options *)

Lemma insertSorted_keys {A} (compare : string * A -> string * A -> Z) (x : string * A)
    (l : list (string * A)) (k : string) :
  In k (map fst (insertSorted compare x l)) <-> k = fst x \/ In k (map fst l).
Proof.
  induction l as [|y l IH]; simpl; [intuition congruence|].
  destruct (compare x y <=? 0)%Z; simpl; [intuition congruence|].
  rewrite IH. intuition congruence.
Qed.

Lemma insertSorted_distinct {A} (compare : string * A -> string * A -> Z) (x : string * A)
    (l : list (string * A)) :
  NoDup (fst x :: map fst l) -> NoDup (map fst (insertSorted compare x l)).
Proof.
  induction l as [|y l IH]; simpl; [auto|].
  destruct (compare x y <=? 0)%Z; simpl; [auto|].
  intros H. inversion H as [|? ? Hx Hrest]; subst.
  inversion Hrest as [|? ? Hy Hl]; subst.
  constructor.
  - rewrite insertSorted_keys. simpl in Hx. intuition congruence.
  - apply IH. constructor; [simpl in Hx; tauto | exact Hl].
Qed.

Lemma sort_keys {A} (compare : string * A -> string * A -> Z) (l : list (string * A))
    (k : string) :
  In k (map fst (sort compare l)) <-> In k (map fst l).
Proof.
  unfold sort. induction l as [|x l IH]; simpl; [tauto|].
  rewrite insertSorted_keys, IH. intuition congruence.
Qed.

Lemma sort_distinct {A} (compare : string * A -> string * A -> Z) (l : list (string * A)) :
  NoDup (map fst l) -> NoDup (map fst (sort compare l)).
Proof.
  unfold sort. induction l as [|x l IH]; simpl; [auto|].
  intros H. inversion H as [|? ? Hx Hl]; subst.
  apply insertSorted_distinct. constructor; [|now apply IH].
  fold (sort compare l). now rewrite sort_keys.
Qed.

Lemma insertSorted_all {A} (P : A -> Prop) (compare : A -> A -> Z) (x : A) (l : list A) :
  P x -> Forall P l -> Forall P (insertSorted compare x l).
Proof.
  intros Hx. induction 1 as [|y l Hy Hl IH]; simpl; [now repeat constructor|].
  destruct (compare x y <=? 0)%Z; repeat constructor; auto.
Qed.

Lemma sort_all {A} (P : A -> Prop) (compare : A -> A -> Z) (l : list A) :
  Forall P l -> Forall P (sort compare l).
Proof.
  unfold sort. induction 1 as [|x l Hx Hl IH]; simpl; [constructor|].
  now apply insertSorted_all.
Qed.

Lemma mapHas_keys (k : string) (m : list (string * ModelInfo)) :
  mapHas k m = true <-> In k (map fst m).
Proof.
  unfold mapHas. rewrite existsb_exists. split.
  - intros ([k' info] & Hin & Heq). simpl in Heq. apply String.eqb_eq in Heq. subst k'.
    now apply (in_map fst) in Hin.
  - intros H. apply in_map_iff in H as (e & <- & Hin). exists e.
    split; [exact Hin | apply String.eqb_refl].
Qed.

Lemma pushType_keys (k t : string) (m : list (string * ModelInfo)) :
  map fst (pushType k t m) = map fst m.
Proof.
  induction m as [|[k' info] m IH]; simpl; [reflexivity|].
  destruct (k' =? k); simpl; [reflexivity | now rewrite IH].
Qed.

Lemma pushType_all (P : string * ModelInfo -> Prop) (k t : string)
    (m : list (string * ModelInfo)) :
  (forall k' info, P (k', info) ->
     P (k', {| types := (types info ++ [t])%list; label := label info |})) ->
  Forall P m -> Forall P (pushType k t m).
Proof.
  intros Hp. induction 1 as [|[k' info] m Hx Hm IH]; simpl; [constructor|].
  destruct (k' =? k); constructor; auto.
Qed.

Lemma truthyProperty_nonempty (k : string) (env : Env) (v : string) :
  truthyProperty k env = Some v -> v <> "".
Proof.
  unfold truthyProperty. destruct (own k env) as [w|]; [|discriminate].
  destruct (w =? "") eqn:E; [discriminate|]. intros [= <-]. now apply String.eqb_neq.
Qed.

Lemma labelOf_nonempty (v : string) : v <> "" -> labelOf v <> "".
Proof.
  intros Hv. unfold labelOf. destruct (includesSlash v).
  - destruct (last (Text.split "/" v) "" =? "") eqn:E; [exact Hv | now apply String.eqb_neq].
  - destruct v; [contradiction | discriminate].
Qed.

(** The map after the first loop: its keys are the values that are set, they
    are distinct, and each entry has the label of its key. *)
Lemma modelMap_spec (env : Env) (entries : list (string * string)) :
  forall m,
    NoDup (map fst m) ->
    Forall (fun e => fst e <> "" /\ label (snd e) = labelOf (fst e)) m ->
    let m' := fold_left (addEntry env) entries m in
    NoDup (map fst m')
    /\ Forall (fun e => fst e <> "" /\ label (snd e) = labelOf (fst e)) m'
    /\ forall v, In v (map fst m')
                 <-> In v (map fst m)
                     \/ exists entry, In entry entries
                                      /\ truthyProperty (snd entry) env = Some v.
Proof.
  induction entries as [|[type envKey] entries IH]; intros m Hnd Hall; simpl.
  - split; [exact Hnd|]. split; [exact Hall|]. intros v. split; [tauto|].
    intros [H|(e & [] & _)]. exact H.
  - destruct (truthyProperty envKey env) as [modelValue|] eqn:Ev.
    + destruct (mapHas modelValue m) eqn:Eh; simpl.
      * destruct (IH (pushType modelValue type m)) as (H1 & H2 & H3).
        -- now rewrite pushType_keys.
        -- apply pushType_all; [|exact Hall]. now intros k' info.
        -- split; [exact H1|]. split; [exact H2|]. intros v. rewrite H3, pushType_keys.
           apply mapHas_keys in Eh. split.
           ++ intros [H|(e & He & Hv)]; [now left|]. right. exists e. auto.
           ++ intros [H|(e & [<-|He] & Hv)]; [now left| |right; exists e; auto].
              simpl in Hv. rewrite Ev in Hv. injection Hv as <-. now left.
      * destruct (IH (m ++ [(modelValue,
                             {| types := [type]; label := labelOf modelValue |})])%list)
          as (H1 & H2 & H3).
        -- rewrite map_app. simpl. apply NoDup_app; [exact Hnd | repeat constructor; tauto|].
           intros x Hx [<-|[]]. apply mapHas_keys in Hx. congruence.
        -- apply Forall_app. split; [exact Hall|]. repeat constructor; simpl.
           now apply (truthyProperty_nonempty envKey env).
        -- split; [exact H1|]. split; [exact H2|]. intros v. rewrite H3, map_app, in_app_iff.
           simpl. split.
           ++ intros [[H|[<-|[]]]|(e & He & Hv)]; [now left| |right; exists e; auto].
              right. exists (type, envKey). auto.
           ++ intros [H|(e & [<-|He] & Hv)]; [now left; left| |right; exists e; auto].
              simpl in Hv. rewrite Ev in Hv. injection Hv as <-. left. right. now left.
    + destruct (IH m Hnd Hall) as (H1 & H2 & H3).
      split; [exact H1|]. split; [exact H2|]. intros v. rewrite H3. split.
      * intros [H|(e & He & Hv)]; [now left|]. right. exists e. auto.
      * intros [H|(e & [<-|He] & Hv)]; [now left| |right; exists e; auto].
        simpl in Hv. congruence.
Qed.

Lemma getModels_values (envVars : Env) :
  NoDup (map value (getModelsFromEnvironment envVars))
  /\ forall v, In v (map value (getModelsFromEnvironment envVars))
               <-> exists entry, In entry modelEnvEntries
                                 /\ truthyProperty (snd entry) envVars = Some v.
Proof.
  unfold getModelsFromEnvironment.
  destruct (modelMap_spec envVars modelEnvEntries [] (NoDup_nil _) (Forall_nil _))
    as (Hnd & _ & Hin).
  cbv zeta in *. set (modelMap := fold_left (addEntry envVars) modelEnvEntries []) in *.
  rewrite map_map. simpl.
  change (map (fun x : string * ModelInfo => fst x)) with (@map (string * ModelInfo) _ fst).
  split; [now apply sort_distinct|].
  intros v. rewrite sort_keys, Hin. simpl. tauto.
Qed.

Lemma getModels_labels (envVars : Env) :
  Forall (fun o => value o <> "" /\ optionLabel o = labelOf (value o)
                   /\ optionLabel o <> "")
    (getModelsFromEnvironment envVars).
Proof.
  unfold getModelsFromEnvironment.
  destruct (modelMap_spec envVars modelEnvEntries [] (NoDup_nil _) (Forall_nil _))
    as (_ & Hall & _).
  cbv zeta in *. apply Forall_map. apply sort_all. eapply Forall_impl; [|exact Hall].
  intros [k info] [Hk Hl]; simpl in *. repeat split; auto.
  rewrite Hl. now apply labelOf_nonempty.
Qed.

Lemma getModels_head (envVars : Env) :
  option_map value (hd_error (getModelsFromEnvironment envVars))
  = getCurrentModelFromEnvironment envVars.
Proof.
  unfold getModelsFromEnvironment, getCurrentModelFromEnvironment.
  unfold modelEnvEntries, fold_left, addEntry.
  destruct (truthyProperty "ANTHROPIC_MODEL" envVars) as [v1|];
    destruct (truthyProperty "ANTHROPIC_DEFAULT_OPUS_MODEL" envVars) as [v2|];
    destruct (truthyProperty "ANTHROPIC_DEFAULT_SONNET_MODEL" envVars) as [v3|];
    destruct (truthyProperty "ANTHROPIC_DEFAULT_HAIKU_MODEL" envVars) as [v4|];
    cbn [mapHas existsb fst snd negb orb app pushType];
    repeat match goal with
           | |- context [String.eqb ?a ?b] =>
               destruct (String.eqb a b) eqn:?;
               cbn [mapHas existsb fst snd negb orb app pushType]
           end;
    reflexivity.
Qed.

(** X23 (the model options).  The options made from the environment have
    distinct values; the values are exactly the values of the four
    [ANTHROPIC_*] variables that are set and not empty; each option has a
    label, the one made from its value, and no label is empty. *)
Theorem getModelsFromEnvironment_options :
  forall envVars : Env,
    let options := getModelsFromEnvironment envVars in
    NoDup (map value options)
    /\ (forall v, In v (map value options)
                  <-> exists entry, In entry modelEnvEntries
                                    /\ truthyProperty (snd entry) envVars = Some v)
    /\ Forall (fun o => value o <> "" /\ optionLabel o = labelOf (value o)
                        /\ optionLabel o <> "") options.
Proof.
  intros envVars. cbv zeta.
  destruct (getModels_values envVars) as [Hnd Hin].
  split; [exact Hnd|]. split; [exact Hin | apply getModels_labels].
Qed.

(** X24 (the first option).  The option listed first is the model that
    [getCurrentModelFromEnvironment] returns: the value of
    [ANTHROPIC_MODEL], else of the opus, the sonnet or the haiku default;
    and there is no option exactly when there is no current model. *)
Theorem first_option_is_current_model :
  forall envVars : Env,
    option_map value (hd_error (getModelsFromEnvironment envVars))
    = getCurrentModelFromEnvironment envVars
    /\ (getModelsFromEnvironment envVars = []
        <-> getCurrentModelFromEnvironment envVars = None).
Proof.
  intros envVars. pose proof (getModels_head envVars) as H.
  split; [exact H|]. rewrite <- H.
  destruct (getModelsFromEnvironment envVars); simpl; split; congruence.
Qed.

(** *** The model selector *)

Lemma find_value (models : list ModelOption) (current : string) :
  match find (fun m => value m =? current) models with
  | Some m => In m models /\ value m = current
  | None => ~ In current (map value models)
  end.
Proof.
  induction models as [|m models IH]; simpl; [tauto|].
  destruct (value m =? current) eqn:E.
  - apply String.eqb_eq in E. auto.
  - apply String.eqb_neq in E. destruct (find _ models) as [m'|]; [|tauto].
    destruct IH. auto.
Qed.

(** X25 (the model button).  When the environment defines a model, the
    selector offers the models of the environment and none of the defaults,
    and its button shows the label of the model of the settings if that is
    one of them, else the label of the current model of the environment
    (never the fallback [Unknown] of a missing label).  When the environment
    defines none, the defaults are offered. *)
Theorem model_button_shows_a_model :
  forall (envVarsStr : string) (DEFAULT_CLAUDE_MODELS : list ModelOption)
         (currentModel : string),
    let envVars := parseEnvironmentVariables envVarsStr in
    let models := InputToolbar.getAvailableModels (Some envVarsStr) DEFAULT_CLAUDE_MODELS in
    match getCurrentModelFromEnvironment envVars with
    | Some v =>
        models = getModelsFromEnvironment envVars
        /\ InputToolbar.displayLabel models currentModel
           = labelOf (if existsb (String.eqb currentModel) (map value models)
                      then currentModel else v)
    | None => models = DEFAULT_CLAUDE_MODELS
    end.
Proof.
  intros envVarsStr defaults currentModel. cbv zeta.
  unfold InputToolbar.getAvailableModels.
  set (envVars := parseEnvironmentVariables envVarsStr).
  pose proof (getModels_head envVars) as Hhead.
  pose proof (getModels_labels envVars) as Hlabels.
  rewrite Forall_forall in Hlabels.
  destruct (getCurrentModelFromEnvironment envVars) as [v|].
  - destruct (getModelsFromEnvironment envVars) as [|o rest] eqn:Emodels; [discriminate|].
    simpl in Hhead. injection Hhead as Hv. cbn [List.length Nat.ltb Nat.leb].
    split; [reflexivity|]. unfold InputToolbar.displayLabel.
    pose proof (find_value (o :: rest) currentModel) as Hfind.
    destruct (find _ (o :: rest)) as [m|].
    + destruct Hfind as [Hin Hm].
      destruct (Hlabels m Hin) as (_ & Hl & Hne).
      apply String.eqb_neq in Hne. rewrite Hne, Hl, Hm.
      replace (existsb (String.eqb currentModel) (map value (o :: rest))) with true;
        [reflexivity|].
      symmetry. apply existsb_exists. exists currentModel.
      split; [|apply String.eqb_refl]. rewrite <- Hm. now apply in_map.
    + destruct (Hlabels o (or_introl eq_refl)) as (_ & Hl & Hne).
      apply String.eqb_neq in Hne. cbn [hd_error]. rewrite Hne, Hl, Hv.
      replace (existsb (String.eqb currentModel) (map value (o :: rest))) with false;
        [reflexivity|].
      symmetry. apply not_true_is_false. intros H. apply existsb_exists in H
        as (x & Hx & Heq). apply String.eqb_eq in Heq. subst x. contradiction.
  - destruct (getModelsFromEnvironment envVars); [reflexivity | discriminate].
Qed.

End EnvironmentVariables.

(** ** Paths without [..] *)

(** Without [..] nothing is removed: the segments that are neither empty
    nor [.] are added in order. *)
Lemma normalizeSteps_no_dotdot (segs res : list string) :
  forallb (fun seg => negb (seg =? "..")) segs = true ->
  fold_left (NodePath.normalizeStep false) segs res
  = (rev (filter (fun seg => negb (seg =? "") && negb (seg =? ".")) segs) ++ res)%list.
Proof.
  revert res. induction segs as [|seg segs IH]; intros res H; simpl; [reflexivity|].
  simpl in H. apply andb_true_iff in H as [Hseg H].
  rewrite (IH _ H). unfold NodePath.normalizeStep.
  destruct (seg =? "") eqn:E1; [reflexivity|].
  destruct (seg =? ".") eqn:E2; [reflexivity|].
  apply negb_true_iff in Hseg. rewrite Hseg. simpl.
  now rewrite <- app_assoc.
Qed.

(** A resolved path resolves to itself. *)
Lemma normalizeString_resolved (segs : list string) :
  forallb keptSegment segs = true ->
  NodePath.normalizeString (("/" ++ Text.join "/" segs) ++ "/") false = Text.join "/" segs.
Proof.
  intros H. destruct (keptSegment_filter segs H) as (Hf & Hd & Hs).
  unfold NodePath.normalizeString. f_equal.
  change (("/" ++ Text.join "/" segs) ++ "/") with (String "/" (Text.join "/" segs ++ "/")).
  change (Text.split "/" (String "/" (Text.join "/" segs ++ "/")))
    with ("" :: Text.split "/" (Text.join "/" segs ++ String "/" "")).
  rewrite split_app. simpl fold_left at 1.
  rewrite fold_left_app. simpl.
  destruct segs as [|p segs]; [reflexivity|].
  rewrite split_join by (discriminate || assumption).
  rewrite normalizeSteps_no_dotdot by exact Hd.
  rewrite Hf, app_nil_r.
  change (NodePath.normalizeStep false (rev (p :: segs)) "") with (rev (p :: segs)).
  apply rev_involutive.
Qed.

Lemma resolve_resolved (cwd : string) (segs : list string) :
  forallb keptSegment segs = true ->
  NodePath.resolve cwd ["/" ++ Text.join "/" segs] = "/" ++ Text.join "/" segs.
Proof.
  intros H. rewrite resolve_absolute by reflexivity.
  now rewrite normalizeString_resolved.
Qed.

(** The segments of the root followed by a path without [..]. *)
Lemma segmentsOf_below (R C : string) :
  noDotDot C = true ->
  segmentsOf (R ++ "/" ++ C ++ "/")
  = (segmentsOf (R ++ "/")
     ++ filter (fun seg => negb (seg =? "") && negb (seg =? ".")) (Text.split "/" C))%list.
Proof.
  intros HC. unfold segmentsOf.
  change (R ++ "/" ++ C ++ "/") with (R ++ String "/" (C ++ String "/" "")).
  change (R ++ "/") with (R ++ String "/" "").
  rewrite !split_app, !fold_left_app. change (Text.split "/" "") with [""].
  cbn [fold_left].
  repeat match goal with
         | |- context [NodePath.normalizeStep false ?x ""] =>
             change (NodePath.normalizeStep false x "") with x
         end.
  rewrite normalizeSteps_no_dotdot by exact HC.
  now rewrite rev_app_distr, rev_involutive.
Qed.

(** X26 (no escape without [..]).  Where the root and the candidate are
    resolved lexically (neither is a symbolic link or behind one), a relative
    candidate that has no segment [..] and does not start with [~/] is
    within an absolute root, unless the root is the root directory itself:
    [.], empty segments and trailing slashes do not matter. *)
Theorem relative_path_without_dotdot_is_within :
  forall (h : Utils.Host) (C R : string),
    NodePath.isAbsolute R = true ->
    NodePath.normalizeString (R ++ "/") false <> "" ->
    NodePath.isAbsolute C = false ->
    Text.startsWith C "~/" = false ->
    noDotDot C = true ->
    lexical h R ->
    lexical h (Utils.absCandidate h C R) ->
    Utils.isPathWithinVault h C R = true.
Proof.
  intros h C R HR Hroot HC Htilde Hdd HrealR HrealC.
  apply isPathWithinVault_spec.
  assert (Habs : Utils.absCandidate h C R = NodePath.resolve (Utils.cwd h) [R; C])
    by (unfold Utils.absCandidate; now rewrite expandedPath_plain, HC).
  unfold lexical in *. rewrite HrealR, HrealC, Habs.
  rewrite (resolve_absolute _ R HR), (resolve_absolute_root _ R C HR HC).
  rewrite !normalizeString_segments in *.
  destruct (C =? "") eqn:Eempty.
  - left. apply resolve_resolved, segmentsOf_kept.
  - rewrite resolve_resolved by apply segmentsOf_kept.
    rewrite (segmentsOf_below R C Hdd).
    set (below := filter _ (Text.split "/" C)).
    destruct below as [|seg below]; [left; now rewrite app_nil_r|].
    right. exists (Text.join "/" (seg :: below)).
    rewrite join_app; [now rewrite !append_assoc | | discriminate].
    intros Hnil. rewrite Hnil in Hroot. now apply Hroot.
Qed.

Lemma absCandidate_absolute (h : Utils.Host) (C R : string) :
  NodePath.isAbsolute R = true -> NodePath.isAbsolute (Utils.absCandidate h C R) = true.
Proof.
  intros HR. unfold Utils.absCandidate.
  destruct (NodePath.isAbsolute (Utils.expandedPath h C)) eqn:E; [exact E|].
  now rewrite (resolve_absolute_root _ R _ HR E).
Qed.

(** X27 (a vault at the root directory).  With the root directory as root, and
    paths resolved lexically, the containment check accepts the candidates
    that resolve to the root directory itself and no other: no resolved
    path starts with two slashes. *)
Theorem root_vault_contains_only_itself :
  forall (h : Utils.Host) (C : string),
    lexical h "/" ->
    lexical h (Utils.absCandidate h C "/") ->
    (Utils.isPathWithinVault h C "/" = true
     <-> NodePath.resolve (Utils.cwd h) [Utils.absCandidate h C "/"] = "/").
Proof.
  intros h C Hroot Hcand. rewrite isPathWithinVault_spec.
  unfold lexical in *. rewrite Hroot, Hcand.
  change (NodePath.resolve (Utils.cwd h) ["/"]) with "/".
  split; [|now left]. intros [H|[rest H]]; [exact H|]. exfalso.
  rewrite (resolve_absolute _ _ (absCandidate_absolute h C "/" eq_refl)) in H.
  rewrite normalizeString_segments in H.
  apply (append_cancel_l "/") in H.
  pose proof (join_head _ (segmentsOf_kept (Utils.absCandidate h C "/" ++ "/"))) as Hhead.
  rewrite H in Hhead. discriminate.
Qed.

(** ** Containment, segment by segment *)

Lemma segmentsOf_root (R : string) :
  NodePath.normalizeString (R ++ "/") false <> "" -> segmentsOf (R ++ "/") <> [].
Proof. intros H Hnil. apply H. rewrite normalizeString_segments, Hnil. reflexivity. Qed.

(** X28 (containment by segments).  Where the root and the candidate are
    resolved lexically, the containment check compares whole segments: a
    candidate is within an absolute root (other than the root directory)
    exactly when the segments of the resolved root are the first segments
    of the resolved candidate. *)
Theorem lexical_containment_is_segment_prefix :
  forall (h : Utils.Host) (C R : string),
    NodePath.isAbsolute R = true ->
    NodePath.normalizeString (R ++ "/") false <> "" ->
    lexical h R ->
    lexical h (Utils.absCandidate h C R) ->
    (Utils.isPathWithinVault h C R = true
     <-> exists below,
           segmentsOf (Utils.absCandidate h C R ++ "/")
           = (segmentsOf (R ++ "/") ++ below)%list).
Proof.
  intros h C R HR Hroot HlexR HlexC.
  rewrite isPathWithinVault_spec. unfold lexical in *. rewrite HlexR, HlexC.
  rewrite (resolve_absolute _ R HR),
    (resolve_absolute _ _ (absCandidate_absolute h C R HR)).
  rewrite !normalizeString_segments.
  rewrite <- (join_prefix (segmentsOf (R ++ "/")))
    by (apply segmentsOf_kept || now apply segmentsOf_root).
  split; (intros [H|[rest H]]; [left | right; exists rest]).
  - now apply (append_cancel_l "/") in H.
  - rewrite append_assoc in H. now apply (append_cancel_l "/") in H.
  - now rewrite H.
  - rewrite H. now rewrite !append_assoc.
Qed.

(** X29 (absolute paths below the root).  Where the root and the candidate
    are resolved lexically, an absolute candidate made of the root, a slash
    and a path without [..] is within the root. *)
Theorem absolute_path_below_root_is_within :
  forall (h : Utils.Host) (C R : string),
    NodePath.isAbsolute R = true ->
    NodePath.normalizeString (R ++ "/") false <> "" ->
    noDotDot C = true ->
    lexical h R ->
    lexical h (R ++ "/" ++ C) ->
    Utils.isPathWithinVault h (R ++ "/" ++ C) R = true.
Proof.
  intros h C R HR Hroot Hdd HlexR HlexC.
  assert (Habs : Utils.absCandidate h (R ++ "/" ++ C) R = R ++ "/" ++ C).
  { unfold Utils.absCandidate, Utils.expandedPath.
    destruct R as [|c R]; [discriminate|]. simpl in HR. apply Ascii.eqb_eq in HR. subst c.
    reflexivity. }
  apply isPathWithinVault_spec. rewrite Habs. unfold lexical in *. rewrite HlexR, HlexC.
  assert (HRC : NodePath.isAbsolute (R ++ "/" ++ C) = true)
    by (destruct R; [discriminate | exact HR]).
  rewrite (resolve_absolute _ R HR), (resolve_absolute _ _ HRC).
  rewrite !normalizeString_segments.
  replace ((R ++ "/" ++ C) ++ "/") with (R ++ "/" ++ C ++ "/") by now rewrite !append_assoc.
  rewrite (segmentsOf_below R C Hdd).
  set (below := filter _ (Text.split "/" C)).
  destruct below as [|seg below]; [left; now rewrite app_nil_r|].
  right. exists (Text.join "/" (seg :: below)).
  rewrite join_app; [now rewrite !append_assoc | now apply segmentsOf_root | discriminate].
Qed.

(** ** The context paths *)

Lemma removed_absent (paths : list string) (p : string) :
  ~ In p paths -> InputToolbar.removedContextPaths paths p = paths.
Proof.
  unfold InputToolbar.removedContextPaths.
  induction paths as [|q paths IH]; simpl; [reflexivity|].
  intros H. destruct (q =? p) eqn:E.
  - apply String.eqb_eq in E. tauto.
  - simpl. rewrite IH; tauto.
Qed.

(** X30 (the context paths).  A picked folder is appended unless the list has
    it already; removing it afterwards gives back the list as it was; a
    removed path is not in the list any more; neither operation brings a
    duplicate into a list that had none. *)
Theorem context_paths_stay_distinct :
  forall (paths : list string) (p : string),
    match InputToolbar.pickedContextPaths paths p with
    | Some paths' =>
        ~ In p paths
        /\ paths' = (paths ++ [p])%list
        /\ InputToolbar.removedContextPaths paths' p = paths
        /\ (NoDup paths -> NoDup paths')
    | None => In p paths
    end
    /\ ~ In p (InputToolbar.removedContextPaths paths p)
    /\ (NoDup paths -> NoDup (InputToolbar.removedContextPaths paths p)).
Proof.
  intros paths p. split; [|split].
  - unfold InputToolbar.pickedContextPaths.
    destruct (existsb (String.eqb p) paths) eqn:E; simpl.
    + apply existsb_exists in E as (q & Hq & Heq). apply String.eqb_eq in Heq. now subst q.
    + assert (Hnot : ~ In p paths).
      { intros Hin. apply not_true_iff_false in E. apply E, existsb_exists.
        exists p. split; [exact Hin | apply String.eqb_refl]. }
      split; [exact Hnot|]. split; [reflexivity|]. split.
      * unfold InputToolbar.removedContextPaths. rewrite filter_app. simpl.
        rewrite String.eqb_refl. simpl. rewrite app_nil_r. now apply removed_absent.
      * intros Hnd. apply NoDup_app; [exact Hnd | repeat constructor; tauto|].
        intros x Hx [<-|[]]. contradiction.
  - unfold InputToolbar.removedContextPaths. rewrite filter_In.
    intros [_ H]. now rewrite String.eqb_refl in H.
  - apply NoDup_filter.
Qed.

(* ================================================================== *)
(** * The further properties on the concrete installation *)
(* ================================================================== *)

(** ** The turn of the refine service, on the sample installation *)

(** Without a vault path nothing happens. *)
Lemma turn_needs_configuration_witness :
  snd (sampleSend pluginWithoutVault scriptedQuery "be concise" false newService)
  = failure "Could not determine vault path"
  /\ queries (fst (sampleSend pluginWithoutVault scriptedQuery "be concise" false newService))
     = [].
Proof.
  destruct (turn_needs_configuration emptyHost pluginWithoutVault "Read" "Grep" "Glob"
              [("off", 0%Z); ("low", 4000%Z)]
              (fun existing => "You are helping refine a custom instruction.") []
              (fun _ => []) scriptedQuery "be concise" false newService eq_refl)
    as (Hresult & Hqueries & _).
  split; [exact Hresult | exact Hqueries].
Defined.

(** The second turn of the sample conversation gets the second controller;
    the first one is as the first turn left it. *)
Lemma turn_accounting_witness :
  exists options,
    queries (fst (sampleSend samplePlugin scriptedQuery "TypeScript" false afterFirstTurn))
    = (queries afterFirstTurn ++ [("TypeScript", options)])%list
    /\ optAbortController options = 1
    /\ abortController
         (this (fst (sampleSend samplePlugin scriptedQuery "TypeScript" false afterFirstTurn)))
       = None.
Proof.
  destruct (turn_accounting emptyHost samplePlugin "Read" "Grep" "Glob"
              [("off", 0%Z); ("low", 4000%Z)]
              (fun existing => "You are helping refine a custom instruction.") []
              (fun _ => []) scriptedQuery "TypeScript" false afterFirstTurn eq_refl)
    as (options & Hq & Hc & _ & _ & Ha).
  exists options. split; [exact Hq|]. split; [exact Hc | exact Ha].
Defined.

(** A [cancel()] while the runtime goes on delivering: the controller of the
    turn is aborted, [interrupt()] is not called and the turn returns what
    the whole stream delivered. *)
Example cancel_during_a_turn :
  sampleSend samplePlugin unstoppableQuery "typescript" false newService
  = ({| this := {| abortController := None;
                   resolvedClaudePath := Some "/usr/local/bin/claude";
                   sessionId := JsNull;
                   existingInstructions := "" |};
        controllers := [true];
        queries := queries (fst (sampleSend samplePlugin unstoppableQuery "typescript" false
                                   newService));
        interrupts := 0;
        progress := [] |},
     refined "- Use TypeScript.").
Proof. reflexivity. Qed.

(** The hooks of the sample query do not let [Read] out of the vault. *)
Lemma turn_query_is_confined_witness :
  exists options,
    queries (fst (sampleSend samplePlugin scriptedQuery "typescript" false newService))
    = [("typescript", options)]
    /\ optCwd options = "/vault"
    /\ ~ (forall hook,
            In hook (hooksPreToolUse options) ->
            exists result,
              hook "Read" (JsObject [("file_path", JsString "/etc/passwd")]) = Normal result
              /\ continue result = true).
Proof.
  destruct (turn_query_is_confined emptyHost samplePlugin "Read" "Grep" "Glob"
              [("off", 0%Z); ("low", 4000%Z)]
              (fun existing => "You are helping refine a custom instruction.") []
              (fun _ => []) scriptedQuery "typescript" false newService "/vault"
              eq_refl eq_refl)
    as (options & Hq & Hcwd & _ & Hhooks).
  exists options. split; [exact Hq|]. split; [exact Hcwd|].
  intros Hpass.
  destruct (Hhooks "Read" (JsObject [("file_path", JsString "/etc/passwd")]) Hpass)
    as (_ & Hpath).
  destruct (Hpath (or_introl eq_refl)) as (v & Hv & [Hfalsy|(p & Hp & Hwithin)]);
    injection Hv as <-; [discriminate|].
  injection Hp as <-. discriminate.
Defined.

(** The stream breaks after a complete answer: the answer is lost. *)
Lemma turn_fails_when_stream_throws_witness :
  (exists reason,
     snd (refineInstruction emptyHost samplePlugin "Read" "Grep" "Glob"
            [("off", 0%Z); ("low", 4000%Z)]
            (fun existing => "You are helping refine a custom instruction.") []
            (fun _ => []) brokenQuery "typescript" "" false newService)
     = failure reason)
  /\ snd (sampleSend samplePlugin brokenQuery "typescript" false newService)
     = failure "socket hang up".
Proof.
  split; [|reflexivity].
  apply (turn_fails_when_stream_throws emptyHost samplePlugin "Read" "Grep" "Glob"
           [("off", 0%Z); ("low", 4000%Z)]
           (fun existing => "You are helping refine a custom instruction.") []
           (fun _ => []) brokenQuery "typescript" "" "more" false newService).
  intros prompt options. discriminate.
Defined.


(** With the budget [low] the sample query asks for 4000 thinking tokens
    and names the executable the sample host has. *)
Lemma turn_query_settings_witness :
  exists options,
    queries (fst (sampleSend thinkingPlugin scriptedQuery "typescript" false newService))
    = [("typescript", options)]
    /\ Utils.findClaudeCLIPath emptyHost = Some (pathToClaudeCodeExecutable options)
    /\ forall tokens,
         maxThinkingTokens options = Some tokens ->
         (0 < tokens)%Z /\ In ("low", tokens) [("off", 0%Z); ("low", 4000%Z)].
Proof.
  destruct (turn_query_settings emptyHost thinkingPlugin "Read" "Grep" "Glob"
              [("off", 0%Z); ("low", 4000%Z)]
              (fun existing => "You are helping refine a custom instruction.") []
              (fun _ => []) scriptedQuery "typescript" false newService eq_refl)
    as (options & Hq & _ & _ & Hexe & Hbudget).
  exists options. split; [exact Hq|]. split; [exact (proj1 Hexe) | exact Hbudget].
Defined.

Example thinking_budget_of_the_sample_query :
  map (fun q => maxThinkingTokens (snd q))
    (queries (fst (sampleSend thinkingPlugin scriptedQuery "typescript" false newService)))
  = [Some 4000%Z]
  /\ map (fun q => maxThinkingTokens (snd q))
       (queries (fst (sampleSend samplePlugin scriptedQuery "typescript" false newService)))
     = [None].
Proof. split; reflexivity. Qed.
(** ** The parse of a growing text, on an example *)

Lemma parseResponse_settles_witness :
  parseResponse ("<instruction>first</instruction>" ++ " then <instruction>second</instruction>")
  = parseResponse "<instruction>first</instruction>".
Proof.
  apply (parseResponse_settles "<instruction>first</instruction>"
           " then <instruction>second</instruction>").
  discriminate.
Defined.

(** The answer reported first is the answer returned, whatever follows. *)
Lemma refined_update_is_final_witness :
  exists updates,
    progress (fst (refineInstruction emptyHost samplePlugin "Read" "Grep" "Glob"
                     [("off", 0%Z); ("low", 4000%Z)]
                     (fun existing => "You are helping refine a custom instruction.") []
                     (fun _ => []) chattyQuery "typescript" "" true newService))
    = updates
    /\ hd_error updates = Some (refined "- Use TypeScript.")
    /\ snd (refineInstruction emptyHost samplePlugin "Read" "Grep" "Glob"
              [("off", 0%Z); ("low", 4000%Z)]
              (fun existing => "You are helping refine a custom instruction.") []
              (fun _ => []) chattyQuery "typescript" "" true newService)
       = refined "- Use TypeScript.".
Proof.
  destruct (proj1 (refined_update_is_final emptyHost samplePlugin "Read" "Grep" "Glob"
                     [("off", 0%Z); ("low", 4000%Z)]
                     (fun existing => "You are helping refine a custom instruction.") []
                     (fun _ => []) chattyQuery "typescript" "" "more" newService))
    as (updates & Hu & Hfinal).
  exists updates. split; [exact Hu|].
  assert (Hfirst : hd_error updates = Some (refined "- Use TypeScript."))
    by (change updates with (progress newService ++ updates)%list;
        rewrite <- Hu; reflexivity).
  split; [exact Hfirst|].
  destruct (Hfinal (refined "- Use TypeScript.")) as [H|H].
  - destruct updates as [|u updates]; [discriminate|]. injection Hfirst as ->. now left.
  - discriminate.
  - exact H.
  - discriminate.
Defined.

(** ** The hooks, on the sample installation *)

(** A search from inside the vault with a pattern that leaves it. *)
Lemma search_path_decides_witness :
  createVaultRestrictionHook emptyHost "/vault" "Glob"
    (JsObject [("path", JsString "/vault/notes"); ("pattern", JsString "/etc/**")])
  = Normal allow.
Proof.
  apply (search_path_decides emptyHost "/vault" "Glob"
           (JsObject [("path", JsString "/vault/notes"); ("pattern", JsString "/etc/**")])
           "/vault/notes");
    [left; reflexivity | reflexivity | discriminate].
Defined.

(** A blocked [Write] is counted, a blocked [Read] is not. *)
Lemma onEditBlocked_on_denied_edits_only_witness :
  countingHook "Write" (JsObject [("file_path", JsString "/etc/passwd")]) 0
  = (deny ("Access denied: Path " ++ Text.dquote ++ "/etc/passwd" ++ Text.dquote
           ++ " is outside the vault. Agent is restricted to vault directory only."), 1)
  /\ snd (countingHook "Read" (JsObject [("file_path", JsString "/etc/passwd")]) 0) = 0.
Proof.
  split; [reflexivity|].
  exact (onEditBlocked_on_denied_edits_only toolNames_TOOL_BASH toolNames_isEditTool
           toolNames_isFileTool sampleGetPathFromToolInput sampleCandidatePaths nat
           countingContext "Read" (JsObject [("file_path", JsString "/etc/passwd")]) 0).
Defined.

(** ** The message transformer, on sample messages *)

(** The refine service reads the two texts the chat view shows. *)
Lemma extractText_reads_the_text_chunks_witness :
  extractTextFromMessage mixedAssistantMessage = Normal "Reading. Done."
  /\ textsOf (fst (run (fun v => v) someWorld mixedAssistantMessage))
     = [JsString "Reading. "; JsString "Done."].
Proof.
  split; [|reflexivity].
  exact (extractText_reads_the_text_chunks (fun v => v) someWorld mixedAssistantMessage
           eq_refl).
Defined.

(** The blocked message of the samples has a tool result, which is not
    shown. *)
Lemma blocked_message_yields_the_reason_only_witness :
  run (fun v => v) someWorld
    (JsObject [("type", JsString "user"); ("parent_tool_use_id", JsString "toolu_1");
               ("tool_use_result", JsString "secret"); ("_blocked", JsBool true);
               ("_blockReason", JsString "Access denied");
               ("message", JsObject [("content", JsArray [JsNull])])])
  = ([BlockedChunk (JsString "Access denied")], Normal tt).
Proof.
  apply (blocked_message_yields_the_reason_only (fun v => v) someWorld); reflexivity.
Defined.

(** A content that is a string: nothing for the chat view, a [TypeError]
    for the refine service, which the turn reports as its failure. *)
Example string_content :
  let m := JsObject [("type", JsString "assistant");
                     ("message", JsObject [("content", JsString "plain")])] in
  run (fun v => v) someWorld m = ([], Normal tt)
  /\ snd (sampleSend samplePlugin
            (fun _ _ => {| steps := [Deliver m]; ending := None |})
            "typescript" false newService)
     = failure "message.message.content.filter is not a function".
Proof. split; reflexivity. Qed.

(** ** The environment variables, on sample texts *)

Section EnvironmentSamples.

Import Environment.

Example parseEnvironmentVariables_example :
  parseEnvironmentVariables
    ("# models" ++ String lineFeed
       ("ANTHROPIC_MODEL = my-org/fast-model" ++ String lineFeed
          ("export FOO" ++ String lineFeed
             ("=nothing" ++ String lineFeed "ANTHROPIC_BASE_URL=http://localhost:8080/v1?x=1"))))
  = [("ANTHROPIC_MODEL", "my-org/fast-model");
     ("ANTHROPIC_BASE_URL", "http://localhost:8080/v1?x=1")].
Proof. reflexivity. Qed.

(** The second definition of a variable replaces the first. *)
Lemma appended_assignment_wins_witness :
  own "ANTHROPIC_MODEL"
    (parseEnvironmentVariables
       ("ANTHROPIC_MODEL=old" ++ String lineFeed ("ANTHROPIC_MODEL" ++ "=" ++ " new ")))
  = Some "new".
Proof.
  refine (proj1 (appended_assignment_wins "ANTHROPIC_MODEL=old" "ANTHROPIC_MODEL" " new "
                   _ _ _ _)); try reflexivity; discriminate.
Defined.

(** A comment after a definition. *)
Lemma skipped_lines_witness :
  parseEnvironmentVariables ("A=1" ++ String lineFeed "  # A=2")
  = parseEnvironmentVariables "A=1".
Proof.
  apply (skipped_lines "A=1" "  # A=2"); [reflexivity | right; left; reflexivity].
Defined.

(** One [ANTHROPIC_MODEL] line: one option, shown on the button whatever
    the settings say. *)
Example model_button_example :
  let text := "# custom" ++ String lineFeed "ANTHROPIC_MODEL = my-org/fast-model" in
  map value (getModelsFromEnvironment (parseEnvironmentVariables text))
  = ["my-org/fast-model"]
  /\ InputToolbar.displayLabel (InputToolbar.getAvailableModels (Some text) [])
       "claude-sonnet-4-5"
     = "fast-model".
Proof. split; reflexivity. Qed.

(** Two variables with one value, a third with another: two options. *)
Lemma getModelsFromEnvironment_options_witness :
  let envVars := [("ANTHROPIC_MODEL", "sonnet-x");
                  ("ANTHROPIC_DEFAULT_HAIKU_MODEL", "my-org/haiku-x");
                  ("ANTHROPIC_DEFAULT_SONNET_MODEL", "sonnet-x")] in
  In "my-org/haiku-x" (map value (getModelsFromEnvironment envVars))
  /\ map description (getModelsFromEnvironment envVars)
     = ["Custom model (model, sonnet)"; "Custom model (haiku)"].
Proof.
  intros envVars. split; [|reflexivity].
  apply (proj1 (proj2 (getModelsFromEnvironment_options envVars))).
  exists ("haiku", "ANTHROPIC_DEFAULT_HAIKU_MODEL"). split; [|reflexivity].
  right. right. right. left. reflexivity.
Defined.

(** No model variable, no option. *)
Lemma first_option_is_current_model_witness :
  getModelsFromEnvironment [("ANTHROPIC_BASE_URL", "http://localhost:8080")] = [].
Proof.
  apply (proj2 (first_option_is_current_model
                  [("ANTHROPIC_BASE_URL", "http://localhost:8080")])).
  reflexivity.
Defined.

End EnvironmentSamples.

(** ** Path containment, on a host with a vault *)

(** A new note in an existing vault. *)
Lemma relative_path_without_dotdot_is_within_witness :
  Utils.isPathWithinVault vaultHost "notes/./daily//2024.md" "/vault/" = true.
Proof.
  apply (relative_path_without_dotdot_is_within vaultHost "notes/./daily//2024.md" "/vault/");
    try reflexivity.
  discriminate.
Defined.

(** Nothing on the file system is within a vault at [/]. *)
Lemma root_vault_contains_only_itself_witness :
  Utils.isPathWithinVault emptyHost "/etc/passwd" "/" = false
  /\ Utils.isPathWithinVault emptyHost "etc/.." "/" = true.
Proof.
  split.
  - destruct (Utils.isPathWithinVault emptyHost "/etc/passwd" "/") eqn:E; [|reflexivity].
    apply (root_vault_contains_only_itself emptyHost "/etc/passwd" eq_refl eq_refl) in E.
    discriminate E.
  - now apply (root_vault_contains_only_itself emptyHost "etc/.." eq_refl eq_refl).
Defined.

(** ** The context paths, on a sample list *)

Lemma context_paths_stay_distinct_witness :
  NoDup (InputToolbar.removedContextPaths ["/notes"; "/papers"; "/code"] "/papers")
  /\ InputToolbar.pickedContextPaths ["/notes"; "/papers"] "/papers" = None.
Proof.
  split; [|reflexivity].
  apply (proj2 (proj2 (context_paths_stay_distinct ["/notes"; "/papers"; "/code"] "/papers"))).
  repeat constructor; simpl; intuition discriminate.
Defined.

(** ** More on the host with a vault *)

(** The sibling [/vaultx] shares a prefix with [/vault], not a segment. *)
Lemma lexical_containment_is_segment_prefix_witness :
  Utils.isPathWithinVault vaultHost "/vaultx/note.md" "/vault" = false
  /\ Utils.isPathWithinVault vaultHost "../vault/./note.md" "/vault" = true.
Proof.
  pose proof (fun C => lexical_containment_is_segment_prefix vaultHost C "/vault" eq_refl)
    as H.
  split.
  - destruct (Utils.isPathWithinVault vaultHost "/vaultx/note.md" "/vault") eqn:E;
      [|reflexivity].
    apply (H "/vaultx/note.md") in E; try reflexivity; [|discriminate].
    destruct E as [below E]. discriminate E.
  - apply (H "../vault/./note.md"); try reflexivity; [discriminate|].
    exists ["note.md"]. reflexivity.
Defined.

Lemma absolute_path_below_root_is_within_witness :
  Utils.isPathWithinVault vaultHost "/vault/notes/2024.md" "/vault" = true.
Proof.
  apply (absolute_path_below_root_is_within vaultHost "notes/2024.md" "/vault");
    try reflexivity.
  discriminate.
Defined.
